(** * State synchronisation engine of the data labeler front end

    A shallow embedding of the adapter contract ([lib/adapters/types.ts]), of
    the on-device adapter ([LocalStorageAdapter], [unnamed/part_006]), of the
    remote adapter ([BackendAdapter], [unnamed/part_008]) with its HTTP client
    ([ApiClient], [unnamed/part_010]), of the orchestrator (class [StateSync],
    the second half of [lib/statePersistence.ts]) and of the factory
    [createStateSync] ([unnamed/part_007]), and the properties of the
    persistence contract checked against it; then of the synchronous wrapper
    ([lib/statePersistenceV2.ts]) and of the persistence layer the adapters
    replace (the first half of [lib/statePersistence.ts]).

    Conventions.
    - Asynchronous methods are embedded as state transformers: every
      [await]ed call is one atomic transition of the world the adapters live
      in.  The orchestrator never runs two of its own loops in parallel, so an
      operation is the sequence of its adapter calls.
    - A method that catches every exception returns plain data; a JavaScript
      expression that can throw is embedded in [JS.Completion].
    - JavaScript numbers are embedded as integers ([Z]); [NaN] is kept apart
      where the source can produce it (the time value of an invalid date). *)

From Stdlib Require Import ZArith Lia Ascii.
From stdpp Require Import base option list strings pretty gmap sorting.

Set Warnings "-register-all".

Open Scope string_scope.
Open Scope list_scope.
Open Scope Z_scope.

(** ** JavaScript values *)

Module JS.

(** [Date]: a time value in milliseconds since the epoch, or the invalid
    date ([new Date(NaN)]). *)
Inductive Date : Type :=
| ValidDate (ms : Z)
| InvalidDate.

#[global] Instance Date_eq_dec : EqDecision Date.
Proof. solve_decision. Defined.

(** [d.getTime()]; [None] stands for [NaN]. *)
Definition getTime (d : Date) : option Z :=
  match d with
  | ValidDate ms => Some ms
  | InvalidDate => None
  end.

(** [a > b] on two dates: both are converted to numbers, and every
    comparison with [NaN] is false. *)
Definition date_gt (a b : Date) : bool :=
  match getTime a, getTime b with
  | Some x, Some y => bool_decide (y < x)
  | _, _ => false
  end.

(** [a < b] on two dates. *)
Definition date_lt (a b : Date) : bool := date_gt b a.

(** [x - y] on two numbers that may be [NaN]. *)
Definition num_sub (x y : option Z) : option Z :=
  match x, y with
  | Some a, Some b => Some (a - b)
  | _, _ => None
  end.

(** The comparator result as [Array.prototype.sort] reads it: [NaN] counts
    as [+0]. *)
Definition sort_key (v : option Z) : Z := default 0 v.

Section Sort.
Context {A : Type}.
Variable cmp : A → A → option Z.

(** [Array.prototype.sort(cmp)].  The sort is stable: an element moves
    behind another one only when the comparator says it is greater. *)
Fixpoint sort_insert (x : A) (l : list A) : list A :=
  match l with
  | [] => [x]
  | y :: l' =>
      if bool_decide (0 < sort_key (cmp x y))
      then y :: sort_insert x l'
      else x :: y :: l'
  end.

Definition sort (l : list A) : list A := foldr sort_insert [] l.
End Sort.

(** A JavaScript [Map] keeps its keys in insertion order; [set] on a key
    that is present replaces the value in place. *)
Section OrderedMap.
Context {V : Type}.

Fixpoint map_set (k : string) (v : V) (m : list (string * V)) : list (string * V) :=
  match m with
  | [] => [(k, v)]
  | (k', v') :: m' =>
      if decide (k' = k) then (k, v) :: m' else (k', v') :: map_set k v m'
  end.

Fixpoint map_get (k : string) (m : list (string * V)) : option V :=
  match m with
  | [] => None
  | (k', v') :: m' => if decide (k' = k) then Some v' else map_get k m'
  end.

Definition map_delete (k : string) (m : list (string * V)) : list (string * V) :=
  filter (λ kv, kv.1 ≠ k) m.

Definition map_values (m : list (string * V)) : list V := m.*2.
Definition map_keys (m : list (string * V)) : list string := m.*1.
End OrderedMap.

(** [a.reduce(f)] without an initial value; [None] is the [TypeError] on an
    empty array. *)
Definition reduce {A} (f : A → A → A) (l : list A) : option A :=
  match l with
  | [] => None
  | x :: l' => Some (foldl f x l')
  end.

(** [x || d] on an optional string: [undefined] and the empty string are
    falsy. *)
Definition str_or (x : option string) (d : string) : string :=
  match x with
  | Some s => if decide (s = EmptyString) then d else s
  | None => d
  end.

(** [x || d] on an optional number: [undefined] and [0] are falsy. *)
Definition num_or (x : option Z) (d : Z) : Z :=
  match x with
  | Some n => if decide (n = 0) then d else n
  | None => d
  end.

(** *** Values and JSON *)

(** The values the persistence layer handles.  Objects carry their own
    enumerable properties in insertion order. *)
Inductive value : Type :=
| VUndefined
| VNull
| VBool (b : bool)
| VNumber (n : Z)
| VNaN
| VString (s : string)
| VDate (d : Date)
| VArray (items : list value)
| VObject (props : list (string * value))
| VSet (items : list value)
| VMap (entries : list (value * value)).

(** What [JSON.parse] can produce. *)
Inductive json : Type :=
| JNull
| JBool (b : bool)
| JNumber (n : Z)
| JString (s : string)
| JArray (items : list json)
| JObject (props : list (string * json)).

(** The outcome of evaluating an expression that may throw. *)
Inductive Completion (A : Type) : Type :=
| Normal (a : A)
| Throw (e : string).
Arguments Normal {A} a.
Arguments Throw {A} e.

Definition cbind {A B} (c : Completion A) (k : A → Completion B) : Completion B :=
  match c with
  | Normal a => k a
  | Throw e => Throw e
  end.

Fixpoint cmapM {A B} (f : A → Completion B) (l : list A) : Completion (list B) :=
  match l with
  | [] => Normal []
  | x :: l' => cbind (f x) (λ y, cbind (cmapM f l') (λ ys, Normal (y :: ys)))
  end.

(** The platform functions the source relies on and that are not modelled
    character by character. *)
Class Platform : Type := {
  (** [Date.prototype.toISOString] on a valid time value *)
  toISOString : Z → string;
  (** [new Date(s)] on a string *)
  Date_parse : string → Date;
  (** [new Date(o)] on an object, which goes through [ToPrimitive] *)
  Date_of_object : value → Date;
}.

Section WithPlatform.
Context `{Platform}.

(** [JSON.stringify] followed by the reading of the text as a tree.
    [None] is [undefined]: the property is left out of an object, and
    becomes [null] inside an array.  A date is written by [toJSON] (an
    invalid one as [null]); [NaN] is written as [null]; a [Set] or [Map]
    has no enumerable property and is written as the empty object. *)
Fixpoint JSON_stringify (v : value) : option json :=
  match v with
  | VUndefined => None
  | VNull => Some JNull
  | VBool b => Some (JBool b)
  | VNumber n => Some (JNumber n)
  | VNaN => Some JNull
  | VString s => Some (JString s)
  | VDate (ValidDate ms) => Some (JString (toISOString ms))
  | VDate InvalidDate => Some JNull
  | VArray items =>
      Some (JArray (List.map (λ x, default JNull (JSON_stringify x)) items))
  | VObject props =>
      Some (JObject
        ((fix go (ps : list (string * value)) : list (string * json) :=
            match ps with
            | [] => []
            | (k, x) :: ps' =>
                match JSON_stringify x with
                | Some j => (k, j) :: go ps'
                | None => go ps'
                end
            end) props))
  | VSet _ => Some (JObject [])
  | VMap _ => Some (JObject [])
  end.

(** The value [JSON.parse] builds from a tree. *)
Fixpoint of_json (j : json) : value :=
  match j with
  | JNull => VNull
  | JBool b => VBool b
  | JNumber n => VNumber n
  | JString s => VString s
  | JArray items => VArray (List.map of_json items)
  | JObject props =>
      VObject
        ((fix go (ps : list (string * json)) : list (string * value) :=
            match ps with
            | [] => []
            | (k, x) :: ps' => (k, of_json x) :: go ps'
            end) props)
  end.

(** The two inner loops, by name. *)
Definition stringify_items (items : list value) : list json :=
  List.map (λ x, default JNull (JSON_stringify x)) items.

Fixpoint stringify_props (props : list (string * value)) : list (string * json) :=
  match props with
  | [] => []
  | (k, x) :: props' =>
      match JSON_stringify x with
      | Some j => (k, j) :: stringify_props props'
      | None => stringify_props props'
      end
  end.

Fixpoint of_json_props (props : list (string * json)) : list (string * value) :=
  match props with
  | [] => []
  | (k, x) :: props' => (k, of_json x) :: of_json_props props'
  end.

(** [new Date(v)].  A number is clipped to the range of time values. *)
Definition new_Date (v : value) : Date :=
  match v with
  | VUndefined => InvalidDate
  | VNull => ValidDate 0
  | VBool b => ValidDate (if b then 1 else 0)
  | VNumber n =>
      if bool_decide (Z.abs n ≤ 8640000000000000) then ValidDate n else InvalidDate
  | VNaN => InvalidDate
  | VString s => Date_parse s
  | VDate d => d
  | _ => Date_of_object v
  end.

(** A time stamp that [toISOString] and [new Date] carry through JSON. *)
Definition survives (v : value) : bool :=
  match v with
  | VDate (ValidDate ms) => bool_decide (Date_parse (toISOString ms) = ValidDate ms)
  | _ => false
  end.
End WithPlatform.

(** [!v] *)
Definition falsy (v : value) : bool :=
  match v with
  | VUndefined | VNull | VBool false | VNumber 0 | VNaN | VString EmptyString => true
  | _ => false
  end.

(** The values that [JSON.stringify] writes as they are, so that
    [JSON.parse] gives them back: no [undefined], [NaN], [Date], [Set] or
    [Map] anywhere inside. *)
Fixpoint plain (v : value) : bool :=
  match v with
  | VNull | VBool _ | VNumber _ | VString _ => true
  | VArray items => forallb plain items
  | VObject props => forallb (λ kv, plain kv.2) props
  | _ => false
  end.

(** An object whose properties [keys] are time stamps that survive JSON,
    and whose other properties are plain. *)
Definition stamped `{Platform} (keys : list string) (v : value) : bool :=
  match v with
  | VObject props =>
      bool_decide (NoDup props.*1)
      && forallb (λ k, from_option survives false (map_get k props)) keys
      && forallb (λ kv, bool_decide (kv.1 ∈ keys) || plain kv.2) props
  | _ => false
  end.

(** [v.k] for a property name [k] that no prototype defines: reading a
    property of [undefined] or [null] throws, an object answers with its
    own property, every other value with [undefined]. *)
Definition get_prop (v : value) (k : string) : Completion value :=
  match v with
  | VUndefined | VNull =>
      Throw ("TypeError: Cannot read properties of " +:+
             (if v is VNull then "null" else "undefined") +:+
             " (reading '" +:+ k +:+ "')")
  | VObject props => Normal (default VUndefined (map_get k props))
  | _ => Normal VUndefined
  end.

(** The own enumerable properties an object spread [{...v}] copies. *)
Definition spread (v : value) : list (string * value) :=
  match v with
  | VObject props => props
  | VArray items => imap (λ i x, (pretty i, x)) items
  | VString s => imap (λ i c, (pretty i, VString (String c EmptyString))) (Stdlib.Strings.String.list_ascii_of_string s)
  | _ => []
  end.

(** [{...base, k1: v1, ..., kn: vn}]: a later property overwrites an
    earlier one of the same name and keeps its place. *)
Definition with_props (base : list (string * value)) (more : list (string * value))
  : list (string * value) :=
  foldl (λ acc kv, map_set kv.1 kv.2 acc) base more.

(** [a.map(f)]: only an array has the method. *)
Definition array_map (a : value) (f : value → Completion value) : Completion value :=
  match a with
  | VArray items => cbind (cmapM f items) (λ l, Normal (VArray l))
  | VUndefined | VNull => Throw "TypeError: Cannot read properties of undefined (reading 'map')"
  | _ => Throw "TypeError: map is not a function"
  end.

(** [ToString] of a value [JSON.parse] produced, as a template literal
    applies it. *)
Fixpoint ToString_json (j : json) : string :=
  match j with
  | JNull => "null"
  | JBool b => if b then "true" else "false"
  | JNumber n => pretty n
  | JString s => s
  | JArray items =>
      Stdlib.Strings.String.concat ","
        (List.map (λ x, match x with JNull => EmptyString | _ => ToString_json x end) items)
  | JObject _ => "[object Object]"
  end.

Definition opt_string (o : option string) : value :=
  match o with
  | Some s => VString s
  | None => VNull
  end.

End JS.

(** ** The adapter contract ([lib/adapters/types.ts]) *)

(** [DataState], the payload.  The synchronisation engine reads [data],
    [fileName], [labels], [rules] and [actionHistory]; the remaining
    properties ([validationReport], [recommendations], [rulePreview], ...) travel
    with the payload untouched and are kept as they are. *)
Module DataState.
Record t : Type := mk {
  data : option (list JS.value);
  fileName : option string;
  labels : list JS.value;
  rules : list JS.value;
  actionHistory : list JS.value;
  others : list (string * JS.value);
}.

(** The payload as the object the JavaScript code holds. *)
Definition to_value (d : t) : JS.value :=
  JS.VObject
    ([("data", match data d with Some rows => JS.VArray rows | None => JS.VNull end);
      ("fileName", JS.opt_string (fileName d));
      ("labels", JS.VArray (labels d));
      ("rules", JS.VArray (rules d));
      ("actionHistory", JS.VArray (actionHistory d))]
     ++ others d).

(** [dataState.data?.length || 0] *)
Definition rowCount (d : t) : Z :=
  JS.num_or (Z.of_nat ∘ length <$> data d) 0.
(** [dataState.labels.length] *)
Definition labelCount (d : t) : Z := Z.of_nat (length (labels d)).
(** [dataState.rules.length] *)
Definition ruleCount (d : t) : Z := Z.of_nat (length (rules d)).
End DataState.

(** The [type] argument of [saveState]: ['data' | 'labels' | 'rules']. *)
Inductive SaveType : Type := SaveData | SaveLabels | SaveRules.

Inductive StorageType : Type := StorageLocal | StorageBackend | StorageHybrid.
Inductive SyncStatus : Type := Synced | Pending | Conflict | Error.

Module SessionMetadata.
Record t : Type := mk {
  sessionId : string;
  fileName : option string;
  lastModified : JS.Date;
  rowCount : Z;
  labelCount : Z;
  ruleCount : Z;
  storageType : StorageType;
  syncStatus : option SyncStatus;
  lastSyncedAt : option JS.Date;
  version : option string;
}.

Definition storageType_string (x : StorageType) : string :=
  match x with
  | StorageLocal => "local"
  | StorageBackend => "backend"
  | StorageHybrid => "hybrid"
  end.

Definition syncStatus_string (x : SyncStatus) : string :=
  match x with
  | Synced => "synced"
  | Pending => "pending"
  | Conflict => "conflict"
  | Error => "error"
  end.

Definition optional {A} (k : string) (f : A → JS.value) (o : option A)
  : list (string * JS.value) :=
  match o with
  | Some x => [(k, f x)]
  | None => []
  end.

(** The metadata as the object literal the adapters build. *)
Definition to_value (m : t) : JS.value :=
  JS.VObject
    ([("sessionId", JS.VString (sessionId m));
      ("fileName", JS.opt_string (fileName m));
      ("lastModified", JS.VDate (lastModified m));
      ("rowCount", JS.VNumber (rowCount m));
      ("labelCount", JS.VNumber (labelCount m));
      ("ruleCount", JS.VNumber (ruleCount m));
      ("storageType", JS.VString (storageType_string (storageType m)))]
     ++ optional "syncStatus" (JS.VString ∘ syncStatus_string) (syncStatus m)
     ++ optional "lastSyncedAt" JS.VDate (lastSyncedAt m)
     ++ optional "version" JS.VString (version m)).
End SessionMetadata.

Module PersistedState.
Record t : Type := mk {
  sessionId : string;
  dataState : DataState.t;
  activeTab : string;
  metadata : SessionMetadata.t;
  createdAt : JS.Date;
  updatedAt : JS.Date;
}.

Definition to_value (p : t) : JS.value :=
  JS.VObject
    [("sessionId", JS.VString (sessionId p));
     ("dataState", DataState.to_value (dataState p));
     ("activeTab", JS.VString (activeTab p));
     ("metadata", SessionMetadata.to_value (metadata p));
     ("createdAt", JS.VDate (createdAt p));
     ("updatedAt", JS.VDate (updatedAt p))].
End PersistedState.

Module SyncResult.
Record t : Type := mk {
  success : bool;
  sessionId : string;
  timestamp : JS.Date;
  error : option string;
  metadata : option SessionMetadata.t;
}.
End SyncResult.

(** [StateAdapter]: the operations every storage back end implements.  [W] is
    the world the adapter acts on (the browser store, the remote service, the
    clock); a method maps the world before the call to its result and the
    world after it. *)
Module StateAdapter.
Record t (W : Type) : Type := mk {
  name : string;
  priority : Z;
  saveState : string → DataState.t → string → SaveType → W → SyncResult.t * W;
  loadState : string → W → option PersistedState.t * W;
  deleteSession : string → W → SyncResult.t * W;
  listSessions : W → list SessionMetadata.t * W;
  hasSession : string → W → bool * W;
  getActiveSessionId : W → option string * W;
  setActiveSessionId : string → W → unit * W;
  clearActiveSessionId : W → unit * W;
  clearAll : W → SyncResult.t * W;
  healthCheck : W → bool * W;
}.
Arguments name {W}. Arguments priority {W}. Arguments saveState {W}.
Arguments loadState {W}. Arguments deleteSession {W}. Arguments listSessions {W}.
Arguments hasSession {W}. Arguments getActiveSessionId {W}.
Arguments setActiveSessionId {W}. Arguments clearActiveSessionId {W}.
Arguments clearAll {W}. Arguments healthCheck {W}.
End StateAdapter.

(** [SyncConfig].  A strategy or conflict policy is a string at run time; the
    recognised values are the members of the TypeScript unions. *)
Module SyncConfig.
Record t : Type := mk {
  strategy : string;
  conflictResolution : string;
  autoSync : bool;
  syncInterval : option Z;
  retryAttempts : Z;
  retryDelay : Z;
}.
End SyncConfig.

Definition recognised_strategies : list string :=
  ["local-first"; "backend-first"; "hybrid"; "local-only"; "backend-only"].

Definition recognised_conflict_resolutions : list string :=
  ["local-wins"; "backend-wins"; "latest-wins"; "merge"].

(** ** A state monad for the asynchronous methods *)

Definition M (S A : Type) : Type := S → A * S.

Definition ret {S A} (a : A) : M S A := λ s, (a, s).

Definition bind {S A B} (m : M S A) (k : A → M S B) : M S B :=
  λ s, let '(a, s') := m s in k a s'.

Notation "x <~ m ;; k" := (bind m (λ x, k))
  (at level 100, m at next level, right associativity).
Notation "m ;;; k" := (bind m (λ _, k))
  (at level 100, right associativity).

Notation "x <-? c ;; k" := (JS.cbind c (λ x, k))
  (at level 100, c at next level, right associativity).

Definition get {S} : M S S := λ s, (s, s).
Definition modify {S} (f : S → S) : M S unit := λ s, (tt, f s).

(** ** The orchestrator (class [StateSync] of [lib/statePersistence.ts]) *)

Module StateSync.

(** [StateSyncConfig]: the constructor argument, [Partial<SyncConfig>] plus
    the adapters. *)
Record StateSyncConfig (W : Type) : Type := mkConfig {
  cfg_adapters : list (StateAdapter.t W);
  cfg_primaryAdapter : option string;
  cfg_strategy : option string;
  cfg_conflictResolution : option string;
  cfg_autoSync : option bool;
  cfg_syncInterval : option Z;
  cfg_retryAttempts : option Z;
  cfg_retryDelay : option Z;
}.
Arguments mkConfig {W}. Arguments cfg_adapters {W}. Arguments cfg_primaryAdapter {W}.
Arguments cfg_strategy {W}. Arguments cfg_conflictResolution {W}.
Arguments cfg_autoSync {W}. Arguments cfg_syncInterval {W}.
Arguments cfg_retryAttempts {W}. Arguments cfg_retryDelay {W}.

(** The fields of a [StateSync] object.  [syncTimer] holds the interval of
    the running timer, if any. *)
Record t (W : Type) : Type := mk {
  adapters : list (string * StateAdapter.t W);
  config : SyncConfig.t;
  syncTimer : option Z;
  pendingSyncs : list (string * PersistedState.t);
}.
Arguments mk {W}. Arguments adapters {W}. Arguments config {W}.
Arguments syncTimer {W}. Arguments pendingSyncs {W}.

Section WithWorld.
Context {W : Type}.
(** [Date.now()] read off the world *)
Variable now : W → Z.
(** the passing of [ms] milliseconds *)
Variable delay : Z → W → W.

(** The state an operation runs in: the object and the world. *)
Definition Sys : Type := t W * W.

Definition this : M Sys (t W) := λ s, (s.1, s).
Definition new_Date_now : M Sys JS.Date := λ s, (JS.ValidDate (now s.2), s).
(** An [await]ed adapter call. *)
Definition call {A} (f : W → A * W) : M Sys A :=
  λ s, let '(a, w) := f s.2 in (a, (s.1, w)).
Definition set_pendingSyncs (f : list (string * PersistedState.t) → list (string * PersistedState.t))
  : M Sys unit :=
  modify (λ s : Sys, (mk (adapters s.1) (config s.1) (syncTimer s.1) (f (pendingSyncs s.1)), s.2)).
Definition set_syncTimer (v : option Z) : M Sys unit :=
  modify (λ s : Sys, (mk (adapters s.1) (config s.1) v (pendingSyncs s.1), s.2)).

(** [stopAutoSync] and [startAutoSync] act on the object alone. *)
Definition stopAutoSync_obj (o : t W) : t W :=
  if syncTimer o is Some _
  then mk (adapters o) (config o) None (pendingSyncs o)
  else o.

Definition startAutoSync_obj (o : t W) : t W :=
  let o := stopAutoSync_obj o in
  match SyncConfig.syncInterval (config o) with
  | Some i =>
      if decide (i = 0) then o
      else mk (adapters o) (config o) (Some i) (pendingSyncs o)
  | None => o
  end.

Definition stopAutoSync : M Sys unit := modify (λ s : Sys, (stopAutoSync_obj s.1, s.2)).
Definition startAutoSync : M Sys unit := modify (λ s : Sys, (startAutoSync_obj s.1, s.2)).

(** [new StateSync(config)].  The body has no [throw]: every value of
    [config.strategy] is stored as it is. *)
Definition constructor (cfg : StateSyncConfig W) : JS.Completion (t W) :=
  let adapters :=
    foldl (λ m a, JS.map_set (StateAdapter.name a) a m) [] (cfg_adapters cfg) in
  let config :=
    SyncConfig.mk
      (JS.str_or (cfg_strategy cfg) "local-first")
      (JS.str_or (cfg_conflictResolution cfg) "latest-wins")
      (default true (cfg_autoSync cfg))
      (Some (JS.num_or (cfg_syncInterval cfg) 30000))
      (JS.num_or (cfg_retryAttempts cfg) 3)
      (JS.num_or (cfg_retryDelay cfg) 5000) in
  let o := mk adapters config None [] in
  JS.Normal
    (if SyncConfig.autoSync config && bool_decide (JS.num_or (SyncConfig.syncInterval config) 0 ≠ 0)
     then startAutoSync_obj o
     else o).

(** [adapters.sort((a, b) => b.priority - a.priority)] *)
Definition by_priority_desc (a b : StateAdapter.t W) : option Z :=
  Some (StateAdapter.priority b - StateAdapter.priority a).
(** [adapters.sort((a, b) => a.priority - b.priority)] *)
Definition by_priority_asc (a b : StateAdapter.t W) : option Z :=
  Some (StateAdapter.priority a - StateAdapter.priority b).

Definition getAdaptersByStrategy (o : t W) : list (StateAdapter.t W) :=
  let adapters := JS.map_values (adapters o) in
  let strategy := SyncConfig.strategy (config o) in
  if decide (strategy = "backend-first") then JS.sort by_priority_desc adapters
  else if decide (strategy = "local-first") then JS.sort by_priority_asc adapters
  else if decide (strategy = "backend-only")
    then filter (λ a, StateAdapter.name a = "backend") adapters
  else if decide (strategy = "local-only")
    then filter (λ a, StateAdapter.name a = "localStorage") adapters
  else (* 'hybrid' and default *) JS.sort by_priority_desc adapters.

Definition getPrimaryAdapter (o : t W) : option (StateAdapter.t W) :=
  head (getAdaptersByStrategy o).

(** The [while (attempts < retryAttempts)] loop of [saveToAdapter], by
    the number of iterations left. *)
Fixpoint saveToAdapter_loop (left : nat) (lastError : option string)
    (retryDelay : Z) (adapter : StateAdapter.t W)
    (sessionId : string) (dataState : DataState.t) (activeTab : string) (type : SaveType)
  : M Sys SyncResult.t :=
  match left with
  | O =>
      d <~ new_Date_now ;;
      ret (SyncResult.mk false sessionId d
             (Some (JS.str_or lastError "Max retry attempts reached")) None)
  | S left' =>
      result <~ call (StateAdapter.saveState adapter sessionId dataState activeTab type) ;;
      if SyncResult.success result then ret result
      else
        (if left' is O then ret tt else call (λ w, (tt, delay retryDelay w))) ;;;
        saveToAdapter_loop left' (SyncResult.error result) retryDelay adapter
          sessionId dataState activeTab type
  end.

Definition saveToAdapter (adapter : StateAdapter.t W)
    (sessionId : string) (dataState : DataState.t) (activeTab : string) (type : SaveType)
  : M Sys SyncResult.t :=
  o <~ this ;;
  saveToAdapter_loop (Z.to_nat (SyncConfig.retryAttempts (config o))) None
    (SyncConfig.retryDelay (config o)) adapter sessionId dataState activeTab type.

(** [queueBackendSync].  The promise of the background push is taken to
    settle before the caller's next adapter call; its [then] callback is
    the last step. *)
Definition queueBackendSync
    (sessionId : string) (dataState : DataState.t) (activeTab : string) (type : SaveType)
  : M Sys unit :=
  o <~ this ;;
  match JS.map_get "backend" (adapters o) with
  | None => ret tt
  | Some backend =>
      d <~ new_Date_now ;;
      let metadata :=
        SessionMetadata.mk sessionId (DataState.fileName dataState) d
          (DataState.rowCount dataState) (DataState.labelCount dataState)
          (DataState.ruleCount dataState) StorageHybrid (Some Pending) None (Some "1.0.0") in
      set_pendingSyncs
        (JS.map_set sessionId (PersistedState.mk sessionId dataState activeTab metadata d d)) ;;;
      result <~ call (StateAdapter.saveState backend sessionId dataState activeTab type) ;;
      if SyncResult.success result
      then set_pendingSyncs (JS.map_delete sessionId)
      else ret tt
  end.

(** The [for] loop of [saveState]; [results] is the array built so far. *)
Fixpoint saveState_loop (todo : list (StateAdapter.t W)) (results : list SyncResult.t)
    (sessionId : string) (dataState : DataState.t) (activeTab : string) (type : SaveType)
  : M Sys (list SyncResult.t) :=
  match todo with
  | [] => ret results
  | adapter :: todo' =>
      result <~ saveToAdapter adapter sessionId dataState activeTab type ;;
      let results := results ++ [result] in
      o <~ this ;;
      let strategy := SyncConfig.strategy (config o) in
      if bool_decide (strategy = "backend-first")
         && bool_decide (StateAdapter.name adapter = "backend")
         && SyncResult.success result
      then ret results
      else
        (if bool_decide (strategy = "local-first")
            && bool_decide (StateAdapter.name adapter = "localStorage")
            && SyncResult.success result
         then queueBackendSync sessionId dataState activeTab type
         else ret tt) ;;;
        saveState_loop todo' results sessionId dataState activeTab type
  end.

(** [results.find(r => r.success) || results[0]]; [None] is [undefined]. *)
Definition primaryResult (results : list SyncResult.t) : option SyncResult.t :=
  match find SyncResult.success results with
  | Some r => Some r
  | None => head results
  end.

Definition saveState
    (sessionId : string) (dataState : DataState.t) (activeTab : string) (type : SaveType)
  : M Sys (option SyncResult.t) :=
  o <~ this ;;
  results <~ saveState_loop (getAdaptersByStrategy o) [] sessionId dataState activeTab type ;;
  ret (primaryResult results).

(** The [for] loop of [loadState]; [states] is the array built so far. *)
Fixpoint loadState_loop (todo : list (StateAdapter.t W))
    (states : list (string * PersistedState.t)) (sessionId : string)
  : M Sys (list (string * PersistedState.t)) :=
  match todo with
  | [] => ret states
  | adapter :: todo' =>
      state <~ call (StateAdapter.loadState adapter sessionId) ;;
      loadState_loop todo'
        (match state with
         | Some st => states ++ [(StateAdapter.name adapter, st)]
         | None => states
         end) sessionId
  end.

(** The callback of the [reduce] that looks for the most recent state. *)
Definition later {A} (updatedAt : A → JS.Date) (prev curr : A) : A :=
  if JS.date_gt (updatedAt curr) (updatedAt prev) then curr else prev.

(** [resolveConflict].  The [switch] sends ['merge'] to its own clause and
    every value without a clause to ['latest-wins'].  [None] is the
    [TypeError] on an empty array. *)
Definition resolveConflict (o : t W) (states : list (string * PersistedState.t))
  : option PersistedState.t :=
  let policy := SyncConfig.conflictResolution (config o) in
  if decide (policy = "backend-wins") then
    match find (λ s, bool_decide (s.1 = "backend")) states with
    | Some s => Some s.2
    | None => snd <$> head states
    end
  else if decide (policy = "local-wins") then
    match find (λ s, bool_decide (s.1 = "localStorage")) states with
    | Some s => Some s.2
    | None => snd <$> head states
    end
  else if decide (policy = "merge") then snd <$> head states
  else snd <$> JS.reduce (later (λ s, PersistedState.updatedAt s.2)) states.

Definition loadState (sessionId : string) : M Sys (option PersistedState.t) :=
  o <~ this ;;
  states <~ loadState_loop (getAdaptersByStrategy o) [] sessionId ;;
  match states with
  | [] => ret None
  | [s] => ret (Some s.2)
  | _ => ret (resolveConflict o states)
  end.

Fixpoint deleteSession_loop (todo : list (StateAdapter.t W)) (results : list SyncResult.t)
    (sessionId : string) : M Sys (list SyncResult.t) :=
  match todo with
  | [] => ret results
  | adapter :: todo' =>
      result <~ call (StateAdapter.deleteSession adapter sessionId) ;;
      deleteSession_loop todo' (results ++ [result]) sessionId
  end.

Definition deleteSession (sessionId : string) : M Sys SyncResult.t :=
  o <~ this ;;
  results <~ deleteSession_loop (JS.map_values (adapters o)) [] sessionId ;;
  let success := existsb SyncResult.success results in
  d <~ new_Date_now ;;
  ret (SyncResult.mk success sessionId d
         (if success then None else Some "Failed to delete from all adapters") None).

(** The inner loop of [listSessions]: a session replaces the one already
    in the map only if it was modified later. *)
Definition merge_sessions (allSessions : list (string * SessionMetadata.t))
    (sessions : list SessionMetadata.t) : list (string * SessionMetadata.t) :=
  foldl
    (λ all session,
       match JS.map_get (SessionMetadata.sessionId session) all with
       | Some existing =>
           if JS.date_gt (SessionMetadata.lastModified session)
                (SessionMetadata.lastModified existing)
           then JS.map_set (SessionMetadata.sessionId session) session all
           else all
       | None => JS.map_set (SessionMetadata.sessionId session) session all
       end)
    allSessions sessions.

Fixpoint listSessions_loop (todo : list (StateAdapter.t W))
    (allSessions : list (string * SessionMetadata.t))
  : M Sys (list (string * SessionMetadata.t)) :=
  match todo with
  | [] => ret allSessions
  | adapter :: todo' =>
      sessions <~ call (StateAdapter.listSessions adapter) ;;
      listSessions_loop todo' (merge_sessions allSessions sessions)
  end.

(** [(a, b) => b.lastModified.getTime() - a.lastModified.getTime()] *)
Definition by_lastModified_desc (a b : SessionMetadata.t) : option Z :=
  JS.num_sub (JS.getTime (SessionMetadata.lastModified b))
             (JS.getTime (SessionMetadata.lastModified a)).

Definition listSessions : M Sys (list SessionMetadata.t) :=
  o <~ this ;;
  allSessions <~ listSessions_loop (JS.map_values (adapters o)) [] ;;
  ret (JS.sort by_lastModified_desc (JS.map_values allSessions)).

Fixpoint hasSession_loop (todo : list (StateAdapter.t W)) (sessionId : string)
  : M Sys bool :=
  match todo with
  | [] => ret false
  | adapter :: todo' =>
      found <~ call (StateAdapter.hasSession adapter sessionId) ;;
      if found : bool then ret true else hasSession_loop todo' sessionId
  end.

Definition hasSession (sessionId : string) : M Sys bool :=
  o <~ this ;;
  hasSession_loop (JS.map_values (adapters o)) sessionId.

(** [getActiveSessionId]: without any adapter, [primary] is [undefined]
    and the call on it throws. *)
Definition getActiveSessionId : M Sys (JS.Completion (option string)) :=
  o <~ this ;;
  match getPrimaryAdapter o with
  | Some primary =>
      r <~ call (StateAdapter.getActiveSessionId primary) ;;
      ret (JS.Normal r)
  | None =>
      ret (JS.Throw "TypeError: Cannot read properties of undefined (reading 'getActiveSessionId')")
  end.

Fixpoint for_each (todo : list (StateAdapter.t W)) (f : StateAdapter.t W → W → unit * W)
  : M Sys unit :=
  match todo with
  | [] => ret tt
  | adapter :: todo' => call (f adapter) ;;; for_each todo' f
  end.

Definition setActiveSessionId (sessionId : string) : M Sys unit :=
  o <~ this ;;
  for_each (JS.map_values (adapters o)) (λ a, StateAdapter.setActiveSessionId a sessionId).

Definition clearActiveSessionId : M Sys unit :=
  o <~ this ;;
  for_each (JS.map_values (adapters o)) StateAdapter.clearActiveSessionId.

Fixpoint clearAll_loop (todo : list (StateAdapter.t W)) (results : list SyncResult.t)
  : M Sys (list SyncResult.t) :=
  match todo with
  | [] => ret results
  | adapter :: todo' =>
      result <~ call (StateAdapter.clearAll adapter) ;;
      clearAll_loop todo' (results ++ [result])
  end.

Definition clearAll : M Sys SyncResult.t :=
  o <~ this ;;
  results <~ clearAll_loop (JS.map_values (adapters o)) [] ;;
  d <~ new_Date_now ;;
  ret (SyncResult.mk (forallb SyncResult.success results) "all" d None None).

(** The first loop of [syncSession] and of [getSyncStatus]: the state each
    adapter holds. *)
Fixpoint collect_states (todo : list (StateAdapter.t W)) (sessionId : string)
  : M Sys (list (StateAdapter.t W * option PersistedState.t)) :=
  match todo with
  | [] => ret []
  | adapter :: todo' =>
      state <~ call (StateAdapter.loadState adapter sessionId) ;;
      rest <~ collect_states todo' sessionId ;;
      ret ((adapter, state) :: rest)
  end.

Definition found_states (l : list (StateAdapter.t W * option PersistedState.t))
  : list (StateAdapter.t W * PersistedState.t) :=
  omap (λ p, match p.2 with Some st => Some (p.1, st) | None => None end) l.

Fixpoint syncSession_push (todo : list (StateAdapter.t W))
    (latest : StateAdapter.t W * PersistedState.t) (sessionId : string) : M Sys unit :=
  match todo with
  | [] => ret tt
  | adapter :: todo' =>
      (if bool_decide (StateAdapter.name adapter ≠ StateAdapter.name latest.1)
       then
         call (StateAdapter.saveState adapter sessionId
                 (PersistedState.dataState latest.2)
                 (PersistedState.activeTab latest.2) SaveData) ;;; ret tt
       else ret tt) ;;;
      syncSession_push todo' latest sessionId
  end.

Definition syncSession (sessionId : string) : M Sys unit :=
  o <~ this ;;
  collected <~ collect_states (JS.map_values (adapters o)) sessionId ;;
  match JS.reduce (later (λ s, PersistedState.updatedAt s.2)) (found_states collected) with
  | None => ret tt
  | Some latest => syncSession_push (JS.map_values (adapters o)) latest sessionId
  end.

Fixpoint syncNow_loop (sessions : list SessionMetadata.t) : M Sys unit :=
  match sessions with
  | [] => ret tt
  | session :: sessions' =>
      syncSession (SessionMetadata.sessionId session) ;;; syncNow_loop sessions'
  end.

Definition syncNow : M Sys unit :=
  sessions <~ listSessions ;;
  syncNow_loop sessions.

(** One entry of the [adapters] array [getSyncStatus] reports. *)
Record AdapterStatus : Type := mkStatus {
  st_name : string;
  st_synced : bool;
  st_lastSync : option JS.Date;
}.

Definition getSyncStatus (sessionId : string) : M Sys (list AdapterStatus * bool) :=
  o <~ this ;;
  collected <~ collect_states (JS.map_values (adapters o)) sessionId ;;
  let statuses :=
    (λ p : StateAdapter.t W * option PersistedState.t,
       match p.2 with
       | Some st =>
           mkStatus (StateAdapter.name p.1) true
             (SessionMetadata.lastSyncedAt (PersistedState.metadata st))
       | None => mkStatus (StateAdapter.name p.1) false None
       end) <$> collected in
  let latestTimestamp : option JS.Date :=
    foldl
      (λ latest (p : StateAdapter.t W * PersistedState.t),
         match latest with
         | Some l =>
             if JS.date_gt (PersistedState.updatedAt p.2) l
             then Some (PersistedState.updatedAt p.2) else latest
         | None => Some (PersistedState.updatedAt p.2)
         end)
      None (found_states collected) in
  let needsSync :=
    existsb
      (λ a, if negb (st_synced a) then true
            else match st_lastSync a, latestTimestamp with
                 | Some ls, Some l => JS.date_lt ls l
                 | _, _ => true
                 end)
      statuses in
  ret (statuses, needsSync).

Fixpoint healthCheck_loop (todo : list (string * StateAdapter.t W))
    (health : list (string * bool)) : M Sys (list (string * bool)) :=
  match todo with
  | [] => ret health
  | (name, adapter) :: todo' =>
      isHealthy <~ call (StateAdapter.healthCheck adapter) ;;
      healthCheck_loop todo' (JS.map_set name isHealthy health)
  end.

Definition healthCheck : M Sys (list (string * bool)) :=
  o <~ this ;;
  healthCheck_loop (adapters o) [].

(** The loop of [syncPendingChanges] over the snapshot
    [Array.from(this.pendingSyncs.entries())]. *)
Fixpoint syncPendingChanges_loop (backend : StateAdapter.t W)
    (entries : list (string * PersistedState.t)) : M Sys unit :=
  match entries with
  | [] => ret tt
  | (sessionId, state) :: entries' =>
      result <~ call (StateAdapter.saveState backend sessionId
                        (PersistedState.dataState state)
                        (PersistedState.activeTab state) SaveData) ;;
      (if SyncResult.success result
       then set_pendingSyncs (JS.map_delete sessionId)
       else ret tt) ;;;
      syncPendingChanges_loop backend entries'
  end.

Definition syncPendingChanges : M Sys unit :=
  o <~ this ;;
  match JS.map_get "backend" (adapters o) with
  | None => ret tt
  | Some backend => syncPendingChanges_loop backend (pendingSyncs o)
  end.

(** *** The orchestrator as a transition system

    Everything that can happen to a [StateSync] object: a call of one of
    its public methods, or a tick of the timer [startAutoSync] installs
    (which runs [syncPendingChanges], and only while the timer is set). *)
Inductive Op : Type :=
| OpSaveState (sessionId : string) (dataState : DataState.t) (activeTab : string) (type : SaveType)
| OpLoadState (sessionId : string)
| OpDeleteSession (sessionId : string)
| OpListSessions
| OpHasSession (sessionId : string)
| OpGetActiveSessionId
| OpSetActiveSessionId (sessionId : string)
| OpClearActiveSessionId
| OpClearAll
| OpSyncNow
| OpGetSyncStatus (sessionId : string)
| OpHealthCheck
| OpStopAutoSync
| OpStartAutoSync
| OpTimerTick.

Definition exec (op : Op) : M Sys unit :=
  match op with
  | OpSaveState sessionId dataState activeTab type =>
      saveState sessionId dataState activeTab type ;;; ret tt
  | OpLoadState sessionId => loadState sessionId ;;; ret tt
  | OpDeleteSession sessionId => deleteSession sessionId ;;; ret tt
  | OpListSessions => listSessions ;;; ret tt
  | OpHasSession sessionId => hasSession sessionId ;;; ret tt
  | OpGetActiveSessionId => getActiveSessionId ;;; ret tt
  | OpSetActiveSessionId sessionId => setActiveSessionId sessionId
  | OpClearActiveSessionId => clearActiveSessionId
  | OpClearAll => clearAll ;;; ret tt
  | OpSyncNow => syncNow
  | OpGetSyncStatus sessionId => getSyncStatus sessionId ;;; ret tt
  | OpHealthCheck => healthCheck ;;; ret tt
  | OpStopAutoSync => stopAutoSync
  | OpStartAutoSync => startAutoSync
  | OpTimerTick =>
      o <~ this ;;
      if syncTimer o is Some _ then syncPendingChanges else ret tt
  end.

(** A run: the operations one after the other. *)
Fixpoint run (ops : list Op) (s : Sys) : Sys :=
  match ops with
  | [] => s
  | op :: ops' => run ops' (exec op s).2
  end.
End WithWorld.
End StateSync.

(** ** The on-device adapter ([LocalStorageAdapter], [unnamed/part_006]) *)

Module LocalStorageAdapter.

Definition STORAGE_PREFIX : string := "data-labeler".
Definition ACTIVE_SESSION_KEY : string := STORAGE_PREFIX +:+ ":active-session".
Definition SESSION_LIST_KEY : string := STORAGE_PREFIX +:+ ":sessions".

Definition name : string := "localStorage".
Definition priority : Z := 1.

(** The string a [localStorage] key holds: either a text as it was
    written, or the text [JSON.stringify] produced for a tree. *)
Inductive cell : Type :=
| Text (s : string)
| Json (j : JS.json).

(** What the browser decides: whether a store fits the quota, how a tree
    is spelled, and what [JSON.parse] makes of a text that did not come
    from [JSON.stringify]. *)
Class Browser : Type := {
  quota_ok : gmap string cell → bool;
  JSON_text : JS.json → string;
  JSON_parse_text : string → JS.Completion JS.json;
}.

Section WithPlatform.
Context `{JS.Platform} `{Browser}.

Definition cell_text (c : cell) : string :=
  match c with
  | Text s => s
  | Json j => JSON_text j
  end.

(** [JSON.parse(data)] *)
Definition JSON_parse (data : cell) : JS.Completion JS.json :=
  match data with
  | Text s => JSON_parse_text s
  | Json j => JS.Normal j
  end.

(** [JSON.stringify(v)] as the string handed to [setItem]. *)
Definition JSON_stringify_cell (v : JS.value) : cell :=
  match JS.JSON_stringify v with
  | Some j => Json j
  | None => Text "undefined"
  end.

(** *** [localStorage] *)

Definition getItem (k : string) (st : gmap string cell) : option cell := st !! k.

Definition setItem (k : string) (c : cell) (st : gmap string cell)
  : JS.Completion (gmap string cell) :=
  if quota_ok (<[k:=c]> st) then JS.Normal (<[k:=c]> st)
  else JS.Throw "QuotaExceededError".

Definition removeItem (k : string) (st : gmap string cell) : gmap string cell :=
  delete k st.

(** [!data] on what [getItem] returned: [null] and the empty string are
    falsy, and a JSON text has at least one character. *)
Definition no_data (data : option cell) : bool :=
  match data with
  | None => true
  | Some (Text s) => bool_decide (s = EmptyString)
  | Some (Json _) => false
  end.

(** *** Helper methods *)

Definition getSessionKey (sessionId : string) : string :=
  STORAGE_PREFIX +:+ ":session:" +:+ sessionId.

(** [getSessionList]: [data ? JSON.parse(data) : []] *)
Definition getSessionList (st : gmap string cell) : JS.Completion JS.json :=
  match getItem SESSION_LIST_KEY st with
  | Some data =>
      if no_data (Some data) then JS.Normal (JS.JArray []) else JSON_parse data
  | None => JS.Normal (JS.JArray [])
  end.

(** [id === sessionId] for an entry of the parsed list *)
Definition is_id (sessionId : string) (id : JS.json) : bool :=
  match id with
  | JS.JString s => bool_decide (s = sessionId)
  | _ => false
  end.

(** [sessionList.includes(sessionId)]: arrays and strings have the
    method. *)
Definition includes (sessionList : JS.json) (sessionId : string) : JS.Completion bool :=
  match sessionList with
  | JS.JArray items => JS.Normal (existsb (is_id sessionId) items)
  | JS.JString s =>
      JS.Normal (bool_decide (is_Some (Stdlib.Strings.String.index 0 sessionId s)))
  | JS.JNull => JS.Throw "TypeError: Cannot read properties of null (reading 'includes')"
  | _ => JS.Throw "TypeError: sessionList.includes is not a function"
  end.

(** [sessionList.push(sessionId)] *)
Definition push (sessionList : JS.json) (sessionId : string) : JS.Completion JS.json :=
  match sessionList with
  | JS.JArray items => JS.Normal (JS.JArray (items ++ [JS.JString sessionId]))
  | _ => JS.Throw "TypeError: sessionList.push is not a function"
  end.

(** [sessionList.filter(id => id !== sessionId)] *)
Definition without (sessionList : JS.json) (sessionId : string) : JS.Completion JS.json :=
  match sessionList with
  | JS.JArray items => JS.Normal (JS.JArray (List.filter (λ id, negb (is_id sessionId id)) items))
  | JS.JNull => JS.Throw "TypeError: Cannot read properties of null (reading 'filter')"
  | _ => JS.Throw "TypeError: sessionList.filter is not a function"
  end.

(** [for (const sessionId of sessionIds)]: arrays and strings are
    iterable. *)
Definition iterate (sessionIds : JS.json) : JS.Completion (list JS.json) :=
  match sessionIds with
  | JS.JArray items => JS.Normal items
  | JS.JString s =>
      JS.Normal ((λ c, JS.JString (String c EmptyString)) <$>
                 Stdlib.Strings.String.list_ascii_of_string s)
  | _ => JS.Throw "TypeError: sessionIds is not iterable"
  end.

Definition updateSessionList (sessionId : string) (st : gmap string cell)
  : JS.Completion (gmap string cell) :=
  sessionList <-? getSessionList st ;;
  present <-? includes sessionList sessionId ;;
  if present : bool then JS.Normal st
  else
    sessionList <-? push sessionList sessionId ;;
    setItem SESSION_LIST_KEY (Json sessionList) st.

(** *** The adapter's methods *)

Definition getActiveSessionId (st : gmap string cell) : option string :=
  cell_text <$> getItem ACTIVE_SESSION_KEY st.

Definition setActiveSessionId (sessionId : string) (st : gmap string cell)
  : JS.Completion (gmap string cell) :=
  setItem ACTIVE_SESSION_KEY (Text sessionId) st.

Definition clearActiveSessionId (st : gmap string cell) : gmap string cell :=
  removeItem ACTIVE_SESSION_KEY st.

Definition hasSession (sessionId : string) (st : gmap string cell) : bool :=
  bool_decide (is_Some (getItem (getSessionKey sessionId) st)).

(** [{...x, k1: new Date(x.k1), ..., kn: new Date(x.kn)}], as a property
    list *)
Definition revive_dates (keys : list string) (x : JS.value)
  : JS.Completion (list (string * JS.value)) :=
  dates <-? JS.cmapM (λ k, v <-? JS.get_prop x k ;;
                           JS.Normal (k, JS.VDate (JS.new_Date v))) keys ;;
  JS.Normal (JS.with_props (JS.spread x) dates).

(** The callback of a [map] that rebuilds the dates [keys] of each
    element. *)
Definition with_dates (keys : list string) (x : JS.value) : JS.Completion JS.value :=
  props <-? revive_dates keys x ;;
  JS.Normal (JS.VObject props).

(** The [metadata] property of the object [loadState] returns. *)
Definition revive_metadata (metadata : JS.value) : JS.Completion JS.value :=
  props <-? revive_dates ["lastModified"] metadata ;;
  lastSyncedAt <-? JS.get_prop metadata "lastSyncedAt" ;;
  JS.Normal (JS.VObject (JS.with_props props
    [("lastSyncedAt",
      if JS.falsy lastSyncedAt then JS.VUndefined
      else JS.VDate (JS.new_Date lastSyncedAt))])).

(** The [dataState] property of the object [loadState] returns. *)
Definition revive_dataState (dataState : JS.value) : JS.Completion JS.value :=
  labels <-? JS.get_prop dataState "labels" ;;
  labels <-? JS.array_map labels (with_dates ["createdAt"]) ;;
  rules <-? JS.get_prop dataState "rules" ;;
  rules <-? JS.array_map rules (with_dates ["createdAt"; "updatedAt"]) ;;
  actionHistory <-? JS.get_prop dataState "actionHistory" ;;
  actionHistory <-? JS.array_map actionHistory (with_dates ["timestamp"]) ;;
  JS.Normal (JS.VObject (JS.with_props (JS.spread dataState)
    [("labels", labels); ("rules", rules); ("actionHistory", actionHistory)])).

(** The object [loadState] returns for the parsed record:
    [{...parsed, createdAt, updatedAt, metadata: {...}, dataState: {...}}]. *)
Definition revive (parsed : JS.value) : JS.Completion JS.value :=
  props <-? revive_dates ["createdAt"; "updatedAt"] parsed ;;
  metadata <-? JS.get_prop parsed "metadata" ;;
  metadata <-? revive_metadata metadata ;;
  dataState <-? JS.get_prop parsed "dataState" ;;
  dataState <-? revive_dataState dataState ;;
  JS.Normal (JS.VObject (JS.with_props props
    [("metadata", metadata); ("dataState", dataState)])).

(** The payloads [revive] rebuilds as they were: the time stamps sit where
    [loadState] looks for them ([labels[i].createdAt],
    [rules[i].createdAt], [rules[i].updatedAt],
    [actionHistory[i].timestamp]) and everything else is plain JSON
    data. *)
Definition revivable (d : DataState.t) : bool :=
  forallb JS.plain (default [] (DataState.data d))
  && forallb (JS.stamped ["createdAt"]) (DataState.labels d)
  && forallb (JS.stamped ["createdAt"; "updatedAt"]) (DataState.rules d)
  && forallb (JS.stamped ["timestamp"]) (DataState.actionHistory d)
  && forallb (λ kv, JS.plain kv.2) (DataState.others d).

(** [loadState]: [null] when the key is absent or empty, and when
    anything inside the [try] throws. *)
Definition loadState (sessionId : string) (st : gmap string cell) : option JS.value :=
  let data := getItem (getSessionKey sessionId) st in
  match data with
  | None => None
  | Some c =>
      if no_data data then None
      else
        match parsed <-? JSON_parse c ;; revive (JS.of_json parsed) with
        | JS.Normal state => Some state
        | JS.Throw _ => None
        end
  end.

(** [existingState?.createdAt || now]; [loadState] always puts a [Date]
    (a truthy object) there. *)
Definition createdAt_or (existingState : option JS.value) (now : JS.Date) : JS.Date :=
  match existingState with
  | Some state =>
      match JS.get_prop state "createdAt" with
      | JS.Normal (JS.VDate d) => d
      | _ => now
      end
  | None => now
  end.

(** [saveState].  [now] is the clock at the call.  The three writes of the
    [try] block happen one after the other; an exception leaves the
    earlier ones in place. *)
Definition saveState (sessionId : string) (dataState : DataState.t) (activeTab : string)
    (type : SaveType) (now : Z) (st : gmap string cell)
  : SyncResult.t * gmap string cell :=
  let now := JS.ValidDate now in
  let existingState := loadState sessionId st in
  let metadata :=
    SessionMetadata.mk sessionId (DataState.fileName dataState) now
      (DataState.rowCount dataState) (DataState.labelCount dataState)
      (DataState.ruleCount dataState) StorageLocal (Some Synced) (Some now) (Some "1.0.0") in
  let persistedState :=
    PersistedState.mk sessionId dataState activeTab metadata
      (createdAt_or existingState now) now in
  let failed (e : string) (st : gmap string cell) :=
    (SyncResult.mk false sessionId now (Some e) None, st) in
  match setItem (getSessionKey sessionId)
          (JSON_stringify_cell (PersistedState.to_value persistedState)) st with
  | JS.Throw e => failed e st
  | JS.Normal st1 =>
      match updateSessionList sessionId st1 with
      | JS.Throw e => failed e st1
      | JS.Normal st2 =>
          match setActiveSessionId sessionId st2 with
          | JS.Throw e => failed e st2
          | JS.Normal st3 => (SyncResult.mk true sessionId now None (Some metadata), st3)
          end
      end
  end.

Definition deleteSession (sessionId : string) (now : Z) (st : gmap string cell)
  : SyncResult.t * gmap string cell :=
  let st1 := removeItem (getSessionKey sessionId) st in
  match sessionList <-? getSessionList st1 ;;
        updatedList <-? without sessionList sessionId ;;
        setItem SESSION_LIST_KEY (Json updatedList) st1 with
  | JS.Throw e => (SyncResult.mk false sessionId (JS.ValidDate now) (Some e) None, st1)
  | JS.Normal st2 =>
      let st3 :=
        if bool_decide (getActiveSessionId st2 = Some sessionId)
        then removeItem ACTIVE_SESSION_KEY st2
        else st2 in
      (SyncResult.mk true sessionId (JS.ValidDate now) None None, st3)
  end.

(** [m.lastModified.getTime()] on a listed metadata object *)
Definition lastModified_time (m : JS.value) : option Z :=
  match JS.get_prop m "lastModified" with
  | JS.Normal (JS.VDate d) => JS.getTime d
  | _ => None
  end.

(** [(a, b) => b.lastModified.getTime() - a.lastModified.getTime()] *)
Definition by_lastModified_desc (a b : JS.value) : option Z :=
  JS.num_sub (lastModified_time b) (lastModified_time a).

(** The states the loop of [listSessions] finds, in the order of the
    index. *)
Definition listed_states (sessionIds : list JS.json) (st : gmap string cell)
  : list JS.value :=
  omap (λ sessionId, loadState (JS.ToString_json sessionId) st) sessionIds.

Definition listSessions (st : gmap string cell) : list JS.value :=
  match sessionList <-? getSessionList st ;;
        sessionIds <-? iterate sessionList ;;
        JS.cmapM (λ state, JS.get_prop state "metadata") (listed_states sessionIds st) with
  | JS.Normal sessions => JS.sort by_lastModified_desc sessions
  | JS.Throw _ => []
  end.

Definition clearAll (now : Z) (st : gmap string cell) : SyncResult.t * gmap string cell :=
  match sessionList <-? getSessionList st ;; iterate sessionList with
  | JS.Throw e => (SyncResult.mk false "all" (JS.ValidDate now) (Some e) None, st)
  | JS.Normal sessionIds =>
      let st1 :=
        foldl (λ st sessionId, removeItem (getSessionKey (JS.ToString_json sessionId)) st)
          st sessionIds in
      (SyncResult.mk true "all" (JS.ValidDate now) None None,
       removeItem ACTIVE_SESSION_KEY (removeItem SESSION_LIST_KEY st1))
  end.

Definition healthCheck (now : Z) (st : gmap string cell) : bool * gmap string cell :=
  let testKey := STORAGE_PREFIX +:+ ":health-check" in
  let testValue := pretty now in
  match setItem testKey (Text testValue) st with
  | JS.Throw _ => (false, st)
  | JS.Normal st1 =>
      let retrieved := cell_text <$> getItem testKey st1 in
      (bool_decide (retrieved = Some testValue), removeItem testKey st1)
  end.
End WithPlatform.
End LocalStorageAdapter.

(** ** The HTTP client ([ApiClient], [unnamed/part_010]) *)

Module ApiClient.

Inductive Method : Type := GET | POST | PUT | DELETE.

(** [ApiResponse<T>]; [data] is the parsed body. *)
Record ApiResponse : Type := mk {
  data : option JS.json;
  error : option string;
  status : Z;
}.

(** What [fetch] can do: answer with a status and a body, be aborted by the
    timeout, or fail. *)
Inductive FetchOutcome : Type :=
| Responded (status : Z) (statusText : string) (bodyText : string) (bodyJson : JS.Completion JS.json)
| Aborted
| Failed (message : string)
| FailedWithNonError.

(** The network and the service behind it, in a state [S]. *)
Class Network (S : Type) : Type := {
  fetch : Method → string → option JS.json → S → FetchOutcome * S;
}.

Section WithNetwork.
Context `{JS.Platform} {S : Type} `{Network S}.

(** [request]: every outcome of [fetch] becomes an [ApiResponse]. *)
Definition request (baseUrl : string) (method : Method) (path : string)
    (body : option JS.value) (net : S) : ApiResponse * S :=
  let url := baseUrl +:+ path in
  let sent :=
    match body with
    | Some b => if JS.falsy b then None else JS.JSON_stringify b
    | None => None
    end in
  let '(outcome, net') := fetch method url sent net in
  (match outcome with
   | Responded status statusText bodyText bodyJson =>
       if bool_decide (200 ≤ status ≤ 299)
       then
         match bodyJson with
         | JS.Normal d => mk (Some d) None status
         | JS.Throw e => mk None (Some e) 0
         end
       else
         mk None
           (Some (if decide (bodyText = EmptyString)
                  then "HTTP " +:+ pretty status +:+ ": " +:+ statusText
                  else bodyText))
           status
   | Aborted => mk None (Some "Request timeout") 408
   | Failed message => mk None (Some message) 0
   | FailedWithNonError => mk None (Some "Unknown error occurred") 0
   end, net').

Definition get (baseUrl path : string) : S → ApiResponse * S :=
  request baseUrl GET path None.
Definition post (baseUrl path : string) (body : JS.value) : S → ApiResponse * S :=
  request baseUrl POST path (Some body).
Definition delete (baseUrl path : string) : S → ApiResponse * S :=
  request baseUrl DELETE path None.

Definition healthCheck (baseUrl : string) (net : S) : bool * S :=
  let '(response, net') := get baseUrl "/health" net in
  (bool_decide (status response = 200), net').
End WithNetwork.

(** [if (response.error)]: a non-empty string *)
Definition has_error (r : ApiResponse) : option string :=
  match error r with
  | Some e => if decide (e = EmptyString) then None else Some e
  | None => None
  end.

(** [response.data], [undefined] when absent *)
Definition data_value `{JS.Platform} (r : ApiResponse) : JS.value :=
  match data r with
  | Some d => JS.of_json d
  | None => JS.VUndefined
  end.
End ApiClient.

(** ** The remote adapter ([BackendAdapter], [unnamed/part_008]) *)

Module BackendAdapter.

Definition name : string := "backend".
Definition priority : Z := 10.

(** The adapter object: its client's base address and the [isOnline]
    flag. *)
Record t : Type := mk {
  baseUrl : string;
  isOnline : bool;
}.

Definition set_online (b : bool) (a : t) : t := mk (baseUrl a) b.

Definition saveType_string (type : SaveType) : string :=
  match type with
  | SaveData => "data"
  | SaveLabels => "labels"
  | SaveRules => "rules"
  end.

Section WithNetwork.
Context `{JS.Platform} {S : Type} `{ApiClient.Network S}.

(** The state a method runs in: the adapter object and the network. *)
Definition St : Type := t * S.

(** The [metadata] and the [payload] of [saveState]. *)
Definition metadata_of (sessionId : string) (dataState : DataState.t) (now : JS.Date)
  : SessionMetadata.t :=
  SessionMetadata.mk sessionId (DataState.fileName dataState) now
    (DataState.rowCount dataState) (DataState.labelCount dataState)
    (DataState.ruleCount dataState) StorageBackend (Some Synced) (Some now) (Some "1.0.0").

Definition payload (sessionId : string) (dataState : DataState.t) (activeTab : string)
    (type : SaveType) (now : JS.Date) : JS.value :=
  JS.VObject
    [("sessionId", JS.VString sessionId);
     ("dataState", DataState.to_value dataState);
     ("activeTab", JS.VString activeTab);
     ("metadata", SessionMetadata.to_value (metadata_of sessionId dataState now));
     ("type", JS.VString (saveType_string type))].

(** [saveState]: one [POST /sessions/{sessionId}], whose outcome decides
    the result and the [isOnline] flag. *)
Definition saveState (sessionId : string) (dataState : DataState.t) (activeTab : string)
    (type : SaveType) (now : Z) (s : St) : SyncResult.t * St :=
  let now := JS.ValidDate now in
  let '(response, net) :=
    ApiClient.post (baseUrl s.1) ("/sessions/" +:+ sessionId)
      (payload sessionId dataState activeTab type now) s.2 in
  match ApiClient.has_error response with
  | Some e => (SyncResult.mk false sessionId now (Some e) None, (set_online false s.1, net))
  | None =>
      (SyncResult.mk true sessionId now None (Some (metadata_of sessionId dataState now)),
       (set_online true s.1, net))
  end.

(** [loadState]; the object it builds is the one
    [LocalStorageAdapter.revive] builds, the two methods share the
    text (and so do the callback of [listSessions] and
    [LocalStorageAdapter.revive_metadata]). *)
Definition loadState (sessionId : string) (s : St) : option JS.value * St :=
  let '(response, net) := ApiClient.get (baseUrl s.1) ("/sessions/" +:+ sessionId) s.2 in
  if bool_decide (is_Some (ApiClient.has_error response))
     || JS.falsy (ApiClient.data_value response)
  then (None, (set_online (bool_decide (ApiClient.status response ≠ 0)) s.1, net))
  else
    match LocalStorageAdapter.revive (ApiClient.data_value response) with
    | JS.Normal state => (Some state, (set_online true s.1, net))
    | JS.Throw _ => (None, (set_online false s.1, net))
    end.

Definition deleteSession (sessionId : string) (now : Z) (s : St) : SyncResult.t * St :=
  let '(response, net) := ApiClient.delete (baseUrl s.1) ("/sessions/" +:+ sessionId) s.2 in
  match ApiClient.has_error response with
  | Some e =>
      (SyncResult.mk false sessionId (JS.ValidDate now) (Some e) None,
       (set_online false s.1, net))
  | None =>
      (SyncResult.mk true sessionId (JS.ValidDate now) None None,
       (set_online true s.1, net))
  end.

(** [listSessions]: the list the service sent, each entry with its dates
    rebuilt, in the order of the response. *)
Definition listSessions (s : St) : list JS.value * St :=
  let '(response, net) := ApiClient.get (baseUrl s.1) "/sessions" s.2 in
  if bool_decide (is_Some (ApiClient.has_error response))
     || JS.falsy (ApiClient.data_value response)
  then ([], (set_online (bool_decide (ApiClient.status response ≠ 0)) s.1, net))
  else
    match JS.array_map (ApiClient.data_value response)
            LocalStorageAdapter.revive_metadata with
    | JS.Normal (JS.VArray sessions) => (sessions, (set_online true s.1, net))
    | _ => ([], (set_online false s.1, net))
    end.

Definition hasSession (sessionId : string) (s : St) : bool * St :=
  let '(response, net) :=
    ApiClient.get (baseUrl s.1) ("/sessions/" +:+ sessionId +:+ "/exists") s.2 in
  (bool_decide (ApiClient.status response = 200),
   (set_online (bool_decide (ApiClient.status response ≠ 0)) s.1, net)).

(** [getActiveSessionId]: [response.data.sessionId], whatever the service
    put there. *)
Definition getActiveSessionId (s : St) : JS.value * St :=
  let '(response, net) := ApiClient.get (baseUrl s.1) "/sessions/active" s.2 in
  if bool_decide (is_Some (ApiClient.has_error response))
     || JS.falsy (ApiClient.data_value response)
  then (JS.VNull, (set_online (bool_decide (ApiClient.status response ≠ 0)) s.1, net))
  else
    match JS.get_prop (ApiClient.data_value response) "sessionId" with
    | JS.Normal v => (v, (set_online true s.1, net))
    | JS.Throw _ => (JS.VNull, (set_online false s.1, net))
    end.

Definition setActiveSessionId (sessionId : string) (s : St) : unit * St :=
  let '(_, net) :=
    ApiClient.post (baseUrl s.1) "/sessions/active"
      (JS.VObject [("sessionId", JS.VString sessionId)]) s.2 in
  (tt, (set_online true s.1, net)).

Definition clearActiveSessionId (s : St) : unit * St :=
  let '(_, net) := ApiClient.delete (baseUrl s.1) "/sessions/active" s.2 in
  (tt, (set_online true s.1, net)).

Definition clearAll (now : Z) (s : St) : SyncResult.t * St :=
  let '(response, net) := ApiClient.delete (baseUrl s.1) "/sessions" s.2 in
  match ApiClient.has_error response with
  | Some e =>
      (SyncResult.mk false "all" (JS.ValidDate now) (Some e) None, (set_online false s.1, net))
  | None =>
      (SyncResult.mk true "all" (JS.ValidDate now) None None, (set_online true s.1, net))
  end.

Definition healthCheck (s : St) : bool * St :=
  let '(isHealthy, net) := ApiClient.healthCheck (baseUrl s.1) s.2 in
  (isHealthy, (set_online isHealthy s.1, net)).
End WithNetwork.
End BackendAdapter.

(** ** A reference platform

    Concrete platform functions, for running the embedding on examples:
    ISO 8601 time stamps as [Date.prototype.toISOString] writes them and
    [Date.parse] must read them. *)

Module ISO8601.

(** Days since the epoch to the civil date [(year, month, day)]. *)
Definition civil_from_days (z : Z) : Z * Z * Z :=
  let z := z + 719468 in
  let era := z / 146097 in
  let doe := z - era * 146097 in
  let yoe := (doe - doe / 1460 + doe / 36524 - doe / 146096) / 365 in
  let y := yoe + era * 400 in
  let doy := doe - (365 * yoe + yoe / 4 - yoe / 100) in
  let mp := (5 * doy + 2) / 153 in
  let d := doy - (153 * mp + 2) / 5 + 1 in
  let m := if bool_decide (mp < 10) then mp + 3 else mp - 9 in
  (if bool_decide (m ≤ 2) then y + 1 else y, m, d).

(** The civil date to days since the epoch. *)
Definition days_from_civil (y m d : Z) : Z :=
  let y := if bool_decide (m ≤ 2) then y - 1 else y in
  let era := y / 400 in
  let yoe := y - era * 400 in
  let doy := (153 * (if bool_decide (2 < m) then m - 3 else m + 9) + 2) / 5 + d - 1 in
  let doe := yoe * 365 + yoe / 4 - yoe / 100 + doy in
  era * 146097 + doe - 719468.

Fixpoint zeros (n : nat) : string :=
  match n with
  | O => EmptyString
  | S n' => "0" +:+ zeros n'
  end.

(** [n] in decimal, at least [width] digits *)
Definition pad (width : nat) (n : Z) : string :=
  let s := pretty (Z.abs n) in
  zeros (width - String.length s) +:+ s.

(** [YYYY-MM-DDTHH:mm:ss.sssZ], with six signed year digits outside
    0000..9999 *)
Definition toISOString (ms : Z) : string :=
  let day := ms / 86400000 in
  let r := ms mod 86400000 in
  let '(y, m, d) := civil_from_days day in
  (if bool_decide (0 ≤ y ≤ 9999) then pad 4 y
   else (if bool_decide (y < 0) then "-" else "+") +:+ pad 6 y)
  +:+ "-" +:+ pad 2 m +:+ "-" +:+ pad 2 d
  +:+ "T" +:+ pad 2 (r / 3600000) +:+ ":" +:+ pad 2 (r / 60000 mod 60)
  +:+ ":" +:+ pad 2 (r / 1000 mod 60) +:+ "." +:+ pad 3 (r mod 1000) +:+ "Z".

Definition digit (c : ascii) : option Z :=
  let n := Z.of_nat (nat_of_ascii c) in
  if bool_decide (48 ≤ n ≤ 57) then Some (n - 48) else None.

Fixpoint number (acc : Z) (cs : list ascii) : option Z :=
  match cs with
  | [] => Some acc
  | c :: cs' => d ← digit c; number (10 * acc + d) cs'
  end.

Definition is_char (c : ascii) (expected : string) : bool :=
  bool_decide (String c EmptyString = expected).

(** Reads the 24 characters [toISOString] writes for a four-digit year;
    every other text is taken not to be a date. *)
Definition parse (s : string) : JS.Date :=
  match Stdlib.Strings.String.list_ascii_of_string s with
  | [y1; y2; y3; y4; c1; m1; m2; c2; d1; d2; c3; h1; h2; c4; n1; n2; c5; s1; s2; c6;
     f1; f2; f3; c7] =>
      if is_char c1 "-" && is_char c2 "-" && is_char c3 "T" && is_char c4 ":"
         && is_char c5 ":" && is_char c6 "." && is_char c7 "Z"
      then
        match number 0 [y1; y2; y3; y4], number 0 [m1; m2], number 0 [d1; d2],
              number 0 [h1; h2], number 0 [n1; n2], number 0 [s1; s2],
              number 0 [f1; f2; f3] with
        | Some y, Some m, Some d, Some h, Some n, Some sec, Some f =>
            if bool_decide (1 ≤ m ≤ 12) && bool_decide (1 ≤ d ≤ 31)
               && bool_decide (h ≤ 23) && bool_decide (n ≤ 59) && bool_decide (sec ≤ 59)
            then JS.ValidDate
                   (days_from_civil y m d * 86400000 + h * 3600000 + n * 60000
                    + sec * 1000 + f)
            else JS.InvalidDate
        | _, _, _, _, _, _, _ => JS.InvalidDate
        end
      else JS.InvalidDate
  | _ => JS.InvalidDate
  end.

Definition platform : JS.Platform :=
  {| JS.toISOString := toISOString;
     JS.Date_parse := parse;
     JS.Date_of_object := λ _, JS.InvalidDate |}.
End ISO8601.

(** The reference browser: a quota of five million characters, JSON texts
    without escapes, and no text in the store that is JSON unless
    [JSON.stringify] wrote it. *)
Module ReferenceBrowser.

Definition quote (s : string) : string :=
  String (ascii_of_nat 34) (s +:+ String (ascii_of_nat 34) EmptyString).

Fixpoint json_text (j : JS.json) : string :=
  match j with
  | JS.JNull => "null"
  | JS.JBool b => if b then "true" else "false"
  | JS.JNumber n => pretty n
  | JS.JString s => quote s
  | JS.JArray items =>
      "[" +:+ Stdlib.Strings.String.concat "," (List.map json_text items) +:+ "]"
  | JS.JObject props =>
      "{" +:+ Stdlib.Strings.String.concat ","
        ((fix go (ps : list (string * JS.json)) : list string :=
            match ps with
            | [] => []
            | (k, x) :: ps' => (quote k +:+ ":" +:+ json_text x) :: go ps'
            end) props) +:+ "}"
  end.

Definition cell_chars (c : LocalStorageAdapter.cell) : Z :=
  match c with
  | LocalStorageAdapter.Text s => Z.of_nat (String.length s)
  | LocalStorageAdapter.Json j => Z.of_nat (String.length (json_text j))
  end.

Definition stored_chars (st : gmap string LocalStorageAdapter.cell) : Z :=
  map_fold (λ k c acc, acc + Z.of_nat (String.length k) + cell_chars c) 0 st.

Definition browser : LocalStorageAdapter.Browser :=
  {| LocalStorageAdapter.quota_ok := λ st, bool_decide (stored_chars st ≤ 5000000);
     LocalStorageAdapter.JSON_text := json_text;
     LocalStorageAdapter.JSON_parse_text :=
       λ s, JS.Throw ("SyntaxError: Unexpected token in JSON: " +:+ s) |}.
End ReferenceBrowser.

(** Modelled from the spec: the remote session service is not part of the
    sources; this is the service of the specification's section on external
    interfaces.  It keeps one record per session and one active-session
    pointer; [POST /sessions/{id}] stores the record and answers with its
    metadata, the pointer is read and written through [/sessions/active]
    only, and [GET /sessions] lists the metadata in the order the sessions
    were first stored. *)
Module Service.

Record t : Type := mk {
  reachable : bool;
  records : list (string * JS.json);
  activeSession : option string;
}.

Definition baseUrl : string := "http://localhost:8000/api/v1".

Fixpoint strip_prefix (p s : string) : option string :=
  match p, s with
  | EmptyString, _ => Some s
  | String a p', String b s' => if decide (a = b) then strip_prefix p' s' else None
  | _, _ => None
  end.

Definition strip_suffix (q s : string) : option string :=
  let n := (String.length s - String.length q)%nat in
  if bool_decide (String.length q ≤ String.length s)%nat
     && bool_decide (Stdlib.Strings.String.substring n (String.length q) s = q)
  then Some (Stdlib.Strings.String.substring 0 n s)
  else None.

Definition field (k : string) (j : JS.json) : option JS.json :=
  match j with
  | JS.JObject props => JS.map_get k props
  | _ => None
  end.

Definition ok (body : JS.json) : ApiClient.FetchOutcome :=
  ApiClient.Responded 200 "OK" EmptyString (JS.Normal body).

Definition not_found : ApiClient.FetchOutcome :=
  ApiClient.Responded 404 "Not Found" "Session not found"
    (JS.Throw "SyntaxError: Unexpected token S in JSON").

Definition bad_request : ApiClient.FetchOutcome :=
  ApiClient.Responded 400 "Bad Request" "Malformed request"
    (JS.Throw "SyntaxError: Unexpected token M in JSON").

(** The record kept for a [POST /sessions/{id}]: [createdAt] stays as it was
    at the first write, [updatedAt] follows the metadata of the request. *)
Definition stored_record (sessionId : string) (body : JS.json) (s : t) : JS.json :=
  let lastModified := default JS.JNull (field "metadata" body ≫= field "lastModified") in
  let createdAt :=
    default lastModified (JS.map_get sessionId (records s) ≫= field "createdAt") in
  JS.JObject
    [("sessionId", JS.JString sessionId);
     ("dataState", default JS.JNull (field "dataState" body));
     ("activeTab", default JS.JNull (field "activeTab" body));
     ("metadata", default JS.JNull (field "metadata" body));
     ("createdAt", createdAt);
     ("updatedAt", lastModified)].

Definition session (method : ApiClient.Method) (sessionId : string)
    (body : option JS.json) (s : t) : ApiClient.FetchOutcome * t :=
  match method with
  | ApiClient.GET =>
      match JS.map_get sessionId (records s) with
      | Some record => (ok record, s)
      | None => (not_found, s)
      end
  | ApiClient.POST | ApiClient.PUT =>
      match body with
      | Some b =>
          (ok (default JS.JNull (field "metadata" b)),
           mk (reachable s)
              (JS.map_set sessionId (stored_record sessionId b s) (records s))
              (activeSession s))
      | None => (bad_request, s)
      end
  | ApiClient.DELETE =>
      (ok (JS.JObject [("deleted", JS.JBool true)]),
       mk (reachable s) (JS.map_delete sessionId (records s)) (activeSession s))
  end.

Definition active (method : ApiClient.Method) (body : option JS.json) (s : t)
  : ApiClient.FetchOutcome * t :=
  match method with
  | ApiClient.GET =>
      (ok (JS.JObject
             [("sessionId",
               match activeSession s with
               | Some sessionId => JS.JString sessionId
               | None => JS.JNull
               end)]), s)
  | ApiClient.POST | ApiClient.PUT =>
      match body ≫= field "sessionId" with
      | Some (JS.JString sessionId) =>
          (ok (JS.JObject [("sessionId", JS.JString sessionId)]),
           mk (reachable s) (records s) (Some sessionId))
      | _ => (bad_request, s)
      end
  | ApiClient.DELETE =>
      (ok (JS.JObject [("sessionId", JS.JNull)]), mk (reachable s) (records s) None)
  end.

Definition sessions (method : ApiClient.Method) (s : t) : ApiClient.FetchOutcome * t :=
  match method with
  | ApiClient.GET =>
      (ok (JS.JArray ((λ r, default JS.JNull (field "metadata" r.2)) <$> records s)), s)
  | ApiClient.DELETE =>
      (ok (JS.JObject [("deleted", JS.JBool true)]), mk (reachable s) [] None)
  | _ => (bad_request, s)
  end.

Definition handle (method : ApiClient.Method) (url : string) (body : option JS.json)
    (s : t) : ApiClient.FetchOutcome * t :=
  if negb (reachable s) then (ApiClient.Failed "Failed to fetch", s)
  else
    match strip_prefix baseUrl url with
    | None => (not_found, s)
    | Some path =>
        if decide (path = "/health")
        then (ok (JS.JObject [("status", JS.JString "ok")]), s)
        else if decide (path = "/sessions") then sessions method s
        else if decide (path = "/sessions/active") then active method body s
        else
          match strip_prefix "/sessions/" path with
          | None => (not_found, s)
          | Some rest =>
              match strip_suffix "/exists" rest with
              | Some sessionId =>
                  if JS.map_get sessionId (records s) is Some _
                  then (ok (JS.JObject [("exists", JS.JBool true)]), s)
                  else (not_found, s)
              | None => session method rest body s
              end
          end
    end.

Definition network : ApiClient.Network t := {| ApiClient.fetch := handle |}.

(** A network on which every request fails. *)
Definition offline : ApiClient.Network unit :=
  {| ApiClient.fetch := λ _ _ _ s, (ApiClient.Failed "Failed to fetch", s) |}.
End Service.

(** ** The two adapters behind the contract

    [LocalStorageAdapter] and [BackendAdapter] hand back what they rebuilt
    from JSON; the orchestrator reads it at the declared types
    [PersistedState] and [SessionMetadata].  [Typed] is that reading: an
    object that has the declared shape, seen as the record. *)

Module Typed.

Definition field (v : JS.value) (k : string) : option JS.value :=
  match JS.get_prop v k with
  | JS.Normal x => Some x
  | JS.Throw _ => None
  end.

Definition string_of (v : JS.value) : option string :=
  if v is JS.VString s then Some s else None.
Definition number_of (v : JS.value) : option Z :=
  if v is JS.VNumber n then Some n else None.
Definition date_of (v : JS.value) : option JS.Date :=
  if v is JS.VDate d then Some d else None.
Definition array_of (v : JS.value) : option (list JS.value) :=
  if v is JS.VArray items then Some items else None.

(** [string | null] *)
Definition nullable_string (v : JS.value) : option (option string) :=
  match v with
  | JS.VNull => Some None
  | JS.VString s => Some (Some s)
  | _ => None
  end.

(** an optional property: absent, or of the given type *)
Definition optional {A} (f : JS.value → option A) (v : JS.value) : option (option A) :=
  match v with
  | JS.VUndefined => Some None
  | _ => Some <$> f v
  end.

Definition storageType_of (v : JS.value) : option StorageType :=
  s ← string_of v;
  if decide (s = "local") then Some StorageLocal
  else if decide (s = "backend") then Some StorageBackend
  else if decide (s = "hybrid") then Some StorageHybrid
  else None.

Definition syncStatus_of (v : JS.value) : option SyncStatus :=
  s ← string_of v;
  if decide (s = "synced") then Some Synced
  else if decide (s = "pending") then Some Pending
  else if decide (s = "conflict") then Some Conflict
  else if decide (s = "error") then Some Error
  else None.

Definition metadata (v : JS.value) : option SessionMetadata.t :=
  sessionId ← field v "sessionId" ≫= string_of;
  fileName ← field v "fileName" ≫= nullable_string;
  lastModified ← field v "lastModified" ≫= date_of;
  rowCount ← field v "rowCount" ≫= number_of;
  labelCount ← field v "labelCount" ≫= number_of;
  ruleCount ← field v "ruleCount" ≫= number_of;
  storageType ← field v "storageType" ≫= storageType_of;
  syncStatus ← field v "syncStatus" ≫= optional syncStatus_of;
  lastSyncedAt ← field v "lastSyncedAt" ≫= optional date_of;
  version ← field v "version" ≫= optional string_of;
  Some (SessionMetadata.mk sessionId fileName lastModified rowCount labelCount ruleCount
          storageType syncStatus lastSyncedAt version).

Definition dataState_keys : list string :=
  ["data"; "fileName"; "labels"; "rules"; "actionHistory"].

Definition dataState (v : JS.value) : option DataState.t :=
  data ← field v "data";
  data ← (match data with
          | JS.VNull => Some None
          | JS.VArray rows => Some (Some rows)
          | _ => None
          end);
  fileName ← field v "fileName" ≫= nullable_string;
  labels ← field v "labels" ≫= array_of;
  rules ← field v "rules" ≫= array_of;
  actionHistory ← field v "actionHistory" ≫= array_of;
  Some (DataState.mk data fileName labels rules actionHistory
          (filter (λ kv, kv.1 ∉ dataState_keys) (JS.spread v))).

Definition persistedState (v : JS.value) : option PersistedState.t :=
  sessionId ← field v "sessionId" ≫= string_of;
  d ← field v "dataState" ≫= dataState;
  activeTab ← field v "activeTab" ≫= string_of;
  m ← field v "metadata" ≫= metadata;
  createdAt ← field v "createdAt" ≫= date_of;
  updatedAt ← field v "updatedAt" ≫= date_of;
  Some (PersistedState.mk sessionId d activeTab m createdAt updatedAt).
End Typed.

(** The world of a front end: the browser's store, the remote adapter with
    the network behind it, and the clock. *)
Module World.

Record t (S : Type) : Type := mk {
  storage : gmap string LocalStorageAdapter.cell;
  remote : BackendAdapter.t * S;
  clock : Z;
}.
Arguments mk {S}. Arguments storage {S}. Arguments remote {S}. Arguments clock {S}.

Section WithPlatform.
Context `{JS.Platform} `{LocalStorageAdapter.Browser} {S : Type} `{ApiClient.Network S}.

Definition on_storage {A}
    (f : gmap string LocalStorageAdapter.cell → A * gmap string LocalStorageAdapter.cell)
    (w : t S) : A * t S :=
  let '(a, st) := f (storage w) in (a, mk st (remote w) (clock w)).

Definition read_storage {A} (f : gmap string LocalStorageAdapter.cell → A) (w : t S)
  : A * t S :=
  (f (storage w), w).

Definition on_remote {A} (f : BackendAdapter.t * S → A * (BackendAdapter.t * S)) (w : t S)
  : A * t S :=
  let '(a, r) := f (remote w) in (a, mk (storage w) r (clock w)).

(** A write that throws outside of a [try] leaves the store as it is. *)
Definition attempt (c : JS.Completion (gmap string LocalStorageAdapter.cell))
    (st : gmap string LocalStorageAdapter.cell)
  : unit * gmap string LocalStorageAdapter.cell :=
  match c with
  | JS.Normal st' => (tt, st')
  | JS.Throw _ => (tt, st)
  end.

(** [new LocalStorageAdapter()] *)
Definition localAdapter : StateAdapter.t (t S) :=
  StateAdapter.mk (t S)
    LocalStorageAdapter.name LocalStorageAdapter.priority
    (λ sessionId dataState activeTab type w,
       on_storage (LocalStorageAdapter.saveState sessionId dataState activeTab type (clock w)) w)
    (λ sessionId,
       read_storage (λ st, LocalStorageAdapter.loadState sessionId st ≫= Typed.persistedState))
    (λ sessionId w, on_storage (LocalStorageAdapter.deleteSession sessionId (clock w)) w)
    (read_storage (λ st, omap Typed.metadata (LocalStorageAdapter.listSessions st)))
    (λ sessionId, read_storage (LocalStorageAdapter.hasSession sessionId))
    (read_storage LocalStorageAdapter.getActiveSessionId)
    (λ sessionId,
       on_storage (λ st, attempt (LocalStorageAdapter.setActiveSessionId sessionId st) st))
    (on_storage (λ st, (tt, LocalStorageAdapter.clearActiveSessionId st)))
    (λ w, on_storage (LocalStorageAdapter.clearAll (clock w)) w)
    (λ w, on_storage (LocalStorageAdapter.healthCheck (clock w)) w).

Definition typed {A B} (f : A → B) (r : A * (BackendAdapter.t * S))
  : B * (BackendAdapter.t * S) :=
  (f r.1, r.2).

(** [new BackendAdapter({baseUrl})] *)
Definition backendAdapter : StateAdapter.t (t S) :=
  StateAdapter.mk (t S)
    BackendAdapter.name BackendAdapter.priority
    (λ sessionId dataState activeTab type w,
       on_remote (BackendAdapter.saveState sessionId dataState activeTab type (clock w)) w)
    (λ sessionId,
       on_remote (λ r, typed (λ o, o ≫= Typed.persistedState)
                         (BackendAdapter.loadState sessionId r)))
    (λ sessionId w, on_remote (BackendAdapter.deleteSession sessionId (clock w)) w)
    (on_remote (λ r, typed (omap Typed.metadata) (BackendAdapter.listSessions r)))
    (λ sessionId, on_remote (BackendAdapter.hasSession sessionId))
    (on_remote (λ r, typed Typed.string_of (BackendAdapter.getActiveSessionId r)))
    (λ sessionId, on_remote (BackendAdapter.setActiveSessionId sessionId))
    (on_remote BackendAdapter.clearActiveSessionId)
    (λ w, on_remote (BackendAdapter.clearAll (clock w)) w)
    (on_remote BackendAdapter.healthCheck).

(** [Date.now()] and the passing of time. *)
Definition now (w : t S) : Z := clock w.
Definition delay (ms : Z) (w : t S) : t S := mk (storage w) (remote w) (clock w + ms).

(** [createStateSync(options)] ([unnamed/part_007]). *)
Definition createStateSync (strategy conflictResolution : option string)
    (autoSync : option bool) (syncInterval : option Z)
  : JS.Completion (StateSync.t (t S)) :=
  StateSync.constructor
    (StateSync.mkConfig [localAdapter; backendAdapter] None
       (Some (JS.str_or strategy "local-first"))
       (Some (JS.str_or conflictResolution "latest-wins"))
       (Some (default true autoSync))
       (Some (JS.num_or syncInterval 30000))
       (Some 3) (Some 5000)).
End WithPlatform.
End World.

(** ** Vocabulary of the properties *)

(** Structural induction on values, through the lists of their items. *)
Section ValueInduction.
Variable P : JS.value → Prop.
Hypothesis Hundef : P JS.VUndefined.
Hypothesis Hnull : P JS.VNull.
Hypothesis Hbool : ∀ b, P (JS.VBool b).
Hypothesis Hnum : ∀ n, P (JS.VNumber n).
Hypothesis Hnan : P JS.VNaN.
Hypothesis Hstr : ∀ s, P (JS.VString s).
Hypothesis Hdate : ∀ d, P (JS.VDate d).
Hypothesis Harr : ∀ items, Forall P items → P (JS.VArray items).
Hypothesis Hobj : ∀ props, Forall (λ kv, P kv.2) props → P (JS.VObject props).
Hypothesis Hset : ∀ items, Forall P items → P (JS.VSet items).
Hypothesis Hmap : ∀ entries, Forall (λ kv, P kv.1 ∧ P kv.2) entries → P (JS.VMap entries).

Fixpoint value_nested_ind (v : JS.value) : P v :=
  match v with
  | JS.VUndefined => Hundef
  | JS.VNull => Hnull
  | JS.VBool b => Hbool b
  | JS.VNumber n => Hnum n
  | JS.VNaN => Hnan
  | JS.VString s => Hstr s
  | JS.VDate d => Hdate d
  | JS.VArray items =>
      Harr items
        ((fix go (l : list JS.value) : Forall P l :=
            match l with
            | [] => Forall_nil_2 P
            | x :: l' => Forall_cons_2 P x l' (value_nested_ind x) (go l')
            end) items)
  | JS.VObject props =>
      Hobj props
        ((fix go (l : list (string * JS.value)) : Forall (λ kv, P kv.2) l :=
            match l with
            | [] => Forall_nil_2 _
            | (k, x) :: l' => Forall_cons_2 (λ kv, P kv.2) (k, x) l' (value_nested_ind x) (go l')
            end) props)
  | JS.VSet items =>
      Hset items
        ((fix go (l : list JS.value) : Forall P l :=
            match l with
            | [] => Forall_nil_2 P
            | x :: l' => Forall_cons_2 P x l' (value_nested_ind x) (go l')
            end) items)
  | JS.VMap entries =>
      Hmap entries
        ((fix go (l : list (JS.value * JS.value)) : Forall (λ kv, P kv.1 ∧ P kv.2) l :=
            match l with
            | [] => Forall_nil_2 _
            | (k, x) :: l' =>
                Forall_cons_2 (λ kv, P kv.1 ∧ P kv.2) (k, x) l'
                  (conj (value_nested_ind k) (value_nested_ind x)) (go l')
            end) entries)
  end.
End ValueInduction.

(** What [JSON.parse(JSON.stringify(v))] makes of [v] where it is a property
    or an item that is written at all. *)
Definition reparsed `{JS.Platform} (v : JS.value) : JS.value :=
  JS.of_json (default JS.JNull (JS.JSON_stringify v)).

(** [a] is not older than [b], and both carry a time value: the order of a
    list sorted by [lastModified], newest first. *)
Definition not_older {A} (time : A → option Z) (a b : A) : Prop :=
  ∃ ta tb, time a = Some ta ∧ time b = Some tb ∧ tb ≤ ta.

(** [(a, b) => time(b) - time(a)], the comparator of both [listSessions]. *)
Definition newest_first {A} (time : A → option Z) (a b : A) : option Z :=
  JS.num_sub (time b) (time a).

(** [x] is the record [x0] that carries the time stamp [t], or an older one. *)
Definition newest_or_older {A} (updatedAt : A → JS.Date) (x0 : A) (t : Z) (x : A) : Prop :=
  x = x0 ∨ ∃ t1, updatedAt x = JS.ValidDate t1 ∧ t1 < t.

Definition failed (r : SyncResult.t) : Prop := SyncResult.success r = false.


Section OrchestratorVocabulary.
Context {W : Type}.

(** A property of the [StateSync] object that a method keeps. *)
Definition preserves (I : StateSync.t W → Prop) {A} (m : M (StateSync.t W * W) A) : Prop :=
  ∀ s, I s.1 → I (m s).2.1.

(** No push of [sessionId] to the adapter registered as ['backend']
    succeeds, whatever the payload and the state of the world. *)
Definition push_never_succeeds (o : StateSync.t W) (sessionId : string) : Prop :=
  ∀ backend dataState activeTab type w,
    JS.map_get "backend" (StateSync.adapters o) = Some backend →
    SyncResult.success
      (StateAdapter.saveState backend sessionId dataState activeTab type w).1 = false.

(** [sessionId] has an entry in the pending queue of an object set up like
    [o0]. *)
Definition queued (o0 : StateSync.t W) (sessionId : string) (o : StateSync.t W) : Prop :=
  StateSync.adapters o = StateSync.adapters o0 ∧
  sessionId ∈ JS.map_keys (StateSync.pendingSyncs o).

(** The lists the adapters [todo] answer, one after the other, to the loop
    of [listSessions] that starts in the world [w]. *)
Fixpoint listed (todo : list (StateAdapter.t W)) (w : W) : list (list SessionMetadata.t) :=
  match todo with
  | [] => []
  | adapter :: todo' =>
      let '(sessions, w') := StateAdapter.listSessions adapter w in
      sessions :: listed todo' w'
  end.

(** The world after [adapter.deleteSession(sessionId)]. *)
Definition delete_in (sessionId : string) (adapter : StateAdapter.t W) (w : W) : W :=
  (StateAdapter.deleteSession adapter sessionId w).2.
End OrchestratorVocabulary.

Section LocalVocabulary.
Context `{JS.Platform} `{LocalStorageAdapter.Browser}.

(** The record of [sessionId] is missing, or is not JSON. *)
Definition record_unusable (sessionId : string)
    (st : gmap string LocalStorageAdapter.cell) : Prop :=
  LocalStorageAdapter.getItem (LocalStorageAdapter.getSessionKey sessionId) st = None ∨
  ∃ c e,
    LocalStorageAdapter.getItem (LocalStorageAdapter.getSessionKey sessionId) st = Some c ∧
    LocalStorageAdapter.JSON_parse c = JS.Throw e.

(** The identifiers the loop of [listSessions] walks. *)
Definition indexed (st : gmap string LocalStorageAdapter.cell)
  : JS.Completion (list JS.json) :=
  sessionList <-? LocalStorageAdapter.getSessionList st ;;
  LocalStorageAdapter.iterate sessionList.


(** The record [saveState] writes. *)
Definition written (sessionId : string) (d : DataState.t) (activeTab : string) (now : Z)
    (st : gmap string LocalStorageAdapter.cell) : PersistedState.t :=
  let now := JS.ValidDate now in
  PersistedState.mk sessionId d activeTab
    (SessionMetadata.mk sessionId (DataState.fileName d) now
       (DataState.rowCount d) (DataState.labelCount d) (DataState.ruleCount d)
       StorageLocal (Some Synced) (Some now) (Some "1.0.0"))
    (LocalStorageAdapter.createdAt_or (LocalStorageAdapter.loadState sessionId st) now) now.
End LocalVocabulary.


(** ** Example inputs

    A front end on the reference platform, with the remote service or with a
    dead network behind the remote adapter, and a few payloads. *)

Module Examples.

#[local] Existing Instance ISO8601.platform.
#[local] Existing Instance ReferenceBrowser.browser.

Definition a_label : JS.value :=
  JS.VObject
    [("id", JS.VString "label-1");
     ("name", JS.VString "Groceries");
     ("color", JS.VString "#00aa00");
     ("createdAt", JS.VDate (JS.ValidDate 1700000000000));
     ("usageCount", JS.VNumber 2)].

Definition a_rule : JS.value :=
  JS.VObject
    [("id", JS.VString "rule-1");
     ("name", JS.VString "Supermarket");
     ("priority", JS.VNumber 0);
     ("isActive", JS.VBool true);
     ("createdAt", JS.VDate (JS.ValidDate 1700000000500));
     ("updatedAt", JS.VDate (JS.ValidDate 1700000000900));
     ("transactionIds", JS.VArray [JS.VString "row-1"])].

Definition a_row : JS.value :=
  JS.VObject
    [("id", JS.VString "row-1");
     ("description", JS.VString "SUPERMARKET 42");
     ("amount", JS.VNumber 5);
     ("label", JS.VString "label-1")].

(** A payload with its time stamps where [loadState] rebuilds them. *)
Definition payload : DataState.t :=
  DataState.mk (Some [a_row]) (Some "statement.csv") [a_label] [a_rule] []
    [("isLoading", JS.VBool false); ("rulePreview", JS.VNull)].

(** The same payload while the rule preview is open: [rulePreview.rule] is a
    [Rule], with its [createdAt] and [updatedAt]. *)
Definition payload_with_preview : DataState.t :=
  DataState.mk (Some [a_row]) (Some "statement.csv") [a_label] [a_rule] []
    [("isLoading", JS.VBool false);
     ("rulePreview",
      JS.VObject [("rule", a_rule); ("matchingTransactions", JS.VArray [a_row])])].

Definition other_payload : DataState.t :=
  DataState.mk None None [] [] [] [].

Definition t0 : Z := 1700000001000.

(** The front end at its first start: nothing stored, the service up. *)
Definition fresh : World.t Service.t :=
  World.mk ∅ (BackendAdapter.mk Service.baseUrl true, Service.mk true [] None) t0.

(** The service cannot be reached. *)
Definition unreachable (w : World.t Service.t) : World.t Service.t :=
  World.mk (World.storage w)
    ((World.remote w).1,
     Service.mk false (Service.records (World.remote w).2)
       (Service.activeSession (World.remote w).2))
    (World.clock w).

(** The session index holds a text that is not JSON. *)
Definition with_broken_index (w : World.t Service.t) : World.t Service.t :=
  World.mk
    (<[LocalStorageAdapter.SESSION_LIST_KEY := LocalStorageAdapter.Text "not json"]>
       (World.storage w))
    (World.remote w) (World.clock w).

(** The front end with a network on which every request fails. *)
Definition disconnected : World.t unit :=
  World.mk ∅ (BackendAdapter.mk Service.baseUrl true, tt) t0.

Definition no_adapters {W} : StateSync.t W :=
  StateSync.mk [] (SyncConfig.mk "local-first" "latest-wins" false None 3 5000) None [].

(** The object a constructor call returned. *)
Definition constructed {W} (c : JS.Completion (StateSync.t W)) : StateSync.t W :=
  match c with
  | JS.Normal o => o
  | JS.Throw _ => no_adapters
  end.

(** [createStateSync({strategy})] over the service and over the dead
    network. *)
Definition sync (strategy : string) : StateSync.t (World.t Service.t) :=
  constructed (@World.createStateSync _ _ _ Service.network (Some strategy) None None None).

Definition sync_disconnected : StateSync.t (World.t unit) :=
  constructed (@World.createStateSync _ _ _ Service.offline None None None None).

Definition save (o : StateSync.t (World.t Service.t)) (sessionId : string)
    (d : DataState.t) (s : StateSync.t (World.t Service.t) * World.t Service.t)
  : StateSync.t (World.t Service.t) * World.t Service.t :=
  (StateSync.saveState World.now World.delay sessionId d "labeling" SaveData (o, s.2)).2.

(** The world after session [s2] was saved on the device only, and a second
    later, changed, on the service only. *)
Definition diverged : World.t Service.t :=
  let w1 := (save (sync "local-only") "s2" other_payload (sync "local-only", fresh)).2 in
  let w2 := World.delay 1000 w1 in
  (save (sync "backend-only") "s2" payload (sync "backend-only", w2)).2.


(** A store that holds the record of [s2] but no index. *)
Definition orphaned : gmap string LocalStorageAdapter.cell :=
  LocalStorageAdapter.removeItem LocalStorageAdapter.SESSION_LIST_KEY
    (LocalStorageAdapter.saveState "s2" payload "labeling" SaveData t0 ∅).2.

(** A store whose index names [s1] while the record is gone. *)
Definition stale : gmap string LocalStorageAdapter.cell :=
  LocalStorageAdapter.removeItem (LocalStorageAdapter.getSessionKey "s1")
    (LocalStorageAdapter.saveState "s1" payload "labeling" SaveData t0 ∅).2.

(** The record of [s2] on the service, written a second after the one on
    the device. *)
Definition newer_record : PersistedState.t :=
  let now := JS.ValidDate (t0 + 1000) in
  PersistedState.mk "s2" payload "labeling"
    (SessionMetadata.mk "s2" (Some "statement.csv") now 1 1 1 StorageBackend
       (Some Synced) (Some now) (Some "1.0.0"))
    now now.

(** A configuration that names a strategy the orchestrator does not know. *)
Definition unknown_strategy : StateSync.StateSyncConfig (World.t Service.t) :=
  StateSync.mkConfig [World.localAdapter; @World.backendAdapter _ _ Service.network] None
    (Some "fastest-first") None (Some false) None None None.
End Examples.

(** ** Vocabulary of the further properties *)

Section QueueVocabulary.
Context {W : Type}.

(** The pending queue holds at most one entry per session, each under the
    identifier of its record and marked as pending. *)
Definition queue_ok (o : StateSync.t W) : Prop :=
  NoDup (JS.map_keys (StateSync.pendingSyncs o)) ∧
  Forall (λ kv, kv.1 = PersistedState.sessionId kv.2 ∧
                SessionMetadata.syncStatus (PersistedState.metadata kv.2) = Some Pending)
    (StateSync.pendingSyncs o).

(** [this.pendingSyncs] replaced by [queue]. *)
Definition with_pendingSyncs (queue : list (string * PersistedState.t)) (o : StateSync.t W)
  : StateSync.t W :=
  StateSync.mk (StateSync.adapters o) (StateSync.config o) (StateSync.syncTimer o) queue.

(** The push [syncPendingChanges] makes for one entry of the queue. *)
Definition push (backend : StateAdapter.t W) (entry : string * PersistedState.t) (w : W)
  : SyncResult.t * W :=
  StateAdapter.saveState backend entry.1 (PersistedState.dataState entry.2)
    (PersistedState.activeTab entry.2) SaveData w.

(** The entries whose push fails when [entries] are pushed one after the
    other, starting in the world [w]. *)
Fixpoint unsynced (backend : StateAdapter.t W) (entries : list (string * PersistedState.t))
    (w : W) : list (string * PersistedState.t) :=
  match entries with
  | [] => []
  | entry :: entries' =>
      let r := push backend entry w in
      if SyncResult.success r.1 then unsynced backend entries' r.2
      else entry :: unsynced backend entries' r.2
  end.

(** The world after [entries] were pushed one after the other. *)
Definition pushed (backend : StateAdapter.t W) (entries : list (string * PersistedState.t))
    (w : W) : W :=
  foldl (λ w entry, (push backend entry w).2) w entries.
End QueueVocabulary.
(** ** Vocabulary of the merged list of sessions *)

Section MergeVocabulary.
Implicit Types all : list (string * SessionMetadata.t).
Implicit Types seen : list SessionMetadata.t.

(** What the map of [listSessions] holds after the entries [seen] were
    merged into it. *)
Definition merged_of seen all : Prop :=
  NoDup all.*1 ∧
  (∀ k m, (k, m) ∈ all → SessionMetadata.sessionId m = k ∧ m ∈ seen) ∧
  (∀ s, s ∈ seen →
     ∃ m, JS.map_get (SessionMetadata.sessionId s) all = Some m ∧
          JS.date_gt (SessionMetadata.lastModified s) (SessionMetadata.lastModified m) = false).
End MergeVocabulary.

(** ** Further example inputs *)

Module Fixtures.
Import Examples.

#[local] Existing Instance ISO8601.platform.
#[local] Existing Instance ReferenceBrowser.browser.

(** The store after session [s1] was saved on a new device. *)
Definition saved_once : gmap string LocalStorageAdapter.cell :=
  (LocalStorageAdapter.saveState "s1" payload "labeling" SaveData t0 ∅).2.

(** A store whose session index is not JSON. *)
Definition broken_index : gmap string LocalStorageAdapter.cell :=
  <[LocalStorageAdapter.SESSION_LIST_KEY := LocalStorageAdapter.Text "not json"]> ∅.

(** The two adapters of the front end over the service. *)
Definition device : StateAdapter.t (World.t Service.t) := World.localAdapter.
Definition backend : StateAdapter.t (World.t Service.t) :=
  @World.backendAdapter _ _ Service.network.

(** The remote adapter over a network on which every request fails. *)
Definition remote_disconnected : BackendAdapter.t * unit :=
  (BackendAdapter.mk Service.baseUrl true, tt).

(** An orchestrator whose queue holds [s2]. *)
Definition with_s2_queued : StateSync.t (World.t Service.t) :=
  with_pendingSyncs [("s2", newer_record)] (sync "local-first").

(** The record of [s1], queued. *)
Definition queued_record : PersistedState.t :=
  let now := JS.ValidDate t0 in
  PersistedState.mk "s1" other_payload "rules"
    (SessionMetadata.mk "s1" None now 0 0 0 StorageHybrid (Some Pending) None (Some "1.0.0"))
    now now.

(** An orchestrator whose queue holds [s1] and [s2]. *)
Definition with_two_queued : StateSync.t (World.t Service.t) :=
  with_pendingSyncs [("s1", queued_record); ("s2", newer_record)] (sync "local-first").

(** The front end at its first start while the service is out of reach. *)
Definition unreachable_fresh : World.t Service.t := unreachable fresh.
End Fixtures.
(** ** The synchronous wrapper ([lib/statePersistenceV2.ts])

    [loadStateFromStorage] reads the record of the on-device adapter
    directly; [o] is the orchestrator [getStateSync()] answers with. *)

Module StatePersistenceV2.
Section WithPlatform.
Context `{JS.Platform} `{LocalStorageAdapter.Browser} {W : Type}.

Definition loadStateFromStorage (o : StateSync.t W) (sessionId : string)
    (st : gmap string LocalStorageAdapter.cell) : option JS.value :=
  match JS.map_get "localStorage" (StateSync.adapters o) with
  | None => None
  | Some localAdapter =>
      let key := "data-labeler:session:" +:+ sessionId in
      let data := LocalStorageAdapter.getItem key st in
      match data with
      | None => None
      | Some c =>
          if LocalStorageAdapter.no_data data then None
          else
            match
              parsed <-? LocalStorageAdapter.JSON_parse c ;;
              dataState <-? JS.get_prop (JS.of_json parsed) "dataState" ;;
              dataState <-? LocalStorageAdapter.revive_dataState dataState ;;
              activeTab <-? JS.get_prop (JS.of_json parsed) "activeTab" ;;
              JS.Normal (JS.VObject [("dataState", dataState); ("activeTab", activeTab)])
            with
            | JS.Normal loaded => Some loaded
            | JS.Throw _ => None
            end
      end
  end.

(** [hasStoredData(sessionId)] *)
Definition hasStoredData (sessionId : string) (st : gmap string LocalStorageAdapter.cell)
  : bool :=
  bool_decide (is_Some (LocalStorageAdapter.getItem ("data-labeler:session:" +:+ sessionId) st)).

(** [getActiveSessionId()] *)
Definition getActiveSessionId (st : gmap string LocalStorageAdapter.cell) : option string :=
  LocalStorageAdapter.cell_text <$> LocalStorageAdapter.getItem "data-labeler:active-session" st.
End WithPlatform.
End StatePersistenceV2.

(** ** The first persistence layer ([lib/statePersistence.ts], first half)

    The functions the front end used before the adapters: one record per
    session under [data-labeler-session-<id>], written through a serialiser
    that tags [Set], [Map] and [Date] values.

    Conventions.
    - Two occurrences of an object (array, date, set, map) in a value are two
      references: [SameValueZero] holds between primitives only.
    - An assignment [o[key] = v] with the key ['__proto__'] reaches the setter
      of [Object.prototype] and creates no own property; the prototype it may
      install is not modelled.
    - [getAllSessions] walks [localStorage.key(i)], whose order the browser
      chooses; it is not embedded. *)

Module StatePersistence.

Definition STORAGE_KEY_PREFIX : string := "data-labeler-session-".
Definition STORAGE_VERSION : string := "1.0".
Definition ACTIVE_SESSION_KEY : string := "data-labeler-active-session".
Definition HAS_DATA_KEY : string := "data-labeler-has-data".

(** [ToNumber], as the operator [-] applies it to its operands: [None] is
    [NaN]; the conversion of an object can throw.  A number is converted to
    itself. *)
Class Numbers : Type := {
  ToNumber : JS.value → JS.Completion (option Z);
  ToNumber_number : ∀ n, ToNumber (JS.VNumber n) = JS.Normal (Some n);
}.

(** [SameValueZero], the equality of [Set] and [Map]. *)
Definition same_value_zero (a b : JS.value) : bool :=
  match a, b with
  | JS.VUndefined, JS.VUndefined | JS.VNull, JS.VNull | JS.VNaN, JS.VNaN => true
  | JS.VBool x, JS.VBool y => bool_decide (x = y)
  | JS.VNumber x, JS.VNumber y => bool_decide (x = y)
  | JS.VString x, JS.VString y => bool_decide (x = y)
  | _, _ => false
  end.

(** [set.add(x)] on the elements of a [Set], in insertion order. *)
Definition set_add (items : list JS.value) (x : JS.value) : list JS.value :=
  if existsb (same_value_zero x) items then items else items ++ [x].

(** [map.set(k, v)] on the entries of a [Map], in insertion order. *)
Fixpoint map_put (entries : list (JS.value * JS.value)) (k v : JS.value)
  : list (JS.value * JS.value) :=
  match entries with
  | [] => [(k, v)]
  | (k', v') :: entries' =>
      if same_value_zero k k' then (k', v) :: entries' else (k', v') :: map_put entries' k v
  end.

(** The characters a string iterates over. *)
Definition characters (s : string) : list JS.value :=
  (λ c, JS.VString (String c EmptyString)) <$> Stdlib.Strings.String.list_ascii_of_string s.

(** [new Set(iterable)] *)
Definition new_Set (iterable : JS.value) : JS.Completion JS.value :=
  match iterable with
  | JS.VUndefined | JS.VNull => JS.Normal (JS.VSet [])
  | JS.VArray items => JS.Normal (JS.VSet (foldl set_add [] items))
  | JS.VString s => JS.Normal (JS.VSet (foldl set_add [] (characters s)))
  | JS.VSet items => JS.Normal (JS.VSet items)
  | JS.VMap entries => JS.Normal (JS.VSet ((λ kv, JS.VArray [kv.1; kv.2]) <$> entries))
  | _ => JS.Throw "TypeError: object is not iterable"
  end.

(** The key and the value [new Map] reads from one item of its argument:
    [item[0]] and [item[1]] of an object. *)
Definition entry_of (item : JS.value) : JS.Completion (JS.value * JS.value) :=
  match item with
  | JS.VArray l => JS.Normal (nth 0 l JS.VUndefined, nth 1 l JS.VUndefined)
  | JS.VObject props =>
      JS.Normal (default JS.VUndefined (JS.map_get "0" props),
                 default JS.VUndefined (JS.map_get "1" props))
  | JS.VDate _ | JS.VSet _ | JS.VMap _ => JS.Normal (JS.VUndefined, JS.VUndefined)
  | _ => JS.Throw "TypeError: Iterator value is not an entry object"
  end.

Definition map_of_items (items : list JS.value) : JS.Completion JS.value :=
  entries <-? JS.cmapM entry_of items ;;
  JS.Normal (JS.VMap (foldl (λ acc kv, map_put acc kv.1 kv.2) [] entries)).

(** [new Map(iterable)] *)
Definition new_Map (iterable : JS.value) : JS.Completion JS.value :=
  match iterable with
  | JS.VUndefined | JS.VNull => JS.Normal (JS.VMap [])
  | JS.VArray items => map_of_items items
  | JS.VString s => map_of_items (characters s)
  | JS.VSet items => map_of_items items
  | JS.VMap entries => JS.Normal (JS.VMap entries)
  | _ => JS.Throw "TypeError: object is not iterable"
  end.

(** [v === s] for a string [s] *)
Definition is_string (s : string) (v : JS.value) : bool :=
  match v with
  | JS.VString s' => bool_decide (s' = s)
  | _ => false
  end.

(** [o[key] = v] on the own properties of a plain object. *)
Definition assign (key : string) (v : JS.value) (props : list (string * JS.value))
  : list (string * JS.value) :=
  if decide (key = "__proto__") then props else JS.map_set key v props.

(** [for (const [key, value] of Object.entries(state)) target[key] = f(value)] *)
Definition assign_each (f : JS.value → JS.Completion JS.value)
  : list (string * JS.value) → list (string * JS.value)
    → JS.Completion (list (string * JS.value)) :=
  fix go entries target :=
    match entries with
    | [] => JS.Normal target
    | (key, value) :: entries' =>
        y <-? f value ;; go entries' (assign key y target)
    end.

(** [state.map(item => f(item))] *)
Definition map_each (f : JS.value → JS.Completion JS.value)
  : list JS.value → JS.Completion (list JS.value) :=
  fix go items :=
    match items with
    | [] => JS.Normal []
    | item :: items' => y <-? f item ;; ys <-? go items' ;; JS.Normal (y :: ys)
    end.

Section WithPlatform.
Context `{JS.Platform} `{LocalStorageAdapter.Browser} `{Numbers}.

(** [serializeState].  The elements of a [Set] and the entries of a [Map]
    are handed over as they are; [toISOString] throws on an invalid date. *)
Fixpoint serializeState (state : JS.value) : JS.Completion JS.value :=
  match state with
  | JS.VSet items =>
      JS.Normal (JS.VObject [("__type", JS.VString "Set"); ("values", JS.VArray items)])
  | JS.VMap entries =>
      JS.Normal (JS.VObject
        [("__type", JS.VString "Map");
         ("values", JS.VArray ((λ kv, JS.VArray [kv.1; kv.2]) <$> entries))])
  | JS.VDate (JS.ValidDate ms) =>
      JS.Normal (JS.VObject
        [("__type", JS.VString "Date"); ("value", JS.VString (JS.toISOString ms))])
  | JS.VDate JS.InvalidDate => JS.Throw "RangeError: Invalid time value"
  | JS.VArray items =>
      serialized <-? map_each serializeState items ;; JS.Normal (JS.VArray serialized)
  | JS.VObject props =>
      serialized <-? assign_each serializeState props [] ;; JS.Normal (JS.VObject serialized)
  | _ => JS.Normal state
  end.

(** [deserializeState].  An object with a truthy [__type] is rebuilt, or
    returned as it is when the type is not one of the three; a [Date], [Set]
    or [Map] has no own enumerable property and comes out as [{}]. *)
Fixpoint deserializeState (state : JS.value) : JS.Completion JS.value :=
  match state with
  | JS.VObject props =>
      let type := default JS.VUndefined (JS.map_get "__type" props) in
      if JS.falsy type then
        deserialized <-? assign_each deserializeState props [] ;;
        JS.Normal (JS.VObject deserialized)
      else if is_string "Set" type then
        new_Set (default JS.VUndefined (JS.map_get "values" props))
      else if is_string "Map" type then
        new_Map (default JS.VUndefined (JS.map_get "values" props))
      else if is_string "Date" type then
        JS.Normal (JS.VDate (JS.new_Date (default JS.VUndefined (JS.map_get "value" props))))
      else JS.Normal state
  | JS.VArray items =>
      deserialized <-? map_each deserializeState items ;; JS.Normal (JS.VArray deserialized)
  | JS.VDate _ | JS.VSet _ | JS.VMap _ => JS.Normal (JS.VObject [])
  | _ => JS.Normal state
  end.
(** *** The records in [localStorage] *)

Definition getSessionStorageKey (sessionId : string) : string :=
  STORAGE_KEY_PREFIX +:+ sessionId.

(** [if (sessionId)] on an optional string *)
Definition given (sessionId : option string) : option string :=
  match sessionId with
  | Some s => if decide (s = EmptyString) then None else Some s
  | None => None
  end.

(** [x.length] for a truthy [x] *)
Definition length_of (x : JS.value) : JS.Completion JS.value :=
  match x with
  | JS.VArray items => JS.Normal (JS.VNumber (Z.of_nat (length items)))
  | JS.VString s => JS.Normal (JS.VNumber (Z.of_nat (String.length s)))
  | _ => JS.get_prop x "length"
  end.

(** [typeof x.has === 'function'] for a truthy [x] *)
Definition has_method (x : JS.value) : bool :=
  match x with
  | JS.VSet _ | JS.VMap _ => true
  | _ => false
  end.

(** [clearStoredState(sessionId?)] *)
Definition clearStoredState (sessionId : option string)
    (st : gmap string LocalStorageAdapter.cell) : gmap string LocalStorageAdapter.cell :=
  match given sessionId with
  | Some sessionId =>
      let st1 := LocalStorageAdapter.removeItem (getSessionStorageKey sessionId) st in
      let activeSession :=
        LocalStorageAdapter.cell_text <$> LocalStorageAdapter.getItem ACTIVE_SESSION_KEY st1 in
      if bool_decide (activeSession = Some sessionId)
      then LocalStorageAdapter.removeItem HAS_DATA_KEY
             (LocalStorageAdapter.removeItem ACTIVE_SESSION_KEY st1)
      else st1
  | None =>
      let activeSession := LocalStorageAdapter.getItem ACTIVE_SESSION_KEY st in
      let st1 :=
        match activeSession with
        | Some c =>
            if LocalStorageAdapter.no_data activeSession then st
            else LocalStorageAdapter.removeItem
                   (getSessionStorageKey (LocalStorageAdapter.cell_text c)) st
        | None => st
        end in
      LocalStorageAdapter.removeItem HAS_DATA_KEY
        (LocalStorageAdapter.removeItem ACTIVE_SESSION_KEY st1)
  end.

(** The record [saveStateToStorage] writes. *)
Definition stateToSave (serializedDataState : JS.value) (activeTab currentView : string)
    (now : Z) : JS.value :=
  JS.VObject
    [("version", JS.VString STORAGE_VERSION);
     ("dataState", serializedDataState);
     ("activeTab", JS.VString activeTab);
     ("currentView", JS.VString currentView);
     ("timestamp", JS.VNumber now)].

(** [saveStateToStorage].  [now] is [Date.now()].  Whatever throws inside
    the [try] ends the function; the writes made before stay. *)
Definition saveStateToStorage (sessionId : string) (dataState : JS.value)
    (activeTab currentView : string) (now : Z) (st : gmap string LocalStorageAdapter.cell)
  : gmap string LocalStorageAdapter.cell :=
  match serializeState dataState with
  | JS.Throw _ => st
  | JS.Normal serializedDataState =>
      match LocalStorageAdapter.setItem (getSessionStorageKey sessionId)
              (LocalStorageAdapter.JSON_stringify_cell
                 (stateToSave serializedDataState activeTab currentView now)) st with
      | JS.Throw _ => st
      | JS.Normal st1 =>
          match JS.get_prop dataState "data" with
          | JS.Throw _ => st1
          | JS.Normal data =>
              if JS.falsy data then st1
              else
                match LocalStorageAdapter.setItem ACTIVE_SESSION_KEY
                        (LocalStorageAdapter.Text sessionId) st1 with
                | JS.Throw _ => st1
                | JS.Normal st2 =>
                    match
                      fileName <-? JS.get_prop dataState "fileName" ;;
                      dataLength <-? length_of data ;;
                      LocalStorageAdapter.setItem HAS_DATA_KEY
                        (LocalStorageAdapter.JSON_stringify_cell
                           (JS.VObject
                              [("sessionId", JS.VString sessionId);
                               ("fileName", fileName);
                               ("dataLength", dataLength);
                               ("hasData", JS.VBool true)])) st2
                    with
                    | JS.Throw _ => st2
                    | JS.Normal st3 => st3
                    end
                end
          end
      end
  end.

(** The [try] block of [loadStateFromStorage] after [JSON.parse]:
    [Normal None] is a [return null] that follows a [clearStoredState]. *)
Definition restore (parsed : JS.value) (now : Z) : JS.Completion (option JS.value) :=
  version <-? JS.get_prop parsed "version" ;;
  if negb (is_string STORAGE_VERSION version) then JS.Normal None
  else
    timestamp <-? JS.get_prop parsed "timestamp" ;;
    timestamp <-? ToNumber timestamp ;;
    let isOld :=
      match JS.num_sub (Some now) timestamp with
      | Some age => bool_decide (7 * 24 * 60 * 60 * 1000 < age)
      | None => false
      end in
    if isOld then JS.Normal None
    else
      dataState <-? JS.get_prop parsed "dataState" ;;
      deserializedDataState <-? deserializeState dataState ;;
      selectedRows <-? JS.get_prop deserializedDataState "selectedRows" ;;
      if negb (JS.falsy selectedRows) && negb (has_method selectedRows) then JS.Normal None
      else
        activeTab <-? JS.get_prop parsed "activeTab" ;;
        similarRows <-? JS.get_prop parsed "similarRows" ;;
        currentView <-? JS.get_prop parsed "currentView" ;;
        JS.Normal (Some (JS.VObject
          [("dataState", deserializedDataState);
           ("activeTab", activeTab);
           ("similarRows", similarRows);
           ("currentView", currentView)])).

(** [loadStateFromStorage(sessionId)] *)
Definition loadStateFromStorage (sessionId : option string) (now : Z)
    (st : gmap string LocalStorageAdapter.cell)
  : option JS.value * gmap string LocalStorageAdapter.cell :=
  match given sessionId with
  | None => (None, st)
  | Some id =>
      let stored := LocalStorageAdapter.getItem (getSessionStorageKey id) st in
      match stored with
      | None => (None, st)
      | Some c =>
          if LocalStorageAdapter.no_data stored then (None, st)
          else
            match parsed <-? LocalStorageAdapter.JSON_parse c ;;
                  restore (JS.of_json parsed) now with
            | JS.Normal (Some loaded) => (Some loaded, st)
            | JS.Normal None => (None, clearStoredState (Some id) st)
            | JS.Throw _ => (None, clearStoredState (Some id) st)
            end
      end
  end.

(** [getActiveSessionId()] *)
Definition getActiveSessionId (st : gmap string LocalStorageAdapter.cell) : option string :=
  LocalStorageAdapter.cell_text <$> LocalStorageAdapter.getItem ACTIVE_SESSION_KEY st.

(** [hasStoredData(sessionId?)] *)
Definition hasStoredData (sessionId : option string)
    (st : gmap string LocalStorageAdapter.cell) : bool :=
  match given sessionId with
  | Some id => bool_decide (is_Some (LocalStorageAdapter.getItem (getSessionStorageKey id) st))
  | None =>
      let hasDataInfo := LocalStorageAdapter.getItem HAS_DATA_KEY st in
      match hasDataInfo with
      | None => false
      | Some c =>
          if LocalStorageAdapter.no_data hasDataInfo then false
          else
            match parsed <-? LocalStorageAdapter.JSON_parse c ;;
                  JS.get_prop (JS.of_json parsed) "hasData" with
            | JS.Normal (JS.VBool true) => true
            | _ => false
            end
      end
  end.

(** [deleteSession(sessionId)] *)
Definition deleteSession (sessionId : string) (st : gmap string LocalStorageAdapter.cell)
  : gmap string LocalStorageAdapter.cell :=
  clearStoredState (Some sessionId) st.
End WithPlatform.
End StatePersistence.
(** ** Vocabulary of the first persistence layer *)

Section LegacyVocabulary.
Context `{JS.Platform}.

(** No two elements are the same for [SameValueZero]: the elements of a
    [Set], the keys of a [Map]. *)
Fixpoint distinct (items : list JS.value) : bool :=
  match items with
  | [] => true
  | x :: items' => negb (existsb (StatePersistence.same_value_zero x) items') && distinct items'
  end.

(** The values the tagging serialiser carries through JSON: time stamps that
    survive [toISOString] and [new Date] anywhere among arrays and objects,
    sets and maps of plain JSON data, objects without an own [__proto__] and
    without a truthy [__type], and no [undefined] or [NaN]. *)
Fixpoint taggable (v : JS.value) : bool :=
  match v with
  | JS.VNull | JS.VBool _ | JS.VNumber _ | JS.VString _ => true
  | JS.VDate d => JS.survives (JS.VDate d)
  | JS.VArray items => forallb taggable items
  | JS.VObject props =>
      bool_decide (NoDup props.*1)
      && bool_decide ("__proto__" ∉ props.*1)
      && JS.falsy (default JS.VUndefined (JS.map_get "__type" props))
      && forallb (λ kv, taggable kv.2) props
  | JS.VSet items => forallb JS.plain items && distinct items
  | JS.VMap entries =>
      forallb (λ kv, JS.plain kv.1 && JS.plain kv.2) entries && distinct entries.*1
  | JS.VUndefined | JS.VNaN => false
  end.
End LegacyVocabulary.

(** ** Vocabulary of the synchronisation of one session *)

Section SyncVocabulary.
Context {W : Type}.

(** The world after the record [latest] was saved, as ['data'], through every
    adapter of [todo] whose name is not the one of the adapter that holds
    it. *)
Definition written_to (sessionId : string) (latest : StateAdapter.t W * PersistedState.t)
    (todo : list (StateAdapter.t W)) (w : W) : W :=
  foldl
    (λ w adapter,
       (StateAdapter.saveState adapter sessionId (PersistedState.dataState latest.2)
          (PersistedState.activeTab latest.2) SaveData w).2)
    w (filter (λ adapter, StateAdapter.name adapter ≠ StateAdapter.name latest.1) todo).
End SyncVocabulary.

(** ** Vocabulary of what a method reads *)

Section ReadsVocabulary.
Context {W : Type}.

(** The method [m] reads nothing of the orchestrator but the registered
    adapters, and leaves the orchestrator as it is: on two orchestrators with
    the same adapters (whatever their strategy, conflict policy, retry
    settings, timer and queue) it answers alike and leaves the same world. *)
Definition reads_adapters_only {A} (m : M (StateSync.t W * W) A) : Prop :=
  ∀ o o' w,
    StateSync.adapters o' = StateSync.adapters o →
    m (o', w) = ((m (o, w)).1, (o', (m (o, w)).2.2)).
End ReadsVocabulary.

(** The conversions of a reference platform, as far as the examples need
    them: a string is taken not to spell a number. *)
Module ReferenceNumbers.

Definition ToNumber (v : JS.value) : JS.Completion (option Z) :=
  match v with
  | JS.VNumber n => JS.Normal (Some n)
  | JS.VNull => JS.Normal (Some 0)
  | JS.VBool b => JS.Normal (Some (if b then 1 else 0))
  | JS.VDate d => JS.Normal (JS.getTime d)
  | _ => JS.Normal None
  end.

Definition numbers : StatePersistence.Numbers :=
  {| StatePersistence.ToNumber := ToNumber; StatePersistence.ToNumber_number := λ n, eq_refl |}.
End ReferenceNumbers.

(** ** Example inputs of the first persistence layer *)

Module LegacyFixtures.
Import Examples.

#[local] Existing Instance ISO8601.platform.
#[local] Existing Instance ReferenceBrowser.browser.
#[local] Existing Instance ReferenceNumbers.numbers.

(** A state of the front end: rows, labels with their dates, the selected
    rows as a [Set] and the labels of the rows as a [Map]. *)
Definition state : JS.value :=
  JS.VObject
    [("data", JS.VArray [a_row]);
     ("fileName", JS.VString "statement.csv");
     ("labels", JS.VArray [a_label]);
     ("selectedRows", JS.VSet [JS.VString "row-1"]);
     ("rowLabels", JS.VMap [(JS.VString "row-1", JS.VString "label-1")]);
     ("isLoading", JS.VBool false)].

(** A store whose record of [s1] is not JSON, with [s1] as the active
    session. *)
Definition unreadable : gmap string LocalStorageAdapter.cell :=
  <[StatePersistence.ACTIVE_SESSION_KEY := LocalStorageAdapter.Text "s1"]>
    (<[StatePersistence.getSessionStorageKey "s1" := LocalStorageAdapter.Text "not json"]> ∅).
End LegacyFixtures.

(** * Properties *)

(** ** Sorting *)

Section SortFacts.
Context {A : Type} (cmp : A → A → option Z).

Lemma sort_insert_perm x l : JS.sort_insert cmp x l ≡ₚ x :: l.
Proof.
  induction l as [|y l IH]; simpl; [done|].
  case_bool_decide; [|done].
  rewrite IH. apply Permutation_swap.
Qed.

Lemma sort_perm l : JS.sort cmp l ≡ₚ l.
Proof.
  induction l as [|x l IH]; simpl; [done|].
  unfold JS.sort in *. simpl. by rewrite sort_insert_perm, IH.
Qed.
End SortFacts.

Section SortedByTime.
Context {A : Type} (time : A → option Z).

Lemma sort_insert_newest_first x l :
  is_Some (time x) → Forall (λ y, is_Some (time y)) l →
  StronglySorted (not_older time) l →
  StronglySorted (not_older time) (JS.sort_insert (newest_first time) x l).
Proof.
  intros [tx Hx] Hl Hs. induction Hs as [|y l Hs IH Hy]; simpl.
  - repeat constructor.
  - apply Forall_cons in Hl as [[ty Hty] Hl].
    assert (newest_first time x y = Some (ty - tx)) as ->
      by (unfold newest_first; by rewrite Hx, Hty).
    simpl. case_bool_decide as Hc.
    + constructor; [by apply IH|].
      rewrite sort_insert_perm. constructor; [|done].
      exists ty, tx. split_and!; [done..|lia].
    + constructor; [by constructor|].
      constructor; [exists tx, ty; split_and!; [done..|lia]|].
      eapply Forall_impl; [exact Hy|]. intros z (ty' & tz & Hy' & Hz & Hle).
      rewrite Hty in Hy'. injection Hy' as <-.
      exists tx, tz. split_and!; [done..|lia].
Qed.

Lemma sort_newest_first l :
  Forall (λ y, is_Some (time y)) l →
  StronglySorted (not_older time) (JS.sort (newest_first time) l).
Proof.
  induction 1 as [|x l Hx Hl IH]; [constructor|].
  change (JS.sort (newest_first time) (x :: l))
    with (JS.sort_insert (newest_first time) x (JS.sort (newest_first time) l)).
  apply sort_insert_newest_first; [done| |done].
  by rewrite sort_perm.
Qed.
End SortedByTime.

(** ** Insertion-ordered maps *)

Section OrderedMapFacts.
Context {V : Type}.
Implicit Types m : list (string * V).

Lemma map_keys_set k v m k' :
  k' ∈ JS.map_keys (JS.map_set k v m) ↔ k' = k ∨ k' ∈ JS.map_keys m.
Proof.
  unfold JS.map_keys. induction m as [|[k0 v0] m IH]; simpl.
  - rewrite list_elem_of_singleton, elem_of_nil. tauto.
  - case_decide; subst; simpl; rewrite ?elem_of_cons, ?IH; tauto.
Qed.

Lemma map_keys_delete k m k' :
  k' ∈ JS.map_keys (JS.map_delete k m) ↔ k' ≠ k ∧ k' ∈ JS.map_keys m.
Proof.
  unfold JS.map_keys, JS.map_delete. rewrite !list_elem_of_fmap. split.
  - intros ([k0 v0] & -> & [Hne Hin]%list_elem_of_filter). simpl in *.
    split; [done|]. by exists (k0, v0).
  - intros (Hne & [k0 v0] & -> & Hin). exists (k0, v0). split; [done|].
    by apply list_elem_of_filter.
Qed.
End OrderedMapFacts.

Section OrderedMapValues.
Context {V : Type} (P : V → Prop).

End OrderedMapValues.

(** ** Functions that commute *)

Section Idempotent.
Context {W : Type}.
Implicit Types fs : list (W → W).


End Idempotent.


(** ** The orchestrator: what every method keeps *)

Section Pending.
Context {W : Type} (now : W → Z) (delay : Z → W → W).
Abbreviation Sys := (@StateSync.Sys W).

Context (I : StateSync.t W → Prop).

Lemma preserves_ret {A} (a : A) : preserves I (ret a).
Proof. by intros s. Qed.

Lemma preserves_bind {A B} (m : M Sys A) (k : A → M Sys B) :
  preserves I m → (∀ a, preserves I (k a)) → preserves I (bind m k).
Proof.
  intros Hm Hk s Hs. unfold bind. specialize (Hm s Hs).
  destruct (m s) as [a s']. by apply Hk.
Qed.

Lemma preserves_call {A} (f : W → A * W) : preserves I (StateSync.call f).
Proof. intros [o w] Hs. unfold StateSync.call. simpl. by destruct (f w). Qed.

Lemma preserves_this : preserves I StateSync.this.
Proof. by intros s. Qed.

Lemma preserves_now : preserves I (StateSync.new_Date_now now).
Proof. by intros s. Qed.

Lemma preserves_this_bind {B} (k : StateSync.t W → M Sys B) :
  (∀ o, I o → preserves I (k o)) → preserves I (bind StateSync.this k).
Proof. intros Hk s Hs. unfold bind, StateSync.this. by apply Hk. Qed.

Lemma preserves_call_bind {A B} (f : W → A * W) (k : A → M Sys B) :
  (∀ w, preserves I (k (f w).1)) → preserves I (bind (StateSync.call f) k).
Proof.
  intros Hk [o w] Hs. unfold bind, StateSync.call. simpl.
  specialize (Hk w). destruct (f w) as [a w']. by apply Hk.
Qed.
End Pending.

Ltac pres :=
  repeat match goal with
    | |- preserves _ (ret _) => apply preserves_ret
    | |- preserves _ (StateSync.call _) => apply preserves_call
    | |- preserves _ StateSync.this => apply preserves_this
    | |- preserves _ (StateSync.new_Date_now _) => apply preserves_now
    | |- preserves _ (bind _ _) => apply preserves_bind; [|intros ?]
    | |- preserves _ (if ?c then _ else _) => destruct c
    | |- preserves _ (match ?x with _ => _ end) => destruct x
    end.

Section Retained.
Context {W : Type} (now : W → Z) (delay : Z → W → W).
Context (o0 : StateSync.t W) (sid : string).

Hypothesis Hfail : push_never_succeeds o0 sid.

Lemma queued_set_syncTimer v : preserves (queued o0 sid) (StateSync.set_syncTimer v).
Proof. by intros [o w] [??]. Qed.

Lemma queued_map_set k v : preserves (queued o0 sid) (StateSync.set_pendingSyncs (JS.map_set k v)).
Proof.
  intros [o w] [??]. split; [done|]. simpl. apply map_keys_set. by right.
Qed.

Lemma queued_map_delete k :
  k ≠ sid → preserves (queued o0 sid) (StateSync.set_pendingSyncs (JS.map_delete k)).
Proof.
  intros Hne [o w] [??]. split; [done|]. simpl. apply map_keys_delete. done.
Qed.

Lemma queued_push_then_delete b k ds tab ty :
  JS.map_get "backend" (StateSync.adapters o0) = Some b →
  preserves (queued o0 sid)
    (bind (StateSync.call (StateAdapter.saveState b k ds tab ty))
       (λ result, if SyncResult.success result
                  then StateSync.set_pendingSyncs (JS.map_delete k)
                  else ret tt)).
Proof.
  intros Hb. apply preserves_call_bind. intros w.
  destruct (decide (k = sid)) as [->|Hne].
  - rewrite (Hfail _ _ _ _ _ Hb). apply preserves_ret.
  - destruct (SyncResult.success _); [by apply queued_map_delete|apply preserves_ret].
Qed.

Lemma queued_queueBackendSync k ds tab ty :
  preserves (queued o0 sid) (StateSync.queueBackendSync now k ds tab ty).
Proof.
  unfold StateSync.queueBackendSync. apply preserves_this_bind. intros o [Ho _].
  rewrite Ho. destruct (JS.map_get _ _) as [b|] eqn:Hb; [|apply preserves_ret].
  apply preserves_bind; [apply preserves_now|intros d].
  apply preserves_bind; [apply queued_map_set|intros _].
  by apply queued_push_then_delete.
Qed.

Lemma queued_saveToAdapter_loop n e rd a k ds tab ty :
  preserves (queued o0 sid) (StateSync.saveToAdapter_loop now delay n e rd a k ds tab ty).
Proof.
  revert e. induction n as [|n IH]; intros e; simpl; pres. apply IH.
Qed.

Lemma queued_saveToAdapter a k ds tab ty :
  preserves (queued o0 sid) (StateSync.saveToAdapter now delay a k ds tab ty).
Proof. unfold StateSync.saveToAdapter. pres. apply queued_saveToAdapter_loop. Qed.

Lemma queued_saveState_loop todo results k ds tab ty :
  preserves (queued o0 sid) (StateSync.saveState_loop now delay todo results k ds tab ty).
Proof.
  revert results. induction todo as [|a todo IH]; intros results; simpl.
  - pres.
  - apply preserves_bind; [apply queued_saveToAdapter|intros r].
    pres; auto using queued_queueBackendSync.
Qed.

Lemma queued_saveState k ds tab ty :
  preserves (queued o0 sid) (StateSync.saveState now delay k ds tab ty).
Proof. unfold StateSync.saveState. pres. apply queued_saveState_loop. Qed.

Lemma queued_loadState k : preserves (queued o0 sid) (StateSync.loadState k).
Proof.
  unfold StateSync.loadState. apply preserves_bind; [pres|intros o].
  apply preserves_bind; [|intros states; pres].
  generalize (@nil (string * PersistedState.t)).
  induction (StateSync.getAdaptersByStrategy o) as [|a todo IH]; intros states; simpl; pres.
  apply IH.
Qed.

Lemma queued_deleteSession k : preserves (queued o0 sid) (StateSync.deleteSession now k).
Proof.
  unfold StateSync.deleteSession. apply preserves_bind; [pres|intros o].
  apply preserves_bind; [|intros results; pres].
  generalize (@nil SyncResult.t).
  induction (JS.map_values (StateSync.adapters o)) as [|a todo IH]; intros results; simpl; pres.
  apply IH.
Qed.

Lemma queued_listSessions : preserves (queued o0 sid) StateSync.listSessions.
Proof.
  unfold StateSync.listSessions. apply preserves_bind; [pres|intros o].
  apply preserves_bind; [|intros results; pres].
  generalize (@nil (string * SessionMetadata.t)).
  induction (JS.map_values (StateSync.adapters o)) as [|a todo IH]; intros results; simpl; pres.
  apply IH.
Qed.

Lemma queued_hasSession k : preserves (queued o0 sid) (StateSync.hasSession k).
Proof.
  unfold StateSync.hasSession. apply preserves_bind; [pres|intros o].
  induction (JS.map_values (StateSync.adapters o)) as [|a todo IH]; simpl; pres.
  apply IH.
Qed.

Lemma queued_for_each todo f : preserves (queued o0 sid) (StateSync.for_each todo f).
Proof. induction todo as [|a todo IH]; simpl; pres. apply IH. Qed.

Lemma queued_clearAll : preserves (queued o0 sid) (StateSync.clearAll now).
Proof.
  unfold StateSync.clearAll. apply preserves_bind; [pres|intros o].
  apply preserves_bind; [|intros results; pres].
  generalize (@nil SyncResult.t).
  induction (JS.map_values (StateSync.adapters o)) as [|a todo IH]; intros results; simpl; pres.
  apply IH.
Qed.

Lemma queued_collect_states todo k : preserves (queued o0 sid) (StateSync.collect_states todo k).
Proof. induction todo as [|a todo IH]; simpl; pres. apply IH. Qed.

Lemma queued_syncSession k : preserves (queued o0 sid) (StateSync.syncSession k).
Proof.
  unfold StateSync.syncSession. apply preserves_bind; [pres|intros o].
  apply preserves_bind; [apply queued_collect_states|intros collected].
  destruct (JS.reduce _ _) as [latest|]; [|pres].
  induction (JS.map_values (StateSync.adapters o)) as [|a todo IH]; simpl; pres; apply IH.
Qed.

Lemma queued_syncNow : preserves (queued o0 sid) StateSync.syncNow.
Proof.
  unfold StateSync.syncNow. apply preserves_bind; [apply queued_listSessions|intros sessions].
  induction sessions as [|x l IH]; simpl; pres; [apply queued_syncSession|apply IH].
Qed.

Lemma queued_getSyncStatus k : preserves (queued o0 sid) (StateSync.getSyncStatus k).
Proof.
  unfold StateSync.getSyncStatus. apply preserves_bind; [pres|intros o].
  apply preserves_bind; [apply queued_collect_states|intros collected]. pres.
Qed.

Lemma queued_healthCheck : preserves (queued o0 sid) StateSync.healthCheck.
Proof.
  unfold StateSync.healthCheck. apply preserves_bind; [pres|intros o].
  generalize (@nil (string * bool)).
  induction (StateSync.adapters o) as [|[n a] todo IH]; intros health; simpl; pres.
  apply IH.
Qed.

Lemma queued_stopAutoSync : preserves (queued o0 sid) StateSync.stopAutoSync.
Proof.
  intros [o w] [??]. unfold StateSync.stopAutoSync, modify, StateSync.stopAutoSync_obj. simpl.
  by destruct (StateSync.syncTimer o).
Qed.

Lemma queued_startAutoSync : preserves (queued o0 sid) StateSync.startAutoSync.
Proof.
  intros [o w] [??].
  unfold StateSync.startAutoSync, modify, StateSync.startAutoSync_obj,
    StateSync.stopAutoSync_obj. simpl.
  destruct (StateSync.syncTimer o); simpl;
    destruct (SyncConfig.syncInterval _); simpl; try case_decide; done.
Qed.

Lemma queued_syncPendingChanges : preserves (queued o0 sid) StateSync.syncPendingChanges.
Proof.
  unfold StateSync.syncPendingChanges. apply preserves_this_bind. intros o [Ho _].
  rewrite Ho. destruct (JS.map_get _ _) as [b|] eqn:Hb; [|apply preserves_ret].
  induction (StateSync.pendingSyncs o) as [|[k st] entries IH]; simpl; [pres|].
  apply preserves_call_bind. intros w.
  apply preserves_bind; [|intros _; apply IH].
  destruct (decide (k = sid)) as [->|Hne].
  - rewrite (Hfail _ _ _ _ _ Hb). apply preserves_ret.
  - destruct (SyncResult.success _); [by apply queued_map_delete|apply preserves_ret].
Qed.

Lemma queued_exec op : preserves (queued o0 sid) (StateSync.exec now delay op).
Proof.
  destruct op; simpl; pres;
    auto using queued_saveState, queued_loadState, queued_deleteSession,
      queued_listSessions, queued_hasSession, queued_for_each, queued_clearAll,
      queued_syncNow, queued_getSyncStatus, queued_healthCheck,
      queued_stopAutoSync, queued_startAutoSync, queued_syncPendingChanges.
  - unfold StateSync.getActiveSessionId. pres.
  - unfold StateSync.setActiveSessionId. pres. apply queued_for_each.
  - unfold StateSync.clearActiveSessionId. pres. apply queued_for_each.
Qed.

Lemma queued_run ops s : queued o0 sid s.1 → queued o0 sid (StateSync.run now delay ops s).1.
Proof.
  revert s. induction ops as [|op ops IH]; intros s Hs; simpl; [done|].
  apply IH. by apply queued_exec.
Qed.
End Retained.


(** ** The orchestrator: conflict resolution *)

Section Latest.
Context {A : Type} (updatedAt : A → JS.Date).

Lemma later_newest x0 t x :
  updatedAt x0 = JS.ValidDate t → newest_or_older updatedAt x0 t x →
  StateSync.later updatedAt x0 x = x0.
Proof.
  intros H0 [->|(t1 & H1 & Hlt)]; unfold StateSync.later, JS.date_gt.
  - rewrite H0. simpl. by case_bool_decide.
  - rewrite H0, H1. simpl. case_bool_decide; [lia|done].
Qed.

Lemma later_older x0 t x :
  updatedAt x0 = JS.ValidDate t → (∃ t1, updatedAt x = JS.ValidDate t1 ∧ t1 < t) →
  StateSync.later updatedAt x x0 = x0.
Proof.
  intros H0 (t1 & H1 & Hlt). unfold StateSync.later, JS.date_gt.
  rewrite H0, H1. simpl. case_bool_decide; [done|lia].
Qed.

Lemma foldl_later_newest x0 t acc l :
  updatedAt x0 = JS.ValidDate t →
  newest_or_older updatedAt x0 t acc → Forall (newest_or_older updatedAt x0 t) l →
  acc = x0 ∨ x0 ∈ l →
  foldl (StateSync.later updatedAt) acc l = x0.
Proof.
  intros H0. revert acc. induction l as [|y l IH]; intros acc Hacc Hl Hin; simpl.
  - destruct Hin as [|Hin]; [done|]. by apply elem_of_nil in Hin.
  - apply Forall_cons in Hl as [Hy Hl].
    destruct Hacc as [->|Hold].
    + rewrite (later_newest _ t) by done. apply IH; auto. by left.
    + destruct Hy as [->|Hy].
      * rewrite (later_older _ t) by done. apply IH; auto. by left.
      * destruct Hin as [->|Hin].
        { destruct Hold as (t1 & H1 & Hlt). rewrite H0 in H1. injection H1 as ->. lia. }
        apply elem_of_cons in Hin as [->|Hin].
        { destruct Hy as (t1 & H1 & Hlt). rewrite H0 in H1. injection H1 as ->. lia. }
        apply IH; auto.
        unfold StateSync.later. destruct (JS.date_gt _ _); by right.
Qed.

Lemma reduce_later_newest x0 t l :
  updatedAt x0 = JS.ValidDate t →
  Forall (newest_or_older updatedAt x0 t) l → x0 ∈ l →
  JS.reduce (StateSync.later updatedAt) l = Some x0.
Proof.
  intros H0 Hl Hin. destruct l as [|y l]; [by apply elem_of_nil in Hin|].
  simpl. f_equal. apply Forall_cons in Hl as [Hy Hl].
  apply (foldl_later_newest _ t); auto.
  apply elem_of_cons in Hin as [->|Hin]; auto.
Qed.
End Latest.

Section Orchestrator.
Context {W : Type} (now : W → Z) (delay : Z → W → W).
Abbreviation Sys := (@StateSync.Sys W).

Lemma resolveConflict_latest_wins (o : StateSync.t W) states x0 t :
  SyncConfig.conflictResolution (StateSync.config o) = "latest-wins" →
  PersistedState.updatedAt x0.2 = JS.ValidDate t →
  Forall (newest_or_older (λ s : string * PersistedState.t, PersistedState.updatedAt s.2) x0 t) states →
  x0 ∈ states →
  StateSync.resolveConflict o states = Some x0.2.
Proof.
  intros Hpol H0 Hall Hin. unfold StateSync.resolveConflict. rewrite Hpol.
  repeat (case_decide; [done|]).
  by rewrite (reduce_later_newest _ x0 t).
Qed.

End Orchestrator.

(** ** The orchestrator: results of the loops *)

Section LoopResults.
Context {W : Type} (now : W → Z) (delay : Z → W → W).
Abbreviation Sys := (@StateSync.Sys W).

Lemma find_success_first (results : list SyncResult.t) r :
  find SyncResult.success results = Some r →
  ∃ pre post, results = pre ++ r :: post ∧
    Forall failed pre ∧ SyncResult.success r = true.
Proof.
  induction results as [|x l IH]; simpl; [done|].
  destruct (SyncResult.success x) eqn:Hx.
  - intros [= <-]. by exists [], l.
  - intros (pre & post & -> & Hpre & Hr)%IH.
    exists (x :: pre), post. split_and!; [done| |done]. by constructor.
Qed.

Lemma find_success_none (results : list SyncResult.t) :
  Forall failed results → find SyncResult.success results = None.
Proof.
  induction 1 as [|x l Hx _ IH]; simpl; [done|]. by rewrite Hx.
Qed.

Lemma find_success_some (results : list SyncResult.t) :
  Exists (λ r, SyncResult.success r = true) results →
  is_Some (find SyncResult.success results).
Proof.
  induction 1 as [x l Hx|x l _ IH]; simpl.
  - by rewrite Hx.
  - by destruct (SyncResult.success x).
Qed.

(** Each entry of [results] is what [saveToAdapter] returned for the
    adapter at the same position of the list the loop walks. *)
Lemma saveState_loop_results todo results0 sid ds tab ty (s : Sys) :
  ∃ new,
    (StateSync.saveState_loop now delay todo results0 sid ds tab ty s).1 = results0 ++ new ∧
    (length new ≤ length todo)%nat ∧
    ∀ (i : nat) r, new !! i = Some r →
      ∃ a si, todo !! i = Some a ∧
        (StateSync.saveToAdapter now delay a sid ds tab ty si).1 = r.
Proof.
  revert results0 s. induction todo as [|a todo IH]; intros results0 s; simpl.
  { exists []. rewrite app_nil_r. split_and!; [done|done|]. by intros i r. }
  unfold bind at 1.
  destruct (StateSync.saveToAdapter now delay a sid ds tab ty s) as [result s1] eqn:Hres.
  unfold bind at 1, StateSync.this at 1. simpl.
  destruct (_ && _ && SyncResult.success result).
  - exists [result]. split_and!; [done|simpl; lia|].
    intros [|i] r; simpl; [|done]. intros [= <-]. exists a, s. by rewrite Hres.
  - match goal with |- context [bind ?m _ s1] =>
      destruct (m s1) as [[] s2] eqn:Hm; unfold bind at 1; rewrite Hm end.
    destruct (IH (results0 ++ [result]) s2) as (new & Hnew & Hlen & Hi).
    exists (result :: new). split_and!.
    + rewrite Hnew. by rewrite <-app_assoc.
    + simpl; lia.
    + intros [|i] r; simpl.
      * intros [= <-]. exists a, s. by rewrite Hres.
      * apply Hi.
Qed.

(** *** deleteSession *)

Lemma deleteSession_loop_results todo results0 sid (s : Sys) :
  ∃ new w',
    StateSync.deleteSession_loop todo results0 sid s = (results0 ++ new, (s.1, w')) ∧
    length new = length todo ∧
    ∀ (i : nat) r, new !! i = Some r →
      ∃ a wi, todo !! i = Some a ∧ (StateAdapter.deleteSession a sid wi).1 = r.
Proof.
  revert results0 s. induction todo as [|a todo IH]; intros results0 [o w]; simpl.
  { exists [], w. rewrite app_nil_r. split_and!; [done..|]. by intros i r. }
  unfold bind at 1, StateSync.call. simpl.
  destruct (StateAdapter.deleteSession a sid w) as [result w1] eqn:Hres.
  destruct (IH (results0 ++ [result]) (o, w1)) as (new & w' & Hnew & Hlen & Hi).
  exists (result :: new), w'. split_and!.
  - rewrite Hnew. by rewrite <-app_assoc.
  - simpl; lia.
  - intros [|i] r; simpl.
    + intros [= <-]. exists a, w. by rewrite Hres.
    + apply Hi.
Qed.

End LoopResults.

(** ** The orchestrator: construction, listing, deletion *)

Section Listing.
Context {W : Type} (now : W → Z) (delay : Z → W → W).
Abbreviation Sys := (@StateSync.Sys W).

(** *** The constructor *)

(** *** listSessions *)


Lemma listSessions_loop_listed todo allSessions (o : StateSync.t W) (w : W) :
  (StateSync.listSessions_loop todo allSessions (o, w)).1 =
    foldl StateSync.merge_sessions allSessions (listed todo w).
Proof.
  revert allSessions w. induction todo as [|a todo IH]; intros allSessions w; simpl; [done|].
  unfold bind, StateSync.call. simpl.
  destruct (StateAdapter.listSessions a w) as [sessions w1]. simpl. apply IH.
Qed.

Lemma listSessions_unfold (o : StateSync.t W) (w : W) :
  (StateSync.listSessions (o, w)).1 =
    JS.sort StateSync.by_lastModified_desc
      (JS.map_values
         (foldl StateSync.merge_sessions [] (listed (JS.map_values (StateSync.adapters o)) w))).
Proof.
  rewrite <-(listSessions_loop_listed _ _ o).
  unfold StateSync.listSessions, bind, StateSync.this, ret. simpl.
  by destruct (StateSync.listSessions_loop _ _ _).
Qed.



(** *** deleteSession, seen from the world *)

Lemma deleteSession_world (sid : string) (o : StateSync.t W) (w : W) :
  (StateSync.deleteSession now sid (o, w)).2 =
    (o, foldl (λ x g, g x) w (delete_in sid <$> JS.map_values (StateSync.adapters o))).
Proof.
  unfold StateSync.deleteSession, bind, StateSync.this, ret, StateSync.new_Date_now. simpl.
  generalize (@nil SyncResult.t).
  revert w. induction (JS.map_values (StateSync.adapters o)) as [|a todo IH];
    intros w results; simpl; [done|].
  unfold bind at 1, StateSync.call. simpl.
  assert (delete_in sid a w = (StateAdapter.deleteSession a sid w).2) as -> by done.
  destruct (StateAdapter.deleteSession a sid w) as [r w1]. simpl. apply IH.
Qed.


Lemma deleteSession_keeps_pendingSyncs (sid : string) (s : Sys) :
  StateSync.pendingSyncs (StateSync.deleteSession now sid s).2.1 = StateSync.pendingSyncs s.1.
Proof. destruct s as [o w]. by rewrite deleteSession_world. Qed.
End Listing.

(** ** JSON: what survives [stringify] and [parse] *)

Section JsonFacts.
Context `{JS.Platform}.

Lemma stringify_object props :
  JS.JSON_stringify (JS.VObject props) = Some (JS.JObject (JS.stringify_props props)).
Proof. done. Qed.

Lemma stringify_array items :
  JS.JSON_stringify (JS.VArray items) = Some (JS.JArray (JS.stringify_items items)).
Proof. done. Qed.

Lemma of_json_object props :
  JS.of_json (JS.JObject props) = JS.VObject (JS.of_json_props props).
Proof. done. Qed.

Lemma plain_reparsed v :
  JS.plain v = true → ∃ j, JS.JSON_stringify v = Some j ∧ JS.of_json j = v.
Proof.
  induction v as [| | | | | | |items IH|props IH|items IH|entries IH]
    using value_nested_ind; try done; try (by eexists).
  - intros Hp. rewrite stringify_array. eexists. split; [done|]. simpl. f_equal.
    simpl in Hp. induction IH as [|x l Hx _ IHl]; simpl; [done|].
    simpl in Hp. apply andb_prop in Hp as [Hp1 Hp2].
    destruct (Hx Hp1) as (j & Hj & Hv). unfold JS.stringify_items in *. simpl.
    rewrite Hj. simpl. rewrite Hv. f_equal. by apply IHl.
  - intros Hp. rewrite stringify_object. eexists. split; [done|].
    rewrite of_json_object. f_equal.
    simpl in Hp. induction IH as [|[k x] l Hx _ IHl]; simpl; [done|].
    simpl in Hp. apply andb_prop in Hp as [Hp1 Hp2].
    destruct (Hx Hp1) as (j & Hj & Hv). simpl in Hj, Hv. rewrite Hj. simpl. rewrite Hv.
    f_equal. by apply IHl.
Qed.
End JsonFacts.

(** ** Property lists *)

Section AssocFacts.
Context {V : Type}.
Implicit Types m : list (string * V).

Lemma map_get_None k m : k ∉ m.*1 → JS.map_get k m = None.
Proof.
  induction m as [|[k0 v0] m IH]; simpl; [done|].
  rewrite not_elem_of_cons. intros [Hne Hnin]. case_decide; [congruence|auto].
Qed.

Lemma map_get_Some_elem k v m : JS.map_get k m = Some v → (k, v) ∈ m.
Proof.
  induction m as [|[k0 v0] m IH]; simpl; [done|].
  case_decide; [intros [= <-]; subst; by left|]. intros. right. auto.
Qed.

Lemma map_get_set k v m k' :
  JS.map_get k' (JS.map_set k v m) = if decide (k = k') then Some v else JS.map_get k' m.
Proof.
  induction m as [|[k0 v0] m IH]; simpl.
  - repeat case_decide; congruence.
  - repeat (case_decide; simpl; subst); try congruence.
Qed.

Lemma map_set_keys k v m : k ∈ m.*1 → (JS.map_set k v m).*1 = m.*1.
Proof.
  induction m as [|[k0 v0] m IH]; simpl; [by intros ?%elem_of_nil|].
  case_decide; subst; simpl; [done|].
  intros [?|?]%elem_of_cons; [congruence|]. f_equal. auto.
Qed.

Lemma map_get_fmap {V'} (f : V → V') k m :
  JS.map_get k (prod_map id f <$> m) = f <$> JS.map_get k m.
Proof.
  induction m as [|[k0 v0] m IH]; simpl; [done|]. by case_decide.
Qed.

Lemma assoc_ext m1 m2 :
  m1.*1 = m2.*1 → NoDup m1.*1 →
  (∀ k, JS.map_get k m1 = JS.map_get k m2) → m1 = m2.
Proof.
  revert m2. induction m1 as [|[k v1] m1 IH]; intros [|[k2 v2] m2]; simpl; try done.
  intros [= <- Hkeys'] [Hnin Hnd]%NoDup_cons Hget.
  assert (m1.*1 = m2.*1) as Hkeys by exact Hkeys'.
  pose proof (Hget k) as Hk. simpl in Hk. rewrite !decide_True in Hk by done.
  injection Hk as <-. f_equal. apply IH; [done..|].
  intros k'. destruct (decide (k = k')) as [<-|Hne].
  - rewrite (map_get_None k m1) by done.
    rewrite (map_get_None k m2) by (by rewrite <-Hkeys). done.
  - specialize (Hget k'). simpl in Hget. by rewrite !decide_False in Hget.
Qed.
End AssocFacts.

Section Restore.
Implicit Types m : list (string * JS.value).

Lemma with_props_restore m m0 more :
  m.*1 = m0.*1 → NoDup m0.*1 →
  (∀ k v, (k, v) ∈ more → JS.map_get k m0 = Some v) →
  (∀ k, k ∉ more.*1 → JS.map_get k m = JS.map_get k m0) →
  JS.with_props m more = m0.
Proof.
  unfold JS.with_props. revert m. induction more as [|[k v] more IH]; intros m Hk Hnd Hin Hout; simpl.
  - apply assoc_ext; [done|by rewrite Hk|]. intros k. apply Hout, not_elem_of_nil.
  - assert (JS.map_get k m0 = Some v) as Hv by (apply Hin; by left).
    assert (k ∈ m.*1).
    { rewrite Hk. apply map_get_Some_elem in Hv. by apply (list_elem_of_fmap_2 fst _ (k, v)). }
    apply IH; [by rewrite map_set_keys|done| |].
    + intros k' v' ?. apply Hin. by right.
    + intros k' Hk'. rewrite map_get_set. case_decide as Hd; [by subst|].
      apply Hout. simpl. rewrite not_elem_of_cons. done.
Qed.
End Restore.

(** ** Rebuilding the dates of a parsed record *)

Section Revive.
Context `{JS.Platform}.

Lemma cmapM_cons {A B} (f : A → JS.Completion B) x l :
  JS.cmapM f (x :: l) = (y <-? f x ;; ys <-? JS.cmapM f l ;; JS.Normal (y :: ys)).
Proof. done. Qed.

Lemma reparsed_props props :
  Forall (λ kv, is_Some (JS.JSON_stringify kv.2)) props →
  JS.of_json_props (JS.stringify_props props) = prod_map id reparsed <$> props.
Proof.
  induction 1 as [|[k x] props [j Hj] _ IH]; simpl; [done|].
  simpl in Hj. rewrite Hj. simpl. rewrite IH. unfold reparsed at 2. by rewrite Hj.
Qed.

Lemma reparsed_plain v : JS.plain v = true → reparsed v = v.
Proof. intros (j & Hj & Hv)%plain_reparsed. unfold reparsed. by rewrite Hj. Qed.

Lemma plain_is_Some v : JS.plain v = true → is_Some (JS.JSON_stringify v).
Proof. intros (j & Hj & Hv)%plain_reparsed. eauto. Qed.

Lemma survives_inv v :
  JS.survives v = true →
  ∃ t, v = JS.VDate (JS.ValidDate t) ∧ JS.Date_parse (JS.toISOString t) = JS.ValidDate t.
Proof.
  destruct v as [| | | | | |[t|]| | | |]; simpl; try done.
  intros Ht%bool_decide_eq_true. eauto.
Qed.

Lemma survives_revived v :
  JS.survives v = true →
  is_Some (JS.JSON_stringify v) ∧ JS.VDate (JS.new_Date (reparsed v)) = v.
Proof.
  intros (t & -> & Ht)%survives_inv. split; [by eexists|].
  unfold reparsed. simpl. by rewrite Ht.
Qed.

Lemma map_get_elem_NoDup (m : list (string * JS.value)) k x :
  NoDup m.*1 → (k, x) ∈ m → JS.map_get k m = Some x.
Proof.
  induction m as [|[k0 v0] m IH]; simpl; [by intros _ ?%elem_of_nil|].
  intros [Hnin Hnd]%NoDup_cons [[= -> ->]|Hin]%elem_of_cons.
  - by rewrite decide_True.
  - rewrite decide_False; [auto|]. intros ->. apply Hnin.
    by apply (list_elem_of_fmap_2 fst _ (k, x)).
Qed.

Lemma stamped_inv keys v :
  JS.stamped keys v = true →
  ∃ props, v = JS.VObject props ∧ NoDup props.*1 ∧
    (∀ k, k ∈ keys → ∃ x, JS.map_get k props = Some x ∧ JS.survives x = true) ∧
    (∀ k x, (k, x) ∈ props → k ∈ keys ∨ JS.plain x = true).
Proof.
  destruct v as [| | | | | | | |props| |]; simpl; try done.
  intros [[Hnd Hk]%andb_prop Hp]%andb_prop.
  apply bool_decide_eq_true in Hnd.
  exists props. split_and!; [done|done| |].
  - intros k Hin. rewrite forallb_forall in Hk.
    apply list_elem_of_In, Hk in Hin.
    destruct (JS.map_get k props) as [x|]; [|done]. by exists x.
  - intros k x Hin. rewrite forallb_forall in Hp.
    apply list_elem_of_In, Hp in Hin. simpl in Hin.
    apply orb_prop in Hin as [Hin%bool_decide_eq_true|Hin]; auto.
Qed.

Lemma with_dates_stamped keys v :
  JS.stamped keys v = true →
  LocalStorageAdapter.with_dates keys (reparsed v) = JS.Normal v.
Proof.
  intros (props & -> & Hnd & Hkeys & Hrest)%stamped_inv.
  assert (Hall : Forall (λ kv : string * JS.value, is_Some (JS.JSON_stringify kv.2)) props).
  { apply Forall_forall. intros [k x] Hin. simpl.
    destruct (Hrest k x Hin) as [Hk|Hp]; [|by apply plain_is_Some].
    destruct (Hkeys k Hk) as (x' & Hx' & Hs).
    rewrite (map_get_elem_NoDup props k x) in Hx' by done. injection Hx' as <-.
    by apply survives_revived. }
  unfold reparsed at 1. rewrite stringify_object. simpl default.
  rewrite of_json_object, reparsed_props by done.
  unfold LocalStorageAdapter.with_dates, LocalStorageAdapter.revive_dates.
  assert (Hdates : JS.cmapM (λ k, v <-? JS.get_prop
              (JS.VObject (prod_map id reparsed <$> props)) k ;;
              JS.Normal (k, JS.VDate (JS.new_Date v))) keys
            = JS.Normal ((λ k, (k, default JS.VUndefined (JS.map_get k props))) <$> keys)).
  { clear Hall Hrest. induction keys as [|k keys IH]; [done|].
    rewrite cmapM_cons, IH by (intros; apply Hkeys; by right).
    destruct (Hkeys k) as (x & Hx & Hs); [by left|].
    simpl. rewrite map_get_fmap, Hx. simpl.
    by destruct (survives_revived x Hs) as [_ ->]. }
  rewrite Hdates. simpl. do 2 f_equal.
  apply with_props_restore.
  - rewrite <-list_fmap_compose. apply list_fmap_ext. by intros ? [??].
  - done.
  - intros k v (k' & [= -> ->] & Hk')%list_elem_of_fmap.
    destruct (Hkeys k' Hk') as (x & -> & _). done.
  - intros k Hk. rewrite map_get_fmap.
    destruct (JS.map_get k props) as [x|] eqn:Hx; [|done]. simpl. f_equal.
    apply map_get_Some_elem in Hx.
    destruct (Hrest k x Hx) as [Hin|Hp]; [|by apply reparsed_plain].
    exfalso. apply Hk. rewrite <-list_fmap_compose. apply list_elem_of_fmap.
    by exists k.
Qed.

Lemma array_map_stamped keys items :
  forallb (JS.stamped keys) items = true →
  JS.array_map (JS.VArray (reparsed <$> items)) (LocalStorageAdapter.with_dates keys)
    = JS.Normal (JS.VArray items).
Proof.
  intros Hall. unfold JS.array_map.
  assert (JS.cmapM (LocalStorageAdapter.with_dates keys) (reparsed <$> items)
          = JS.Normal items) as ->; [|done].
  induction items as [|x items IH]; [done|].
  simpl in Hall. apply andb_prop in Hall as [Hx Hall].
  rewrite fmap_cons, cmapM_cons, with_dates_stamped, IH by done. done.
Qed.

Lemma reparsed_array items : reparsed (JS.VArray items) = JS.VArray (reparsed <$> items).
Proof.
  unfold reparsed at 1. simpl. f_equal. unfold JS.stringify_items.
  induction items as [|x items IH]; simpl; [done|]. by rewrite IH.
Qed.

Lemma reparsed_object props :
  Forall (λ kv, is_Some (JS.JSON_stringify kv.2)) props →
  reparsed (JS.VObject props) = JS.VObject (prod_map id reparsed <$> props).
Proof.
  intros Hall. unfold reparsed at 1. rewrite stringify_object. simpl default.
  by rewrite of_json_object, reparsed_props.
Qed.
End Revive.

Section ReviveDataState.
Context `{JS.Platform} `{LocalStorageAdapter.Browser}.

Lemma cbind_Normal {A B} (a : A) (k : A → JS.Completion B) :
  JS.cbind (JS.Normal a) k = k a.
Proof. done. Qed.

Lemma reparsed_plain_list items :
  forallb JS.plain items = true → reparsed <$> items = items.
Proof.
  induction items as [|x items IH]; [done|].
  intros Hall. simpl in Hall. apply andb_prop in Hall as [Hx Hall].
  by rewrite fmap_cons, reparsed_plain, IH.
Qed.

Lemma reparsed_plain_props (props : list (string * JS.value)) :
  forallb (λ kv, JS.plain kv.2) props = true → prod_map id reparsed <$> props = props.
Proof.
  induction props as [|[k x] props IH]; [done|].
  intros Hall. simpl in Hall. apply andb_prop in Hall as [Hx Hall].
  rewrite fmap_cons, IH by done.
  unfold prod_map. simpl. by rewrite reparsed_plain.
Qed.

Lemma plain_props_is_Some (props : list (string * JS.value)) :
  forallb (λ kv, JS.plain kv.2) props = true →
  Forall (λ kv, is_Some (JS.JSON_stringify kv.2)) props.
Proof.
  induction props as [|[k x] props IH]; simpl; [constructor|].
  intros [Hx Hall]%andb_prop. constructor; [by apply plain_is_Some|auto].
Qed.

Lemma reparsed_dataState d :
  LocalStorageAdapter.revivable d = true →
  reparsed (DataState.to_value d) =
    JS.VObject
      ([("data", match DataState.data d with Some rows => JS.VArray rows | None => JS.VNull end);
        ("fileName", JS.opt_string (DataState.fileName d));
        ("labels", JS.VArray (reparsed <$> DataState.labels d));
        ("rules", JS.VArray (reparsed <$> DataState.rules d));
        ("actionHistory", JS.VArray (reparsed <$> DataState.actionHistory d))]
       ++ DataState.others d).
Proof.
  unfold LocalStorageAdapter.revivable.
  intros [[[[Hdata Hlabels]%andb_prop Hrules]%andb_prop Hactions]%andb_prop Hothers]%andb_prop.
  unfold DataState.to_value. rewrite reparsed_object.
  - rewrite fmap_app, (reparsed_plain_props (DataState.others d)) by done.
    f_equal. f_equal. simpl. unfold prod_map. simpl.
    rewrite !reparsed_array.
    repeat f_equal.
    + destruct (DataState.data d) as [rows|]; [|done].
      rewrite reparsed_array. simpl in Hdata. by rewrite reparsed_plain_list.
    + by destruct (DataState.fileName d).
  - apply Forall_app. split; [|by apply plain_props_is_Some].
    repeat constructor; simpl; try by eexists.
    + by destruct (DataState.data d).
    + by destruct (DataState.fileName d).
Qed.

Lemma revive_dataState_revivable d :
  LocalStorageAdapter.revivable d = true →
  LocalStorageAdapter.revive_dataState (reparsed (DataState.to_value d))
    = JS.Normal (DataState.to_value d).
Proof.
  intros Hd. rewrite reparsed_dataState by done.
  unfold LocalStorageAdapter.revivable in Hd.
  apply andb_prop in Hd as [[[[Hdata Hlabels]%andb_prop Hrules]%andb_prop Hactions]%andb_prop Hothers].
  unfold LocalStorageAdapter.revive_dataState.
  set (others := DataState.others d).
  set (data := match DataState.data d with Some rows => JS.VArray rows | None => JS.VNull end).
  set (fileName := JS.opt_string (DataState.fileName d)).
  change (JS.get_prop _ "labels") with (JS.Normal (JS.VArray (reparsed <$> DataState.labels d))).
  rewrite cbind_Normal, array_map_stamped, cbind_Normal by done.
  change (JS.get_prop _ "rules") with (JS.Normal (JS.VArray (reparsed <$> DataState.rules d))).
  rewrite cbind_Normal, array_map_stamped, cbind_Normal by done.
  change (JS.get_prop _ "actionHistory")
    with (JS.Normal (JS.VArray (reparsed <$> DataState.actionHistory d))).
  rewrite cbind_Normal, array_map_stamped, cbind_Normal by done.
  done.
Qed.
End ReviveDataState.

(** ** The on-device adapter *)

Section Keys.
Lemma key_ne_active sid :
  LocalStorageAdapter.getSessionKey sid ≠ LocalStorageAdapter.ACTIVE_SESSION_KEY.
Proof. done. Qed.

Lemma key_ne_list sid :
  LocalStorageAdapter.getSessionKey sid ≠ LocalStorageAdapter.SESSION_LIST_KEY.
Proof. done. Qed.

Lemma list_ne_active :
  LocalStorageAdapter.SESSION_LIST_KEY ≠ LocalStorageAdapter.ACTIVE_SESSION_KEY.
Proof. done. Qed.

Lemma getSessionKey_inj sid sid' :
  LocalStorageAdapter.getSessionKey sid = LocalStorageAdapter.getSessionKey sid' → sid = sid'.
Proof. unfold LocalStorageAdapter.getSessionKey. simpl. intros [= Heq]. exact Heq. Qed.
End Keys.

Section SaveAndLoad.
Context `{JS.Platform} `{LocalStorageAdapter.Browser}.
Implicit Types st : gmap string LocalStorageAdapter.cell.

Lemma setItem_Normal k c st st' :
  LocalStorageAdapter.setItem k c st = JS.Normal st' → st' = <[k:=c]> st.
Proof. unfold LocalStorageAdapter.setItem. by destruct (LocalStorageAdapter.quota_ok _); intros [= <-]. Qed.

Lemma updateSessionList_other sid st st' k :
  LocalStorageAdapter.updateSessionList sid st = JS.Normal st' →
  k ≠ LocalStorageAdapter.SESSION_LIST_KEY → st' !! k = st !! k.
Proof.
  unfold LocalStorageAdapter.updateSessionList. intros Hu Hk.
  destruct (LocalStorageAdapter.getSessionList st) as [l|]; [|done]. simpl in Hu.
  destruct (LocalStorageAdapter.includes l sid) as [[]|]; simpl in Hu; try done.
  - by injection Hu as <-.
  - destruct (LocalStorageAdapter.push l sid); [|done]. simpl in Hu.
    apply setItem_Normal in Hu as ->. by rewrite lookup_insert_ne.
Qed.

Lemma saveState_success_inv sid d tab ty now st :
  SyncResult.success (LocalStorageAdapter.saveState sid d tab ty now st).1 = true →
  ∃ st2,
    LocalStorageAdapter.updateSessionList sid
      (<[LocalStorageAdapter.getSessionKey sid :=
           LocalStorageAdapter.JSON_stringify_cell
             (PersistedState.to_value (written sid d tab now st))]> st) = JS.Normal st2 ∧
    (LocalStorageAdapter.saveState sid d tab ty now st).2 =
      <[LocalStorageAdapter.ACTIVE_SESSION_KEY := LocalStorageAdapter.Text sid]> st2.
Proof.
  unfold LocalStorageAdapter.saveState. fold (written sid d tab now st).
  destruct (LocalStorageAdapter.setItem _ _ st) as [st1|] eqn:H1; [|done].
  apply setItem_Normal in H1 as ->.
  destruct (LocalStorageAdapter.updateSessionList sid _) as [st2|] eqn:H2; [|done].
  unfold LocalStorageAdapter.setActiveSessionId.
  destruct (LocalStorageAdapter.setItem _ _ st2) as [st3|] eqn:H3; [|done].
  apply setItem_Normal in H3 as ->. intros _. by exists st2.
Qed.

Lemma revive_metadata_object props :
  ∃ v, LocalStorageAdapter.revive_metadata (JS.VObject props) = JS.Normal v.
Proof. by eexists. Qed.

Lemma revive_dates_record (a b c d rc ru : JS.value) :
  LocalStorageAdapter.revive_dates ["createdAt"; "updatedAt"]
    (JS.VObject [("sessionId", a); ("dataState", b); ("activeTab", c); ("metadata", d);
                 ("createdAt", rc); ("updatedAt", ru)])
  = JS.Normal [("sessionId", a); ("dataState", b); ("activeTab", c); ("metadata", d);
               ("createdAt", JS.VDate (JS.new_Date rc));
               ("updatedAt", JS.VDate (JS.new_Date ru))].
Proof. reflexivity. Qed.

Lemma revive_record (a b c d rc ru m' d' : JS.value) :
  LocalStorageAdapter.revive_metadata d = JS.Normal m' →
  LocalStorageAdapter.revive_dataState b = JS.Normal d' →
  LocalStorageAdapter.revive
    (JS.VObject [("sessionId", a); ("dataState", b); ("activeTab", c); ("metadata", d);
                 ("createdAt", rc); ("updatedAt", ru)])
  = JS.Normal
      (JS.VObject [("sessionId", a); ("dataState", d'); ("activeTab", c); ("metadata", m');
                   ("createdAt", JS.VDate (JS.new_Date rc));
                   ("updatedAt", JS.VDate (JS.new_Date ru))]).
Proof.
  intros Hm Hd. unfold LocalStorageAdapter.revive.
  rewrite revive_dates_record, cbind_Normal.
  assert (∀ k v, JS.get_prop (JS.VObject [("sessionId", a); ("dataState", b); ("activeTab", c);
            ("metadata", d); ("createdAt", rc); ("updatedAt", ru)]) k = v →
            JS.get_prop (JS.VObject [("sessionId", a); ("dataState", b); ("activeTab", c);
            ("metadata", d); ("createdAt", rc); ("updatedAt", ru)]) k = v) as Hget by done.
  rewrite (Hget "metadata" (JS.Normal d)) by reflexivity.
  rewrite cbind_Normal, Hm, cbind_Normal.
  rewrite (Hget "dataState" (JS.Normal b)) by reflexivity.
  rewrite cbind_Normal, Hd, cbind_Normal. reflexivity.
Qed.

Lemma revive_written p :
  LocalStorageAdapter.revivable (PersistedState.dataState p) = true →
  ∃ state,
    LocalStorageAdapter.revive (reparsed (PersistedState.to_value p)) = JS.Normal state ∧
    JS.get_prop state "dataState" = JS.Normal (DataState.to_value (PersistedState.dataState p)) ∧
    JS.get_prop state "sessionId" = JS.Normal (JS.VString (PersistedState.sessionId p)) ∧
    JS.get_prop state "activeTab" = JS.Normal (JS.VString (PersistedState.activeTab p)).
Proof.
  intros Hd. unfold PersistedState.to_value.
  rewrite reparsed_object.
  2:{ repeat constructor; simpl; try (by eexists).
      - by destruct (PersistedState.createdAt p).
      - by destruct (PersistedState.updatedAt p). }
  assert (Hm : ∃ props, reparsed (SessionMetadata.to_value (PersistedState.metadata p))
                        = JS.VObject props).
  { unfold SessionMetadata.to_value, reparsed. rewrite stringify_object. by eexists. }
  destruct Hm as [mprops Hm].
  destruct (revive_metadata_object mprops) as [m' Hm'].
  simpl fmap. unfold prod_map. simpl fst. simpl snd. rewrite Hm.
  erewrite revive_record; [|exact Hm'|by apply revive_dataState_revivable].
  eexists. split; [done|]. by split_and!.
Qed.

End SaveAndLoad.

Section Local.
Context `{JS.Platform} `{LocalStorageAdapter.Browser}.
Implicit Types st : gmap string LocalStorageAdapter.cell.


(** *** corrupted stores *)
Lemma loadState_unusable sid st :
  record_unusable sid st → LocalStorageAdapter.loadState sid st = None.
Proof.
  unfold LocalStorageAdapter.loadState. intros [->|(c & e & -> & Hc)]; [done|].
  destruct (LocalStorageAdapter.no_data _); [done|]. by rewrite Hc.
Qed.

Lemma cmapM_Normal_elem {A B} (f : A → JS.Completion B) l l' y :
  JS.cmapM f l = JS.Normal l' → y ∈ l' → ∃ x, x ∈ l ∧ f x = JS.Normal y.
Proof.
  revert l'. induction l as [|x l IH]; intros l'; simpl.
  - intros [= <-] ?%elem_of_nil. done.
  - destruct (f x) as [y0|] eqn:Hx; [|done]. simpl.
    destruct (JS.cmapM f l) as [ys|]; [|done]. simpl. intros [= <-].
    intros [->|Hin]%elem_of_cons.
    + exists x. split; [by left|done].
    + destruct (IH ys eq_refl Hin) as (x' & ? & ?). exists x'. split; [by right|done].
Qed.

Lemma listSessions_inv st m :
  m ∈ LocalStorageAdapter.listSessions st →
  ∃ ids id state,
    indexed st = JS.Normal ids ∧ id ∈ ids ∧
    LocalStorageAdapter.loadState (JS.ToString_json id) st = Some state ∧
    JS.get_prop state "metadata" = JS.Normal m.
Proof.
  unfold LocalStorageAdapter.listSessions, indexed.
  destruct (LocalStorageAdapter.getSessionList st) as [l|]; simpl; [|by intros ?%elem_of_nil].
  destruct (LocalStorageAdapter.iterate l) as [ids|]; simpl; [|by intros ?%elem_of_nil].
  destruct (JS.cmapM _ _) as [sessions|] eqn:Hs; [|by intros ?%elem_of_nil].
  rewrite sort_perm. intros Hin.
  destruct (cmapM_Normal_elem _ _ _ _ Hs Hin) as (state & Hstate & Hm).
  unfold LocalStorageAdapter.listed_states in Hstate.
  apply list_elem_of_omap in Hstate as (id & Hid & Hload).
  by exists ids, id, state.
Qed.


End Local.

Section LocalDelete.
Context `{JS.Platform} `{LocalStorageAdapter.Browser}.
Implicit Types st : gmap string LocalStorageAdapter.cell.

Lemma getSessionList_removeItem sid st :
  LocalStorageAdapter.getSessionList
    (LocalStorageAdapter.removeItem (LocalStorageAdapter.getSessionKey sid) st)
  = LocalStorageAdapter.getSessionList st.
Proof.
  unfold LocalStorageAdapter.getSessionList, LocalStorageAdapter.getItem,
    LocalStorageAdapter.removeItem.
  by rewrite lookup_delete_ne by apply key_ne_list.
Qed.

Lemma getSessionList_written l st :
  LocalStorageAdapter.getSessionList
    (<[LocalStorageAdapter.SESSION_LIST_KEY := LocalStorageAdapter.Json l]> st) = JS.Normal l.
Proof.
  unfold LocalStorageAdapter.getSessionList, LocalStorageAdapter.getItem.
  by rewrite lookup_insert_eq.
Qed.



End LocalDelete.

(** ** What the orchestrator's deleteSession reports *)

Section DeleteResult.
Context {W : Type} (now : W → Z).


End DeleteResult.

(** ** Deletion in the world of the front end *)

Section OrderedMapDelete.
Context {V : Type}.
Implicit Types m : list (string * V).

End OrderedMapDelete.

Section WorldDelete.
Context `{JS.Platform} `{LocalStorageAdapter.Browser} {S : Type} `{ApiClient.Network S}.





(** The remote deletion leaves the clock out of the state it produces. *)
Lemma remote_delete_state sid now now' (r : BackendAdapter.t * S) :
  (BackendAdapter.deleteSession sid now r).2 = (BackendAdapter.deleteSession sid now' r).2.
Proof.
  unfold BackendAdapter.deleteSession.
  destruct (ApiClient.delete _ _ _) as [response net].
  by destruct (ApiClient.has_error response).
Qed.
End WorldDelete.

Section ServiceDelete.
#[local] Existing Instance Service.network.
Context `{JS.Platform}.
#[local] Arguments Service.strip_prefix : simpl never.
#[local] Arguments Service.strip_suffix : simpl never.




End ServiceDelete.

(** * The claims *)

(** ** The orchestrator *)

Section OrchestratorClaims.
Context {W : Type} (now : W → Z) (delay : Z → W → W).

(** C1 (as amended).  [saveState] of the orchestrator walks the adapters of the
    strategy in order and collects one result per adapter it reached.  When
    one of the collected results is a success, it returns the first success
    in that order; when all of them are failures, it returns the first
    collected result, that is the failure of the first adapter of the
    strategy (not the last one). *)
Theorem saveState_returns_first_success_else_first_failure
    (o : StateSync.t W) (w : W) (sessionId : string) (dataState : DataState.t)
    (activeTab : string) (type : SaveType) :
  let adapters := StateSync.getAdaptersByStrategy o in
  let results :=
    (StateSync.saveState_loop now delay adapters [] sessionId dataState activeTab type (o, w)).1 in
  let returned := (StateSync.saveState now delay sessionId dataState activeTab type (o, w)).1 in
  (length results ≤ length adapters)%nat ∧
  (∀ (i : nat) r, results !! i = Some r →
     ∃ a si, adapters !! i = Some a ∧
       (StateSync.saveToAdapter now delay a sessionId dataState activeTab type si).1 = r) ∧
  (Exists (λ r, SyncResult.success r = true) results →
     ∃ pre r post, results = pre ++ r :: post ∧ Forall failed pre ∧
       SyncResult.success r = true ∧ returned = Some r) ∧
  (Forall failed results → returned = head results).
Proof.
  intros adapters results returned.
  destruct (saveState_loop_results now delay adapters [] sessionId dataState activeTab type (o, w))
    as (new & Hnew & Hlen & Hi).
  fold results in Hnew. simpl in Hnew. subst new.
  assert (Hret : returned = StateSync.primaryResult results).
  { subst returned results adapters.
    unfold StateSync.saveState, bind, StateSync.this, ret. simpl.
    by destruct (StateSync.saveState_loop _ _ _ _ _ _ _ _ _). }
  split_and!; [done|done| |].
  - intros [r Hr]%find_success_some. unfold StateSync.primaryResult in Hret.
    rewrite Hr in Hret. apply find_success_first in Hr as (pre & post & -> & Hpre & Hs).
    by exists pre, r, post.
  - intros Hall. unfold StateSync.primaryResult in Hret.
    by rewrite find_success_none in Hret.
Qed.

(** C4.  Under the [latest-wins] policy, when the adapters [loadState]
    queried hold records of the session and one of them carries the time
    stamp [t2] while every other one carries an earlier one, [loadState]
    returns the record of [t2], and so does the resolution of the conflict
    for every order in which the records could have been collected. *)
Theorem latest_wins_returns_newest (o : StateSync.t W) (w : W) (sessionId name : string)
    (st : PersistedState.t) (t2 : Z) :
  SyncConfig.conflictResolution (StateSync.config o) = "latest-wins" →
  let states :=
    (StateSync.loadState_loop (StateSync.getAdaptersByStrategy o) [] sessionId (o, w)).1 in
  (name, st) ∈ states →
  PersistedState.updatedAt st = JS.ValidDate t2 →
  (∀ n' st', (n', st') ∈ states →
     (n', st') = (name, st) ∨
     ∃ t1, PersistedState.updatedAt st' = JS.ValidDate t1 ∧ t1 < t2) →
  (StateSync.loadState sessionId (o, w)).1 = Some st ∧
  ∀ states', states' ≡ₚ states → StateSync.resolveConflict o states' = Some st.
Proof.
  intros Hpol states Hin Ht Hall.
  assert (Hall' : Forall (newest_or_older
    (λ s : string * PersistedState.t, PersistedState.updatedAt s.2) (name, st) t2) states).
  { apply Forall_forall. intros [n' st'] Hx. apply Hall in Hx. exact Hx. }
  assert (Hperm : ∀ states', states' ≡ₚ states →
    StateSync.resolveConflict o states' = Some st).
  { intros states' Hp.
    apply (resolveConflict_latest_wins o states' (name, st) t2); try done.
    - by rewrite Hp.
    - by rewrite Hp. }
  split; [|done].
  unfold StateSync.loadState, bind, StateSync.this. simpl.
  fold states.
  destruct (StateSync.loadState_loop _ _ _ _) as [sts s'] eqn:Hloop.
  subst states. simpl in *.
  destruct sts as [|s1 [|s2 sts]].
  - by apply elem_of_nil in Hin.
  - apply list_elem_of_singleton in Hin as <-. done.
  - simpl. by apply Hperm.
Qed.

(** C7 (as amended).  The constructor never fails: for every configuration it
    returns an orchestrator whose strategy is the configured one
    ([local-first] when none is given), recognised or not.  An unrecognised
    strategy is handled when the adapters are chosen, where it falls into
    the branch of [hybrid]: all adapters, by descending priority. *)
Theorem constructor_accepts_any_strategy (cfg : StateSync.StateSyncConfig W) :
  ∃ o, StateSync.constructor cfg = JS.Normal o ∧
    SyncConfig.strategy (StateSync.config o) =
      JS.str_or (StateSync.cfg_strategy cfg) "local-first" ∧
    (SyncConfig.strategy (StateSync.config o) ∉ recognised_strategies →
     StateSync.getAdaptersByStrategy o =
       JS.sort StateSync.by_priority_desc (JS.map_values (StateSync.adapters o))).
Proof.
  unfold StateSync.constructor. eexists. split; [done|].
  set (c := SyncConfig.mk _ _ _ _ _ _).
  set (ads := foldl _ _ _).
  assert (Hsetup : ∀ o : StateSync.t W,
    StateSync.config (StateSync.startAutoSync_obj o) = StateSync.config o ∧
    StateSync.adapters (StateSync.startAutoSync_obj o) = StateSync.adapters o).
  { intros o. unfold StateSync.startAutoSync_obj, StateSync.stopAutoSync_obj.
    destruct (StateSync.syncTimer o); simpl;
      destruct (SyncConfig.syncInterval _); simpl; try case_decide; done. }
  match goal with |- context [if ?b then _ else _] => destruct b end.
  - destruct (Hsetup (StateSync.mk ads c None [])) as [Hc Ha].
    split; [by rewrite Hc|].
    intros Hnot. unfold StateSync.getAdaptersByStrategy. rewrite Hc, Ha.
    rewrite Hc in Hnot. unfold recognised_strategies in Hnot. rewrite !not_elem_of_cons in Hnot.
    destruct Hnot as (?&?&?&?&?&_). by repeat (case_decide; [done|]).
  - split; [done|].
    intros Hnot. unfold StateSync.getAdaptersByStrategy.
    unfold recognised_strategies in Hnot. rewrite !not_elem_of_cons in Hnot.
    destruct Hnot as (?&?&?&?&?&_). by repeat (case_decide; [done|]).
Qed.

(** C10.  [deleteSession] of the orchestrator asks every registered adapter
    and collects one result per adapter.  It reports success exactly when one
    of the collected results is a success, and fills the error field exactly
    when all of them are failures; so a deletion that failed on one of two
    adapters and succeeded on the other is reported as a success without an
    error. *)
Theorem deleteSession_reports_any_success (o : StateSync.t W) (w : W) (sessionId : string) :
  let adapters := JS.map_values (StateSync.adapters o) in
  let results := (StateSync.deleteSession_loop adapters [] sessionId (o, w)).1 in
  let returned := (StateSync.deleteSession now sessionId (o, w)).1 in
  length results = length adapters ∧
  (∀ (i : nat) r, results !! i = Some r →
     ∃ a wi, adapters !! i = Some a ∧ (StateAdapter.deleteSession a sessionId wi).1 = r) ∧
  (SyncResult.success returned = true ↔
     Exists (λ r, SyncResult.success r = true) results) ∧
  (is_Some (SyncResult.error returned) ↔ Forall failed results) ∧
  (∀ r1 r2, results = [r1; r2] →
     SyncResult.success r1 = false → SyncResult.success r2 = true →
     SyncResult.success returned = true ∧ SyncResult.error returned = None).
Proof.
  intros adapters results returned.
  destruct (deleteSession_loop_results adapters [] sessionId (o, w))
    as (new & w' & Hnew & Hlen & Hi).
  assert (results = new) as <- by (subst results; by rewrite Hnew).
  assert (Hs : SyncResult.success returned = existsb SyncResult.success results ∧
               SyncResult.error returned =
                 if existsb SyncResult.success results then None
                 else Some "Failed to delete from all adapters").
  { subst returned results adapters.
    unfold StateSync.deleteSession, bind, StateSync.this, ret, StateSync.new_Date_now. simpl.
    by destruct (StateSync.deleteSession_loop _ _ _ _). }
  destruct Hs as [Hs He].
  assert (Hex : existsb SyncResult.success results = true ↔
                Exists (λ r, SyncResult.success r = true) results).
  { rewrite existsb_exists, Exists_exists. setoid_rewrite list_elem_of_In. done. }
  assert (Hall : existsb SyncResult.success results = false ↔ Forall failed results).
  { rewrite <-not_true_iff_false, Hex, <-Forall_Exists_neg.
    apply Forall_iff. intros r. unfold failed. by destruct (SyncResult.success r). }
  split_and!; [done|done| | |].
  - by rewrite Hs.
  - rewrite He, <-Hall. destruct (existsb _ _); split;
      first [done | by intros [??] | by eauto].
  - intros r1 r2 Hres H1 H2. rewrite Hs, He, Hres. simpl. by rewrite H1, H2.
Qed.
End OrchestratorClaims.

Section PendingClaims.
Context {W : Type} (now : W → Z) (delay : Z → W → W).

(** C2.  A session that has an entry in the pending queue keeps it through
    every run of operations of the orchestrator (saves, loads, listings,
    deletions, manual synchronisations, timer ticks, in any number and
    order) as long as no push of that session to the remote adapter
    succeeds: failed pushes never purge the entry. *)
Theorem pending_entry_survives_failed_pushes (o : StateSync.t W) (w : W)
    (sessionId : string) (ops : list StateSync.Op) :
  sessionId ∈ JS.map_keys (StateSync.pendingSyncs o) →
  push_never_succeeds o sessionId →
  sessionId ∈ JS.map_keys (StateSync.pendingSyncs (StateSync.run now delay ops (o, w)).1).
Proof.
  intros Hin Hfail.
  by destruct (queued_run now delay o sessionId Hfail ops (o, w)) as [_ ?].
Qed.
End PendingClaims.

(** ** The on-device adapter, the remote adapter and the merged view *)

Section AdapterClaims.
Context `{JS.Platform} `{LocalStorageAdapter.Browser}.
Implicit Types st : gmap string LocalStorageAdapter.cell.

(** C3 (as amended).  When the time stamps of the payload sit where
    [loadState] rebuilds them (the [createdAt] of a label, the [createdAt]
    and [updatedAt] of a rule, the [timestamp] of an action) and the rest of
    the payload is plain JSON data, a successful [saveState] of the on-device
    adapter followed by [loadState] of the same session returns a record
    whose [dataState], [sessionId] and [activeTab] are the saved ones. *)
Theorem save_then_load sid d tab ty now st :
  LocalStorageAdapter.revivable d = true →
  SyncResult.success (LocalStorageAdapter.saveState sid d tab ty now st).1 = true →
  ∃ state,
    LocalStorageAdapter.loadState sid (LocalStorageAdapter.saveState sid d tab ty now st).2
      = Some state ∧
    JS.get_prop state "dataState" = JS.Normal (DataState.to_value d) ∧
    JS.get_prop state "sessionId" = JS.Normal (JS.VString sid) ∧
    JS.get_prop state "activeTab" = JS.Normal (JS.VString tab).
Proof.
  intros Hd (st2 & Hu & ->)%saveState_success_inv.
  destruct (revive_written (written sid d tab now st) Hd) as (state & Hr & Hds & Hsid & Htab).
  exists state. split; [|done].
  unfold LocalStorageAdapter.loadState, LocalStorageAdapter.getItem.
  rewrite lookup_insert_ne by (apply not_eq_sym, key_ne_active).
  rewrite (updateSessionList_other _ _ _ _ Hu) by apply key_ne_list.
  rewrite lookup_insert_eq.
  unfold LocalStorageAdapter.JSON_stringify_cell.
  unfold reparsed in Hr.
  destruct (JS.JSON_stringify (PersistedState.to_value (written sid d tab now st)))
    as [j|] eqn:Hj; [|done].
  simpl. simpl in Hr. by rewrite Hr.
Qed.

(** C6 (as amended).  A session whose record is missing or is not JSON is
    absent for [loadState], which returns [null], and for [listSessions],
    every entry of which comes from an identifier of the index whose record
    loads, so from another session; an index that cannot be read makes
    [listSessions] return the empty list.  Neither operation throws, and
    neither writes: the index stays as it was. *)
Theorem unusable_record_is_absent sid st :
  record_unusable sid st →
  LocalStorageAdapter.loadState sid st = None ∧
  (∀ m, m ∈ LocalStorageAdapter.listSessions st →
     ∃ ids id state,
       indexed st = JS.Normal ids ∧ id ∈ ids ∧ JS.ToString_json id ≠ sid ∧
       LocalStorageAdapter.loadState (JS.ToString_json id) st = Some state ∧
       JS.get_prop state "metadata" = JS.Normal m) ∧
  (∀ e, indexed st = JS.Throw e → LocalStorageAdapter.listSessions st = []).
Proof.
  intros Hbad. pose proof (loadState_unusable sid st Hbad) as Hnone.
  split_and!; [done| |].
  - intros m (ids & id & state & Hids & Hid & Hload & Hm)%listSessions_inv.
    exists ids, id, state. split_and!; try done.
    intros Heq. rewrite Heq, Hnone in Hload. done.
  - intros e. unfold indexed, LocalStorageAdapter.listSessions.
    destruct (LocalStorageAdapter.getSessionList st) as [l|]; simpl; [|done].
    by destruct (LocalStorageAdapter.iterate l).
Qed.

End AdapterClaims.

Section ListingClaims.
Context `{JS.Platform} `{LocalStorageAdapter.Browser} {S : Type} `{ApiClient.Network S}.
Context {W : Type}.
Implicit Types st : gmap string LocalStorageAdapter.cell.


End ListingClaims.

(** * The claims on concrete front ends *)

Module Scenarios.
Import Examples.
#[local] Existing Instance ISO8601.platform.
#[local] Existing Instance ReferenceBrowser.browser.
#[local] Existing Instance Service.network.

(** ** C1 *)

(** The index of the device is broken and the service is out of reach: both
    adapters of [local-first] fail, and [saveState] returns the first
    failure, the one of the device. *)
Lemma all_adapters_fail_first_failure_returned :
  let o := sync "local-first" in
  let w := with_broken_index (unreachable fresh) in
  (StateSync.saveState World.now World.delay "s1" payload "labeling" SaveData (o, w)).1 =
    head (StateSync.saveState_loop World.now World.delay (StateSync.getAdaptersByStrategy o) []
            "s1" payload "labeling" SaveData (o, w)).1.
Proof.
  intros o w.
  destruct (saveState_returns_first_success_else_first_failure World.now World.delay
              o w "s1" payload "labeling" SaveData) as (_ & _ & _ & Hall).
  apply Hall. vm_compute. repeat constructor.
Defined.

Lemma all_adapters_fail_last_failure_not_returned :
  let o := sync "local-first" in
  let w := with_broken_index (unreachable fresh) in
  let results :=
    (StateSync.saveState_loop World.now World.delay (StateSync.getAdaptersByStrategy o) []
       "s1" payload "labeling" SaveData (o, w)).1 in
  let returned :=
    (StateSync.saveState World.now World.delay "s1" payload "labeling" SaveData (o, w)).1 in
  Forall failed results ∧
  (SyncResult.error <$> last results) = Some (Some "Failed to fetch") ∧
  (SyncResult.error <$> returned) =
    Some (Some "SyntaxError: Unexpected token in JSON: not json") ∧
  returned ≠ last results.
Proof.
  split_and!.
  - vm_compute. repeat constructor.
  - vm_compute. reflexivity.
  - vm_compute. reflexivity.
  - vm_compute. discriminate.
Qed.

(** ** C2 *)

(** A save on a front end without network leaves the session queued; ticks
    of the timer, manual synchronisations and further operations keep it
    queued. *)
Lemma pending_entry_survives_failed_pushes_witness :
  let s :=
    (StateSync.saveState World.now World.delay "s1" payload "labeling" SaveData
       (sync_disconnected, disconnected)).2 in
  "s1" ∈ JS.map_keys (StateSync.pendingSyncs
     (StateSync.run World.now World.delay
        [StateSync.OpTimerTick; StateSync.OpSyncNow; StateSync.OpLoadState "s1";
         StateSync.OpSaveState "s2" other_payload "rules" SaveRules;
         StateSync.OpTimerTick; StateSync.OpListSessions; StateSync.OpTimerTick]
        (s.1, s.2)).1).
Proof.
  intros s.
  apply pending_entry_survives_failed_pushes.
  - vm_compute. apply list_elem_of_here.
  - intros backend dataState activeTab type w Hb.
    assert (Hads : JS.map_get "backend" (StateSync.adapters s.1) =
              Some (@World.backendAdapter _ _ Service.offline)) by reflexivity.
    rewrite Hads in Hb. injection Hb as <-. reflexivity.
Defined.

(** ** C3 *)

Lemma save_then_load_witness :
  ∃ state,
    LocalStorageAdapter.loadState "s1"
      (LocalStorageAdapter.saveState "s1" payload "labeling" SaveData t0 ∅).2 = Some state ∧
    JS.get_prop state "dataState" = JS.Normal (DataState.to_value payload) ∧
    JS.get_prop state "sessionId" = JS.Normal (JS.VString "s1") ∧
    JS.get_prop state "activeTab" = JS.Normal (JS.VString "labeling").
Proof.
  apply save_then_load; vm_compute; reflexivity.
Defined.

(** While the rule preview is open the payload holds a rule outside of
    [rules]; its [createdAt] and [updatedAt] come back as strings. *)
Lemma preview_dates_come_back_as_strings :
  let st := (LocalStorageAdapter.saveState "s1" payload_with_preview "labeling" SaveData t0 ∅) in
  SyncResult.success st.1 = true ∧
  ∃ state dataState preview rule,
    LocalStorageAdapter.loadState "s1" st.2 = Some state ∧
    JS.get_prop state "dataState" = JS.Normal dataState ∧
    dataState ≠ DataState.to_value payload_with_preview ∧
    JS.get_prop dataState "rulePreview" = JS.Normal preview ∧
    JS.get_prop preview "rule" = JS.Normal rule ∧
    JS.get_prop a_rule "createdAt" = JS.Normal (JS.VDate (JS.ValidDate 1700000000500)) ∧
    JS.get_prop rule "createdAt" = JS.Normal (JS.VString "2023-11-14T22:13:20.500Z").
Proof.
  split; [vm_compute; reflexivity|].
  do 4 eexists. split_and!; try (vm_compute; reflexivity).
  vm_compute. discriminate.
Qed.

(** ** C4 *)

Lemma latest_wins_returns_newest_witness :
  let o := sync "local-first" in
  (StateSync.loadState "s2" (o, diverged)).1 = Some newer_record ∧
  ∀ states',
    states' ≡ₚ (StateSync.loadState_loop (StateSync.getAdaptersByStrategy o) [] "s2"
                  (o, diverged)).1 →
    StateSync.resolveConflict o states' = Some newer_record.
Proof.
  intros o.
  apply (latest_wins_returns_newest o diverged "s2" "backend" newer_record (t0 + 1000)).
  - reflexivity.
  - vm_compute. apply list_elem_of_further, list_elem_of_here.
  - reflexivity.
  - intros n' st' Hin. vm_compute in Hin.
    apply elem_of_cons in Hin as [[= -> ->]|Hin].
    + right. exists t0. split; [reflexivity|]. unfold t0. lia.
    + apply list_elem_of_singleton in Hin as [= -> ->]. left. vm_compute. reflexivity.
Defined.

(** ** C5 *)



(** ** C6 *)

Lemma unusable_record_is_absent_witness :
  LocalStorageAdapter.loadState "s1" stale = None ∧
  (∀ m, m ∈ LocalStorageAdapter.listSessions stale →
     ∃ ids id state,
       indexed stale = JS.Normal ids ∧ id ∈ ids ∧ JS.ToString_json id ≠ "s1" ∧
       LocalStorageAdapter.loadState (JS.ToString_json id) stale = Some state ∧
       JS.get_prop state "metadata" = JS.Normal m) ∧
  (∀ e, indexed stale = JS.Throw e → LocalStorageAdapter.listSessions stale = []).
Proof.
  apply unusable_record_is_absent. left. vm_compute. reflexivity.
Defined.

(** The index names [s1] and the record is gone: after [loadState] and
    [listSessions] the index still names [s1].  The record of [s2] is there
    and the index does not name it: [loadState] returns it and [hasSession]
    answers yes. *)
Lemma mismatch_is_not_healed :
  let w := World.mk stale (World.remote fresh) t0 in
  let after :=
    (StateAdapter.listSessions World.localAdapter
       (StateAdapter.loadState World.localAdapter "s1" w).2).2 in
  LocalStorageAdapter.getSessionList stale = JS.Normal (JS.JArray [JS.JString "s1"]) ∧
  LocalStorageAdapter.getSessionList (World.storage after)
    = JS.Normal (JS.JArray [JS.JString "s1"]) ∧
  LocalStorageAdapter.getSessionList orphaned = JS.Normal (JS.JArray []) ∧
  LocalStorageAdapter.hasSession "s2" orphaned = true ∧
  LocalStorageAdapter.loadState "s2" orphaned ≠ None.
Proof.
  split_and!; try (vm_compute; reflexivity). vm_compute. discriminate.
Qed.

(** ** C7 *)

Lemma constructor_accepts_any_strategy_witness :
  ∃ o, StateSync.constructor unknown_strategy = JS.Normal o ∧
    SyncConfig.strategy (StateSync.config o) = "fastest-first" ∧
    StateSync.getAdaptersByStrategy o =
      JS.sort StateSync.by_priority_desc (JS.map_values (StateSync.adapters o)).
Proof.
  destruct (constructor_accepts_any_strategy unknown_strategy) as (o & Ho & Hs & Hads).
  exists o. split_and!; [done|done|].
  apply Hads. rewrite Hs. vm_compute.
  intros Hin. repeat (apply elem_of_cons in Hin as [Hin|Hin]; [discriminate Hin|]).
  by apply elem_of_nil in Hin.
Defined.

Lemma unknown_strategy_is_accepted :
  ("fastest-first" ∉ recognised_strategies) ∧
  ∃ o, StateSync.constructor unknown_strategy = JS.Normal o ∧
       SyncConfig.strategy (StateSync.config o) = "fastest-first".
Proof.
  split.
  - intros Hin. unfold recognised_strategies in Hin.
    repeat (apply elem_of_cons in Hin as [Hin|Hin]; [discriminate Hin|]).
    by apply elem_of_nil in Hin.
  - eexists. split; reflexivity.
Qed.

(** ** C8 *)



(** ** C9 *)


(** ** C10 *)

(** The index of the device is broken and the service is up: the deletion
    fails on the device, succeeds on the service, and is reported as a
    success without an error. *)
Lemma deleteSession_reports_any_success_witness :
  SyncResult.success
    (StateSync.deleteSession World.now "s1" (sync "local-first", with_broken_index fresh)).1
    = true ∧
  SyncResult.error
    (StateSync.deleteSession World.now "s1" (sync "local-first", with_broken_index fresh)).1
    = None.
Proof.
  destruct (deleteSession_reports_any_success World.now (sync "local-first")
              (with_broken_index fresh) "s1") as (_ & _ & _ & _ & Htwo).
  cbv zeta in Htwo.
  assert (Hres : ∃ r1 r2,
            (StateSync.deleteSession_loop
               (JS.map_values (StateSync.adapters (sync "local-first"))) [] "s1"
               (sync "local-first", with_broken_index fresh)).1 = [r1; r2] ∧
            SyncResult.success r1 = false ∧ SyncResult.success r2 = true).
  { do 2 eexists. split_and!; vm_compute; reflexivity. }
  destruct Hres as (r1 & r2 & Hres & H1 & H2). exact (Htwo r1 r2 Hres H1 H2).
Defined.
End Scenarios.

(** * Further properties of the on-device adapter *)

Section LocalWrites.
Context `{JS.Platform} `{LocalStorageAdapter.Browser}.
Implicit Types st : gmap string LocalStorageAdapter.cell.

Lemma loadState_same_record sid st st' :
  LocalStorageAdapter.getItem (LocalStorageAdapter.getSessionKey sid) st' =
    LocalStorageAdapter.getItem (LocalStorageAdapter.getSessionKey sid) st →
  LocalStorageAdapter.loadState sid st' = LocalStorageAdapter.loadState sid st.
Proof. unfold LocalStorageAdapter.loadState. by intros ->. Qed.

Lemma hasSession_same_record sid st st' :
  LocalStorageAdapter.getItem (LocalStorageAdapter.getSessionKey sid) st' =
    LocalStorageAdapter.getItem (LocalStorageAdapter.getSessionKey sid) st →
  LocalStorageAdapter.hasSession sid st' = LocalStorageAdapter.hasSession sid st.
Proof. unfold LocalStorageAdapter.hasSession. by intros ->. Qed.

Lemma getSessionKey_ne sid sid' :
  sid' ≠ sid → LocalStorageAdapter.getSessionKey sid' ≠ LocalStorageAdapter.getSessionKey sid.
Proof. intros Hne Heq. by apply getSessionKey_inj in Heq. Qed.

Lemma updateSessionList_inv sid st st' :
  LocalStorageAdapter.updateSessionList sid st = JS.Normal st' →
  ∃ sl,
    LocalStorageAdapter.getSessionList st = JS.Normal sl ∧
    ((LocalStorageAdapter.includes sl sid = JS.Normal true ∧ st' = st) ∨
     (LocalStorageAdapter.includes sl sid = JS.Normal false ∧
      ∃ sl', LocalStorageAdapter.push sl sid = JS.Normal sl' ∧
             st' = <[LocalStorageAdapter.SESSION_LIST_KEY := LocalStorageAdapter.Json sl']> st)).
Proof.
  unfold LocalStorageAdapter.updateSessionList. intros Hu.
  destruct (LocalStorageAdapter.getSessionList st) as [sl|]; [|done]. simpl in Hu.
  exists sl. split; [done|].
  destruct (LocalStorageAdapter.includes sl sid) as [[]|]; simpl in Hu; try done.
  - left. by injection Hu as <-.
  - right. split; [done|].
    destruct (LocalStorageAdapter.push sl sid) as [sl'|]; [|done]. simpl in Hu.
    exists sl'. split; [done|]. by apply setItem_Normal in Hu.
Qed.

Lemma includes_push sl sid sl' :
  LocalStorageAdapter.push sl sid = JS.Normal sl' →
  LocalStorageAdapter.includes sl' sid = JS.Normal true.
Proof.
  destruct sl; simpl; try done. intros [= <-]. simpl. f_equal.
  rewrite existsb_app. simpl. rewrite bool_decide_eq_true_2 by done.
  by rewrite orb_true_r.
Qed.

Lemma getSessionList_other k c st :
  k ≠ LocalStorageAdapter.SESSION_LIST_KEY →
  LocalStorageAdapter.getSessionList (<[k:=c]> st) = LocalStorageAdapter.getSessionList st.
Proof.
  intros Hk. unfold LocalStorageAdapter.getSessionList, LocalStorageAdapter.getItem.
  by rewrite lookup_insert_ne.
Qed.

(** The index after a successful [saveState]. *)
Lemma saveState_index sid d tab ty now st :
  SyncResult.success (LocalStorageAdapter.saveState sid d tab ty now st).1 = true →
  ∃ sl',
    LocalStorageAdapter.getSessionList (LocalStorageAdapter.saveState sid d tab ty now st).2
      = JS.Normal sl' ∧
    LocalStorageAdapter.includes sl' sid = JS.Normal true ∧
    ∃ sl, LocalStorageAdapter.getSessionList st = JS.Normal sl ∧
          (LocalStorageAdapter.includes sl sid = JS.Normal true → sl' = sl).
Proof.
  intros (st2 & Hu & ->)%saveState_success_inv.
  rewrite getSessionList_other by apply not_eq_sym, list_ne_active.
  apply updateSessionList_inv in Hu as (sl & Hsl & Hcase).
  rewrite getSessionList_other in Hsl by apply key_ne_list.
  destruct Hcase as [[Hin ->]|(Hin & sl' & Hpush & ->)].
  - exists sl. rewrite getSessionList_other by apply key_ne_list.
    split_and!; [done|done|]. by exists sl.
  - exists sl'. rewrite getSessionList_written.
    split_and!; [done|by eapply includes_push|].
    exists sl. split; [done|]. intros Hin'. congruence.
Qed.

(** X1.  A successful [saveState] of the on-device adapter leaves the session
    stored and named by the index; when the index named it already, the index
    is left as it was (no second entry); and the records of the other
    sessions are the ones that were there. *)
Theorem local_saveState_upsert sid d tab ty now st :
  SyncResult.success (LocalStorageAdapter.saveState sid d tab ty now st).1 = true →
  let st' := (LocalStorageAdapter.saveState sid d tab ty now st).2 in
  LocalStorageAdapter.hasSession sid st' = true ∧
  (∃ sl', LocalStorageAdapter.getSessionList st' = JS.Normal sl' ∧
          LocalStorageAdapter.includes sl' sid = JS.Normal true) ∧
  (∀ sl, LocalStorageAdapter.getSessionList st = JS.Normal sl →
         LocalStorageAdapter.includes sl sid = JS.Normal true →
         LocalStorageAdapter.getSessionList st' = JS.Normal sl) ∧
  (∀ sid', sid' ≠ sid →
     LocalStorageAdapter.loadState sid' st' = LocalStorageAdapter.loadState sid' st ∧
     LocalStorageAdapter.hasSession sid' st' = LocalStorageAdapter.hasSession sid' st).
Proof.
  intros Hs st'.
  destruct (saveState_index _ _ _ _ _ _ Hs) as (sl' & Hsl' & Hin' & sl & Hsl & Hsame).
  fold st' in Hsl'.
  apply saveState_success_inv in Hs as (st2 & Hu & Hst').
  fold st' in Hst'.
  assert (Hrec : ∀ k, k ≠ LocalStorageAdapter.SESSION_LIST_KEY →
                      k ≠ LocalStorageAdapter.ACTIVE_SESSION_KEY →
            st' !! k = (<[LocalStorageAdapter.getSessionKey sid :=
              LocalStorageAdapter.JSON_stringify_cell
                (PersistedState.to_value (written sid d tab now st))]> st) !! k).
  { intros k Hl Ha. rewrite Hst', lookup_insert_ne by done.
    by apply (updateSessionList_other _ _ _ _ Hu). }
  split_and!.
  - unfold LocalStorageAdapter.hasSession, LocalStorageAdapter.getItem.
    rewrite Hrec by (apply key_ne_list || apply key_ne_active).
    rewrite lookup_insert_eq. by apply bool_decide_eq_true_2.
  - by exists sl'.
  - intros sl0 Hsl0 Hin0. rewrite Hsl in Hsl0. injection Hsl0 as ->.
    by rewrite Hsl', (Hsame Hin0).
  - intros sid' Hne.
    assert (LocalStorageAdapter.getItem (LocalStorageAdapter.getSessionKey sid') st' =
            LocalStorageAdapter.getItem (LocalStorageAdapter.getSessionKey sid') st) as Hget.
    { unfold LocalStorageAdapter.getItem.
      rewrite Hrec by (apply key_ne_list || apply key_ne_active).
      by rewrite lookup_insert_ne by (apply not_eq_sym, getSessionKey_ne, Hne). }
    split; [by apply loadState_same_record|by apply hasSession_same_record].
Qed.

(** X2.  [saveState] writes the record before it reads the index: when the
    record fits the store and the index cannot be read, the call fails with
    the error of the index and the new record stays in the store. *)
Theorem local_saveState_failure_keeps_record sid d tab ty now st e :
  LocalStorageAdapter.quota_ok
    (<[LocalStorageAdapter.getSessionKey sid :=
         LocalStorageAdapter.JSON_stringify_cell
           (PersistedState.to_value (written sid d tab now st))]> st) = true →
  LocalStorageAdapter.getSessionList st = JS.Throw e →
  let r := LocalStorageAdapter.saveState sid d tab ty now st in
  SyncResult.success r.1 = false ∧
  SyncResult.error r.1 = Some e ∧
  LocalStorageAdapter.getItem (LocalStorageAdapter.getSessionKey sid) r.2 =
    Some (LocalStorageAdapter.JSON_stringify_cell
            (PersistedState.to_value (written sid d tab now st))) ∧
  LocalStorageAdapter.hasSession sid r.2 = true ∧
  LocalStorageAdapter.getActiveSessionId r.2 = LocalStorageAdapter.getActiveSessionId st.
Proof.
  intros Hq He r.
  assert (Hr : r = (SyncResult.mk false sid (JS.ValidDate now) (Some e) None,
                    <[LocalStorageAdapter.getSessionKey sid :=
                        LocalStorageAdapter.JSON_stringify_cell
                          (PersistedState.to_value (written sid d tab now st))]> st)).
  { subst r. unfold LocalStorageAdapter.saveState. fold (written sid d tab now st).
    unfold LocalStorageAdapter.setItem at 1. rewrite Hq.
    unfold LocalStorageAdapter.updateSessionList.
    rewrite getSessionList_other by apply key_ne_list. by rewrite He. }
  rewrite Hr. simpl.
  unfold LocalStorageAdapter.hasSession, LocalStorageAdapter.getActiveSessionId,
    LocalStorageAdapter.getItem.
  rewrite lookup_insert_eq.
  rewrite lookup_insert_ne by apply key_ne_active.
  split_and!; try done.
Qed.
End LocalWrites.

Section LocalRemovals.
Context `{JS.Platform} `{LocalStorageAdapter.Browser}.
Implicit Types st : gmap string LocalStorageAdapter.cell.

Lemma deleteSession_success_inv sid now st :
  SyncResult.success (LocalStorageAdapter.deleteSession sid now st).1 = true →
  ∃ sl l,
    LocalStorageAdapter.getSessionList st = JS.Normal sl ∧
    LocalStorageAdapter.without sl sid = JS.Normal l ∧
    (LocalStorageAdapter.deleteSession sid now st).2 =
      let st2 := <[LocalStorageAdapter.SESSION_LIST_KEY := LocalStorageAdapter.Json l]>
                   (LocalStorageAdapter.removeItem (LocalStorageAdapter.getSessionKey sid) st) in
      if bool_decide (LocalStorageAdapter.getActiveSessionId st2 = Some sid)
      then LocalStorageAdapter.removeItem LocalStorageAdapter.ACTIVE_SESSION_KEY st2
      else st2.
Proof.
  unfold LocalStorageAdapter.deleteSession. rewrite getSessionList_removeItem.
  destruct (LocalStorageAdapter.getSessionList st) as [sl|]; [|done]. simpl.
  destruct (LocalStorageAdapter.without sl sid) as [l|] eqn:Hl; [|done]. simpl.
  destruct (LocalStorageAdapter.setItem _ _ _) as [st2|] eqn:Hset; [|done].
  apply setItem_Normal in Hset as ->. simpl. intros _. by exists sl, l.
Qed.

Lemma without_excludes sl sid items :
  LocalStorageAdapter.without sl sid = JS.Normal (JS.JArray items) →
  existsb (LocalStorageAdapter.is_id sid) items = false.
Proof.
  destruct sl as [| | | |l|]; simpl; try done. intros [= <-].
  induction l as [|x l IH]; simpl; [done|].
  destruct (LocalStorageAdapter.is_id sid x) eqn:Hx; simpl; [done|]. by rewrite Hx.
Qed.

Lemma without_is_array sl sid l :
  LocalStorageAdapter.without sl sid = JS.Normal l → ∃ items, l = JS.JArray items.
Proof. destruct sl; simpl; try done. intros [= <-]. by eexists. Qed.

(** X3.  After a successful [deleteSession] of the on-device adapter the
    session has no record, the index (an array) does not name it and the
    active session pointer does not point to it; the records of the other
    sessions are left as they were, and so is a pointer to another
    session. *)
Theorem local_deleteSession_removes sid now st :
  SyncResult.success (LocalStorageAdapter.deleteSession sid now st).1 = true →
  let st' := (LocalStorageAdapter.deleteSession sid now st).2 in
  LocalStorageAdapter.loadState sid st' = None ∧
  LocalStorageAdapter.hasSession sid st' = false ∧
  (∃ items, LocalStorageAdapter.getSessionList st' = JS.Normal (JS.JArray items) ∧
            existsb (LocalStorageAdapter.is_id sid) items = false) ∧
  LocalStorageAdapter.getActiveSessionId st' ≠ Some sid ∧
  (LocalStorageAdapter.getActiveSessionId st ≠ Some sid →
   LocalStorageAdapter.getActiveSessionId st' = LocalStorageAdapter.getActiveSessionId st) ∧
  (∀ sid', sid' ≠ sid →
     LocalStorageAdapter.loadState sid' st' = LocalStorageAdapter.loadState sid' st ∧
     LocalStorageAdapter.hasSession sid' st' = LocalStorageAdapter.hasSession sid' st).
Proof.
  intros (sl & l & Hsl & Hl & Hst)%deleteSession_success_inv st'. fold st' in Hst.
  destruct (without_is_array _ _ _ Hl) as [items ->].
  set (st2 := <[LocalStorageAdapter.SESSION_LIST_KEY := LocalStorageAdapter.Json (JS.JArray items)]>
                (LocalStorageAdapter.removeItem (LocalStorageAdapter.getSessionKey sid) st)) in *.
  simpl in Hst.
  assert (Hrec : ∀ k, k ≠ LocalStorageAdapter.SESSION_LIST_KEY →
                      k ≠ LocalStorageAdapter.ACTIVE_SESSION_KEY →
                      st' !! k = delete (LocalStorageAdapter.getSessionKey sid) st !! k).
  { intros k Hk1 Hk2. rewrite Hst. unfold LocalStorageAdapter.removeItem.
    case_bool_decide; rewrite ?lookup_delete_ne by done; subst st2;
      by rewrite lookup_insert_ne by done. }
  assert (Hlist : st' !! LocalStorageAdapter.SESSION_LIST_KEY =
                    Some (LocalStorageAdapter.Json (JS.JArray items))).
  { rewrite Hst. unfold LocalStorageAdapter.removeItem.
    case_bool_decide; rewrite ?lookup_delete_ne by apply not_eq_sym, list_ne_active;
      subst st2; by rewrite lookup_insert_eq. }
  assert (Hact2 : LocalStorageAdapter.getActiveSessionId st2 =
                    LocalStorageAdapter.getActiveSessionId st).
  { subst st2. unfold LocalStorageAdapter.getActiveSessionId, LocalStorageAdapter.getItem,
      LocalStorageAdapter.removeItem.
    rewrite lookup_insert_ne by apply list_ne_active.
    by rewrite lookup_delete_ne by apply key_ne_active. }
  assert (Hgone : LocalStorageAdapter.getItem (LocalStorageAdapter.getSessionKey sid) st' = None).
  { unfold LocalStorageAdapter.getItem.
    rewrite Hrec by (apply key_ne_list || apply key_ne_active). apply lookup_delete_eq. }
  split_and!.
  - unfold LocalStorageAdapter.loadState. by rewrite Hgone.
  - unfold LocalStorageAdapter.hasSession. rewrite Hgone.
    apply bool_decide_eq_false_2. by intros [??].
  - exists items. split; [|by eapply without_excludes].
    unfold LocalStorageAdapter.getSessionList, LocalStorageAdapter.getItem. by rewrite Hlist.
  - rewrite Hst. case_bool_decide as Ha; [|done].
    unfold LocalStorageAdapter.getActiveSessionId, LocalStorageAdapter.getItem,
      LocalStorageAdapter.removeItem. by rewrite lookup_delete_eq.
  - intros Hother. rewrite Hst. rewrite bool_decide_eq_false_2 by (by rewrite Hact2). done.
  - intros sid' Hne.
    assert (LocalStorageAdapter.getItem (LocalStorageAdapter.getSessionKey sid') st' =
            LocalStorageAdapter.getItem (LocalStorageAdapter.getSessionKey sid') st) as Hget.
    { unfold LocalStorageAdapter.getItem.
      rewrite Hrec by (apply key_ne_list || apply key_ne_active).
      by rewrite lookup_delete_ne by (apply not_eq_sym, getSessionKey_ne, Hne). }
    split; [by apply loadState_same_record|by apply hasSession_same_record].
Qed.

Lemma foldl_removeItem_lookup (ids : list JS.json) st k :
  foldl (λ st sessionId,
           LocalStorageAdapter.removeItem
             (LocalStorageAdapter.getSessionKey (JS.ToString_json sessionId)) st) st ids !! k =
    if bool_decide (k ∈ (λ id, LocalStorageAdapter.getSessionKey (JS.ToString_json id)) <$> ids)
    then None else st !! k.
Proof.
  revert st. induction ids as [|id ids IH]; intros st; simpl; [done|].
  rewrite IH. unfold LocalStorageAdapter.removeItem.
  destruct (decide (k = LocalStorageAdapter.getSessionKey (JS.ToString_json id))) as [->|Hne].
  - rewrite lookup_delete_eq. rewrite (bool_decide_eq_true_2 (_ ∈ _ :: _)) by left.
    by case_bool_decide.
  - rewrite lookup_delete_ne by done.
    case_bool_decide as Hin.
    + rewrite bool_decide_eq_true_2; [done|]. by right.
    + rewrite bool_decide_eq_false_2; [done|]. by intros [?|?]%elem_of_cons.
Qed.

Lemma clearAll_inv now st ids :
  indexed st = JS.Normal ids →
  LocalStorageAdapter.clearAll now st =
    (SyncResult.mk true "all" (JS.ValidDate now) None None,
     LocalStorageAdapter.removeItem LocalStorageAdapter.ACTIVE_SESSION_KEY
       (LocalStorageAdapter.removeItem LocalStorageAdapter.SESSION_LIST_KEY
          (foldl (λ st sessionId,
                    LocalStorageAdapter.removeItem
                      (LocalStorageAdapter.getSessionKey (JS.ToString_json sessionId)) st)
             st ids))).
Proof. unfold indexed, LocalStorageAdapter.clearAll. by intros ->. Qed.

(** X4.  [clearAll] of the on-device adapter, when the index can be read:
    it succeeds; afterwards no session is listed, the active session pointer
    is unset and no identifier of the index has a record; a record the index
    did not name is still there.  When the index cannot be read, [clearAll]
    fails and removes nothing. *)
Theorem local_clearAll_clears now st :
  (∀ ids, indexed st = JS.Normal ids →
     let r := LocalStorageAdapter.clearAll now st in
     SyncResult.success r.1 = true ∧
     LocalStorageAdapter.listSessions r.2 = [] ∧
     LocalStorageAdapter.getActiveSessionId r.2 = None ∧
     (∀ id, id ∈ ids → LocalStorageAdapter.hasSession (JS.ToString_json id) r.2 = false) ∧
     (∀ sid, (∀ id, id ∈ ids → JS.ToString_json id ≠ sid) →
        LocalStorageAdapter.loadState sid r.2 = LocalStorageAdapter.loadState sid st ∧
        LocalStorageAdapter.hasSession sid r.2 = LocalStorageAdapter.hasSession sid st)) ∧
  (∀ e, indexed st = JS.Throw e →
     LocalStorageAdapter.clearAll now st =
       (SyncResult.mk false "all" (JS.ValidDate now) (Some e) None, st)).
Proof.
  split.
  - intros ids Hids r. subst r. rewrite (clearAll_inv _ _ _ Hids). simpl.
    set (st1 := foldl _ st ids).
    assert (Hrec : ∀ sid,
      LocalStorageAdapter.getItem (LocalStorageAdapter.getSessionKey sid)
        (LocalStorageAdapter.removeItem LocalStorageAdapter.ACTIVE_SESSION_KEY
           (LocalStorageAdapter.removeItem LocalStorageAdapter.SESSION_LIST_KEY st1)) =
      if bool_decide (LocalStorageAdapter.getSessionKey sid ∈
            (λ id, LocalStorageAdapter.getSessionKey (JS.ToString_json id)) <$> ids)
      then None else st !! LocalStorageAdapter.getSessionKey sid).
    { intros sid. unfold LocalStorageAdapter.getItem, LocalStorageAdapter.removeItem.
      rewrite lookup_delete_ne by apply not_eq_sym, key_ne_active.
      rewrite lookup_delete_ne by apply not_eq_sym, key_ne_list.
      apply foldl_removeItem_lookup. }
    split_and!.
    + done.
    + unfold LocalStorageAdapter.listSessions, LocalStorageAdapter.getSessionList,
        LocalStorageAdapter.getItem, LocalStorageAdapter.removeItem.
      rewrite lookup_delete_ne by apply not_eq_sym, list_ne_active.
      by rewrite lookup_delete_eq.
    + unfold LocalStorageAdapter.getActiveSessionId, LocalStorageAdapter.getItem,
        LocalStorageAdapter.removeItem. by rewrite lookup_delete_eq.
    + intros id Hid. unfold LocalStorageAdapter.hasSession. rewrite Hrec.
      rewrite (bool_decide_eq_true_2 (_ ∈ _)).
      * apply bool_decide_eq_false_2. by intros [??].
      * apply list_elem_of_fmap. by exists id.
    + intros sid Hnot.
      assert (LocalStorageAdapter.getItem (LocalStorageAdapter.getSessionKey sid)
                (LocalStorageAdapter.removeItem LocalStorageAdapter.ACTIVE_SESSION_KEY
                   (LocalStorageAdapter.removeItem LocalStorageAdapter.SESSION_LIST_KEY st1)) =
              LocalStorageAdapter.getItem (LocalStorageAdapter.getSessionKey sid) st) as Hget.
      { rewrite Hrec. rewrite (bool_decide_eq_false_2 (_ ∈ _)); [done|].
        intros (id & Heq & Hid)%list_elem_of_fmap.
        apply getSessionKey_inj in Heq. by apply (Hnot id). }
      split; [by apply loadState_same_record|by apply hasSession_same_record].
  - intros e He. unfold indexed in He. unfold LocalStorageAdapter.clearAll. by rewrite He.
Qed.

(** X5.  [healthCheck] of the on-device adapter answers whether the probe
    fits the store, and leaves every key but the probe's as it was: a store
    without the probe key comes out unchanged. *)
Theorem local_healthCheck_probe now st :
  let probe := LocalStorageAdapter.STORAGE_PREFIX +:+ ":health-check" in
  let r := LocalStorageAdapter.healthCheck now st in
  r.1 = LocalStorageAdapter.quota_ok (<[probe := LocalStorageAdapter.Text (pretty now)]> st) ∧
  (∀ k, k ≠ probe → r.2 !! k = st !! k) ∧
  (st !! probe = None → r.2 = st).
Proof.
  intros probe r. subst r. unfold LocalStorageAdapter.healthCheck, LocalStorageAdapter.setItem.
  fold probe.
  destruct (LocalStorageAdapter.quota_ok _) eqn:Hq; simpl.
  - unfold LocalStorageAdapter.getItem, LocalStorageAdapter.removeItem.
    rewrite lookup_insert_eq. simpl.
    split_and!.
    + by apply bool_decide_eq_true_2.
    + intros k Hk. rewrite lookup_delete_ne by done. by rewrite lookup_insert_ne.
    + intros Hnone. rewrite delete_insert_eq. by apply delete_id.
  - done.
Qed.
End LocalRemovals.

Section LocalRecords.
Context `{JS.Platform} `{LocalStorageAdapter.Browser}.
Implicit Types st : gmap string LocalStorageAdapter.cell.

(** The metadata [loadState] rebuilds from the metadata [saveState] wrote. *)
Lemma revive_metadata_written (md : SessionMetadata.t) :
  ∃ m',
    LocalStorageAdapter.revive_metadata (reparsed (SessionMetadata.to_value md)) = JS.Normal m' ∧
    JS.get_prop m' "sessionId" = JS.Normal (JS.VString (SessionMetadata.sessionId md)) ∧
    JS.get_prop m' "rowCount" = JS.Normal (JS.VNumber (SessionMetadata.rowCount md)) ∧
    JS.get_prop m' "labelCount" = JS.Normal (JS.VNumber (SessionMetadata.labelCount md)) ∧
    JS.get_prop m' "ruleCount" = JS.Normal (JS.VNumber (SessionMetadata.ruleCount md)) ∧
    JS.get_prop m' "lastModified" =
      JS.Normal (JS.VDate (JS.new_Date (reparsed (JS.VDate (SessionMetadata.lastModified md))))).
Proof.
  destruct md as [sid fn lm rc lc uc sty ss ls v].
  destruct fn, lm, ss, ls as [[]|], v; eexists; (split; [reflexivity|]);
    split_and!; reflexivity.
Qed.

Lemma revive_written_record p :
  LocalStorageAdapter.revivable (PersistedState.dataState p) = true →
  ∃ m',
    LocalStorageAdapter.revive_metadata
      (reparsed (SessionMetadata.to_value (PersistedState.metadata p))) = JS.Normal m' ∧
    LocalStorageAdapter.revive (reparsed (PersistedState.to_value p)) =
      JS.Normal
        (JS.VObject
           [("sessionId", JS.VString (PersistedState.sessionId p));
            ("dataState", DataState.to_value (PersistedState.dataState p));
            ("activeTab", JS.VString (PersistedState.activeTab p));
            ("metadata", m');
            ("createdAt",
             JS.VDate (JS.new_Date (reparsed (JS.VDate (PersistedState.createdAt p)))));
            ("updatedAt",
             JS.VDate (JS.new_Date (reparsed (JS.VDate (PersistedState.updatedAt p)))))]).
Proof.
  intros Hd.
  destruct (revive_metadata_written (PersistedState.metadata p)) as (m' & Hm' & _).
  exists m'. split; [done|].
  unfold PersistedState.to_value.
  rewrite reparsed_object.
  2:{ repeat constructor; simpl; try (by eexists).
      - by destruct (PersistedState.createdAt p).
      - by destruct (PersistedState.updatedAt p). }
  simpl fmap. unfold prod_map. simpl fst. simpl snd.
  erewrite revive_record; [|exact Hm'|by apply revive_dataState_revivable].
  reflexivity.
Qed.

(** The record [loadState] returns after a successful [saveState]. *)
Lemma loadState_written sid d tab ty now st :
  LocalStorageAdapter.revivable d = true →
  SyncResult.success (LocalStorageAdapter.saveState sid d tab ty now st).1 = true →
  ∃ m',
    LocalStorageAdapter.revive_metadata
      (reparsed (SessionMetadata.to_value
                   (PersistedState.metadata (written sid d tab now st)))) = JS.Normal m' ∧
    LocalStorageAdapter.loadState sid (LocalStorageAdapter.saveState sid d tab ty now st).2 =
      Some
        (JS.VObject
           [("sessionId", JS.VString sid);
            ("dataState", DataState.to_value d);
            ("activeTab", JS.VString tab);
            ("metadata", m');
            ("createdAt",
             JS.VDate (JS.new_Date (reparsed (JS.VDate
               (PersistedState.createdAt (written sid d tab now st))))));
            ("updatedAt",
             JS.VDate (JS.new_Date (reparsed (JS.VDate (JS.ValidDate now)))))]).
Proof.
  intros Hd (st2 & Hu & ->)%saveState_success_inv.
  destruct (revive_written_record (written sid d tab now st) Hd) as (m' & Hm' & Hr).
  exists m'. split; [done|].
  unfold LocalStorageAdapter.loadState, LocalStorageAdapter.getItem.
  rewrite lookup_insert_ne by (apply not_eq_sym, key_ne_active).
  rewrite (updateSessionList_other _ _ _ _ Hu) by apply key_ne_list.
  rewrite lookup_insert_eq.
  unfold LocalStorageAdapter.JSON_stringify_cell.
  unfold reparsed in Hr at 1.
  destruct (JS.JSON_stringify (PersistedState.to_value (written sid d tab now st)))
    as [j|] eqn:Hj; [|done].
  simpl. simpl in Hr. by rewrite Hr.
Qed.


Lemma loadState_is_object sid st state :
  LocalStorageAdapter.loadState sid st = Some state → ∃ props, state = JS.VObject props.
Proof.
  unfold LocalStorageAdapter.loadState.
  destruct (LocalStorageAdapter.getItem _ st) as [c|]; [|done].
  destruct (LocalStorageAdapter.no_data _); [done|].
  destruct (LocalStorageAdapter.JSON_parse c) as [j|]; [|done]. simpl.
  unfold LocalStorageAdapter.revive.
  destruct (LocalStorageAdapter.revive_dates _ _); [|done]. simpl.
  destruct (JS.get_prop _ "metadata"); [|done]. simpl.
  destruct (LocalStorageAdapter.revive_metadata _); [|done]. simpl.
  destruct (JS.get_prop _ "dataState"); [|done]. simpl.
  destruct (LocalStorageAdapter.revive_dataState _); [|done]. simpl.
  intros [= <-]. by eexists.
Qed.

Lemma listed_metadata ids st :
  JS.cmapM (λ state, JS.get_prop state "metadata") (LocalStorageAdapter.listed_states ids st) =
    JS.Normal
      ((λ state, default JS.VUndefined
                   (match state with JS.VObject props => JS.map_get "metadata" props
                    | _ => None end)) <$> LocalStorageAdapter.listed_states ids st).
Proof.
  unfold LocalStorageAdapter.listed_states.
  induction ids as [|id ids IH]; [done|]. cbn.
  destruct (LocalStorageAdapter.loadState _ st) as [state|] eqn:Hload; [|exact IH].
  destruct (loadState_is_object _ _ _ Hload) as [props ->].
  rewrite cmapM_cons. simpl. rewrite IH. done.
Qed.

(** X7.  A session saved on the device is listed: after a successful
    [saveState] into a store whose index is an array (or absent), with a
    payload [loadState] rebuilds, [listSessions] has an entry for the session
    that carries its identifier, the counts of the payload and the time of the
    save. *)
Theorem local_saved_session_is_listed sid d tab ty now st items :
  LocalStorageAdapter.getSessionList st = JS.Normal (JS.JArray items) →
  LocalStorageAdapter.revivable d = true →
  JS.survives (JS.VDate (JS.ValidDate now)) = true →
  SyncResult.success (LocalStorageAdapter.saveState sid d tab ty now st).1 = true →
  ∃ m,
    m ∈ LocalStorageAdapter.listSessions (LocalStorageAdapter.saveState sid d tab ty now st).2 ∧
    JS.get_prop m "sessionId" = JS.Normal (JS.VString sid) ∧
    JS.get_prop m "rowCount" = JS.Normal (JS.VNumber (DataState.rowCount d)) ∧
    JS.get_prop m "labelCount" = JS.Normal (JS.VNumber (DataState.labelCount d)) ∧
    JS.get_prop m "ruleCount" = JS.Normal (JS.VNumber (DataState.ruleCount d)) ∧
    LocalStorageAdapter.lastModified_time m = Some now.
Proof.
  intros Hidx Hd Hnow Hs.
  destruct (loadState_written sid d tab ty now st Hd Hs) as (m' & Hm' & Hload).
  destruct (revive_metadata_written (PersistedState.metadata (written sid d tab now st)))
    as (m'' & Hm'' & Hsid & Hrc & Hlc & Huc & Hlm).
  rewrite Hm' in Hm''. injection Hm'' as <-.
  apply survives_revived in Hnow as [_ Hnow].
  destruct (saveState_index _ _ _ _ _ _ Hs) as (sl' & Hsl' & Hin' & sl & Hsl & Hsame).
  rewrite Hidx in Hsl. injection Hsl as <-.
  set (st' := (LocalStorageAdapter.saveState sid d tab ty now st).2) in *.
  exists m'. split_and!; try done.
  - assert (∃ items', sl' = JS.JArray items') as [items' ->].
    { apply saveState_success_inv in Hs as (st2 & Hu & Hst').
      fold st' in Hst'.
      apply updateSessionList_inv in Hu as (sl0 & Hsl0 & Hcase).
      rewrite getSessionList_other in Hsl0 by apply key_ne_list.
      rewrite Hidx in Hsl0. injection Hsl0 as <-.
      destruct Hcase as [[Hin0 ->]|(Hin0 & sl1 & Hpush & ->)].
      - rewrite Hst' in Hsl'. rewrite getSessionList_other in Hsl'
          by apply not_eq_sym, list_ne_active.
        rewrite getSessionList_other in Hsl' by apply key_ne_list.
        rewrite Hidx in Hsl'. injection Hsl' as <-. by eexists.
      - rewrite Hst' in Hsl'. rewrite getSessionList_other in Hsl'
          by apply not_eq_sym, list_ne_active.
        rewrite getSessionList_written in Hsl'. injection Hsl' as <-.
        simpl in Hpush. injection Hpush as <-. by eexists. }
    unfold LocalStorageAdapter.listSessions. rewrite Hsl'. simpl.
    rewrite listed_metadata. rewrite sort_perm.
    simpl in Hin'. injection Hin' as Hin'.
    apply existsb_exists in Hin' as (id & Hid & Hisid).
    apply list_elem_of_In in Hid.
    destruct id as [| | |s| |]; simpl in Hisid; try done.
    apply bool_decide_eq_true in Hisid as ->.
    apply list_elem_of_fmap.
    eexists. split; [|apply list_elem_of_omap; eexists; split; [exact Hid|exact Hload]].
    reflexivity.
  - unfold LocalStorageAdapter.lastModified_time. rewrite Hlm.
    change (SessionMetadata.lastModified (PersistedState.metadata (written sid d tab now st)))
      with (JS.ValidDate now).
    by assert (JS.new_Date (reparsed (JS.VDate (JS.ValidDate now))) = JS.ValidDate now)
      as -> by congruence.
Qed.
End LocalRecords.

(** * Further properties of the HTTP client and of the remote adapter *)

Section Requests.
Context `{JS.Platform} {S : Type} `{ApiClient.Network S}.

(** X8.  A response of [ApiClient.request] carries data or an error, never
    both and never neither: with data the status is the 2xx status of the
    answer; without data there is an error message, the status is the one of
    the answer, 408 after a timeout and 0 when the request failed or the body
    was not JSON.  The network is left as [fetch] left it. *)
Theorem request_data_or_error baseUrl method path body net :
  let r := ApiClient.request baseUrl method path body net in
  let sent := match body with
              | Some b => if JS.falsy b then None else JS.JSON_stringify b
              | None => None
              end in
  let f := ApiClient.fetch method (baseUrl +:+ path) sent net in
  r.2 = f.2 ∧
  (is_Some (ApiClient.data r.1) ↔ ApiClient.error r.1 = None) ∧
  (is_Some (ApiClient.data r.1) → 200 ≤ ApiClient.status r.1 ≤ 299) ∧
  (ApiClient.data r.1 = None → is_Some (ApiClient.error r.1)) ∧
  (ApiClient.status r.1 = 0 → ApiClient.data r.1 = None) ∧
  (f.1 = ApiClient.Aborted →
   r.1 = ApiClient.mk None (Some "Request timeout") 408) ∧
  (∀ message, f.1 = ApiClient.Failed message →
   r.1 = ApiClient.mk None (Some message) 0).
Proof.
  intros r sent f. subst r f. unfold ApiClient.request. fold sent.
  destruct (ApiClient.fetch method (baseUrl +:+ path) sent net) as [outcome net'].
  simpl. split; [done|].
  destruct outcome as [status statusText bodyText bodyJson| |message|]; simpl;
    [case_bool_decide as Hok; [destruct bodyJson as [d|e]|]|..]; simpl;
    split_and!;
    first [ done | by intros [??] | by eexists | by (intros ?; lia)
          | by (split; [intros [??]|]) | by (split; [|eexists])
          | by intros ? [= ->] ].
Qed.

Lemma request_responded baseUrl method path body net status statusText bodyText bodyJson net' :
  ApiClient.fetch method (baseUrl +:+ path)
    (match body with
     | Some b => if JS.falsy b then None else JS.JSON_stringify b
     | None => None
     end) net = (ApiClient.Responded status statusText bodyText bodyJson, net') →
  ¬ (200 ≤ status ≤ 299) →
  ∃ e, e ≠ EmptyString ∧
       ApiClient.request baseUrl method path body net = (ApiClient.mk None (Some e) status, net').
Proof.
  intros Hf Hno. unfold ApiClient.request. rewrite Hf.
  rewrite bool_decide_eq_false_2 by done.
  eexists. split; [|reflexivity].
  case_decide as Hb; [|done]. by destruct (pretty status).
Qed.

Lemma request_failed baseUrl method path body net message net' :
  ApiClient.fetch method (baseUrl +:+ path)
    (match body with
     | Some b => if JS.falsy b then None else JS.JSON_stringify b
     | None => None
     end) net = (ApiClient.Failed message, net') →
  ApiClient.request baseUrl method path body net = (ApiClient.mk None (Some message) 0, net').
Proof. intros Hf. unfold ApiClient.request. by rewrite Hf. Qed.

(** X9.  The [isOnline] flag of the remote adapter after [saveState],
    [deleteSession], [clearAll] and [healthCheck] is the outcome of that
    call. *)
Theorem backend_isOnline_is_last_outcome sid d tab ty now (s : BackendAdapter.t * S) :
  BackendAdapter.isOnline (BackendAdapter.saveState sid d tab ty now s).2.1 =
    SyncResult.success (BackendAdapter.saveState sid d tab ty now s).1 ∧
  BackendAdapter.isOnline (BackendAdapter.deleteSession sid now s).2.1 =
    SyncResult.success (BackendAdapter.deleteSession sid now s).1 ∧
  BackendAdapter.isOnline (BackendAdapter.clearAll now s).2.1 =
    SyncResult.success (BackendAdapter.clearAll now s).1 ∧
  BackendAdapter.isOnline (BackendAdapter.healthCheck s).2.1 = (BackendAdapter.healthCheck s).1.
Proof.
  split_and!.
  - unfold BackendAdapter.saveState. destruct (ApiClient.post _ _ _ _) as [r net].
    by destruct (ApiClient.has_error r).
  - unfold BackendAdapter.deleteSession. destruct (ApiClient.delete _ _ _) as [r net].
    by destruct (ApiClient.has_error r).
  - unfold BackendAdapter.clearAll. destruct (ApiClient.delete _ _ _) as [r net].
    by destruct (ApiClient.has_error r).
  - unfold BackendAdapter.healthCheck. by destruct (ApiClient.healthCheck _ _) as [b net].
Qed.

(** X10.  The reading methods of the remote adapter tell an absent session
    from an unreachable service.  When the service answers [loadState],
    [hasSession] or [listSessions] with a status outside 2xx (other than 0),
    the method returns [null], [false] or the empty list and the adapter
    stays online; when the request fails with a message, it returns the same
    and the adapter goes offline. *)
Theorem backend_absent_is_not_offline sid (s : BackendAdapter.t * S) :
  (∀ status statusText bodyText bodyJson net',
     ApiClient.fetch ApiClient.GET (BackendAdapter.baseUrl s.1 +:+ "/sessions/" +:+ sid)
       None s.2 = (ApiClient.Responded status statusText bodyText bodyJson, net') →
     ¬ (200 ≤ status ≤ 299) → status ≠ 0 →
     BackendAdapter.loadState sid s = (None, (BackendAdapter.set_online true s.1, net'))) ∧
  (∀ message net',
     ApiClient.fetch ApiClient.GET (BackendAdapter.baseUrl s.1 +:+ "/sessions/" +:+ sid)
       None s.2 = (ApiClient.Failed message, net') →
     message ≠ EmptyString →
     BackendAdapter.loadState sid s = (None, (BackendAdapter.set_online false s.1, net'))) ∧
  (∀ status statusText bodyText bodyJson net',
     ApiClient.fetch ApiClient.GET
       (BackendAdapter.baseUrl s.1 +:+ "/sessions/" +:+ sid +:+ "/exists")
       None s.2 = (ApiClient.Responded status statusText bodyText bodyJson, net') →
     ¬ (200 ≤ status ≤ 299) → status ≠ 0 →
     BackendAdapter.hasSession sid s = (false, (BackendAdapter.set_online true s.1, net'))) ∧
  (∀ message net',
     ApiClient.fetch ApiClient.GET
       (BackendAdapter.baseUrl s.1 +:+ "/sessions/" +:+ sid +:+ "/exists")
       None s.2 = (ApiClient.Failed message, net') →
     BackendAdapter.hasSession sid s = (false, (BackendAdapter.set_online false s.1, net'))) ∧
  (∀ status statusText bodyText bodyJson net',
     ApiClient.fetch ApiClient.GET (BackendAdapter.baseUrl s.1 +:+ "/sessions")
       None s.2 = (ApiClient.Responded status statusText bodyText bodyJson, net') →
     ¬ (200 ≤ status ≤ 299) → status ≠ 0 →
     BackendAdapter.listSessions s = ([], (BackendAdapter.set_online true s.1, net'))) ∧
  (∀ message net',
     ApiClient.fetch ApiClient.GET (BackendAdapter.baseUrl s.1 +:+ "/sessions")
       None s.2 = (ApiClient.Failed message, net') →
     message ≠ EmptyString →
     BackendAdapter.listSessions s = ([], (BackendAdapter.set_online false s.1, net'))).
Proof.
  split_and!.
  - intros status statusText bodyText bodyJson net' Hf Hno Hz.
    destruct (request_responded (BackendAdapter.baseUrl s.1) ApiClient.GET
                ("/sessions/" +:+ sid) None s.2 _ _ _ _ _ Hf Hno) as (e & He & Hr).
    unfold BackendAdapter.loadState, ApiClient.get. rewrite Hr.
    unfold ApiClient.has_error. simpl. rewrite decide_False by done. simpl.
    by rewrite bool_decide_eq_true_2.
  - intros message net' Hf Hm.
    pose proof (request_failed (BackendAdapter.baseUrl s.1) ApiClient.GET
                  ("/sessions/" +:+ sid) None s.2 _ _ Hf) as Hr.
    unfold BackendAdapter.loadState, ApiClient.get. rewrite Hr.
    unfold ApiClient.has_error. simpl. rewrite decide_False by done. simpl.
    done.
  - intros status statusText bodyText bodyJson net' Hf Hno Hz.
    destruct (request_responded (BackendAdapter.baseUrl s.1) ApiClient.GET
                ("/sessions/" +:+ sid +:+ "/exists") None s.2 _ _ _ _ _ Hf Hno) as (e & He & Hr).
    unfold BackendAdapter.hasSession, ApiClient.get. rewrite Hr. simpl.
    rewrite bool_decide_eq_false_2 by (intros ->; apply Hno; lia).
    by rewrite bool_decide_eq_true_2.
  - intros message net' Hf.
    pose proof (request_failed (BackendAdapter.baseUrl s.1) ApiClient.GET
                  ("/sessions/" +:+ sid +:+ "/exists") None s.2 _ _ Hf) as Hr.
    unfold BackendAdapter.hasSession, ApiClient.get. by rewrite Hr.
  - intros status statusText bodyText bodyJson net' Hf Hno Hz.
    destruct (request_responded (BackendAdapter.baseUrl s.1) ApiClient.GET
                "/sessions" None s.2 _ _ _ _ _ Hf Hno) as (e & He & Hr).
    unfold BackendAdapter.listSessions, ApiClient.get. rewrite Hr.
    unfold ApiClient.has_error. simpl. rewrite decide_False by done. simpl.
    by rewrite bool_decide_eq_true_2.
  - intros message net' Hf Hm.
    pose proof (request_failed (BackendAdapter.baseUrl s.1) ApiClient.GET
                  "/sessions" None s.2 _ _ Hf) as Hr.
    unfold BackendAdapter.listSessions, ApiClient.get. rewrite Hr.
    unfold ApiClient.has_error. simpl. rewrite decide_False by done. simpl.
    done.
Qed.
End Requests.

(** * Further properties of the orchestrator *)

Section SortByPriority.
Context {A : Type}.

Lemma sort_ext (cmp cmp' : A → A → option Z) l :
  (∀ a b, cmp a b = cmp' a b) → JS.sort cmp l = JS.sort cmp' l.
Proof.
  intros Hext. induction l as [|x l IH]; [done|].
  change (JS.sort cmp (x :: l)) with (JS.sort_insert cmp x (JS.sort cmp l)).
  change (JS.sort cmp' (x :: l)) with (JS.sort_insert cmp' x (JS.sort cmp' l)).
  rewrite IH. generalize (JS.sort cmp' l). intros l'.
  induction l' as [|y l' IH']; simpl; [done|]. by rewrite Hext, IH'.
Qed.

Lemma StronglySorted_weaken (R R' : A → A → Prop) l :
  (∀ a b, R a b → R' a b) → StronglySorted R l → StronglySorted R' l.
Proof.
  intros HR. induction 1 as [|x l Hl IH Hx]; constructor; [done|].
  eapply Forall_impl; [exact Hx|]. intros y. apply HR.
Qed.
End SortByPriority.

Section Strategies.
Context {W : Type}.
Implicit Types o : StateSync.t W.

Lemma sort_by_priority_desc (l : list (StateAdapter.t W)) :
  JS.sort StateSync.by_priority_desc l ≡ₚ l ∧
  StronglySorted (λ a b, StateAdapter.priority b ≤ StateAdapter.priority a)
    (JS.sort StateSync.by_priority_desc l).
Proof.
  split; [apply sort_perm|].
  apply (StronglySorted_weaken
           (not_older (λ a : StateAdapter.t W, Some (StateAdapter.priority a)))).
  { intros a b (ta & tb & [= <-] & [= <-] & Hle). done. }
  change StateSync.by_priority_desc
    with (newest_first (λ a : StateAdapter.t W, Some (StateAdapter.priority a))).
  apply sort_newest_first. apply Forall_forall. intros a _. by eexists.
Qed.

Lemma sort_by_priority_asc (l : list (StateAdapter.t W)) :
  JS.sort StateSync.by_priority_asc l ≡ₚ l ∧
  StronglySorted (λ a b, StateAdapter.priority a ≤ StateAdapter.priority b)
    (JS.sort StateSync.by_priority_asc l).
Proof.
  split; [apply sort_perm|].
  apply (StronglySorted_weaken
           (not_older (λ a : StateAdapter.t W, Some (- StateAdapter.priority a)))).
  { intros a b (ta & tb & [= <-] & [= <-] & Hle). lia. }
  rewrite (sort_ext _ (newest_first (λ a : StateAdapter.t W, Some (- StateAdapter.priority a)))).
  - apply sort_newest_first. apply Forall_forall. intros a _. by eexists.
  - intros a b. unfold StateSync.by_priority_asc, newest_first. simpl. f_equal. lia.
Qed.

(** X11.  The adapters a strategy works with: [local-first] takes every
    registered adapter by ascending priority; [backend-only] and [local-only]
    take the adapters named [backend], respectively [localStorage], and no
    other; every other strategy ([backend-first], [hybrid], an unknown one)
    takes every registered adapter by descending priority. *)
Theorem strategy_chooses_adapters o :
  let chosen := StateSync.getAdaptersByStrategy o in
  let all := JS.map_values (StateSync.adapters o) in
  let strategy := SyncConfig.strategy (StateSync.config o) in
  (strategy = "local-first" →
   chosen ≡ₚ all ∧
   StronglySorted (λ a b, StateAdapter.priority a ≤ StateAdapter.priority b) chosen) ∧
  (strategy = "backend-only" →
   ∀ a, a ∈ chosen ↔ a ∈ all ∧ StateAdapter.name a = "backend") ∧
  (strategy = "local-only" →
   ∀ a, a ∈ chosen ↔ a ∈ all ∧ StateAdapter.name a = "localStorage") ∧
  (strategy ∉ ["local-first"; "backend-only"; "local-only"] →
   chosen ≡ₚ all ∧
   StronglySorted (λ a b, StateAdapter.priority b ≤ StateAdapter.priority a) chosen).
Proof.
  intros chosen all strategy. subst chosen. unfold StateSync.getAdaptersByStrategy.
  fold all. fold strategy.
  split_and!.
  - intros ->. simpl. apply sort_by_priority_asc.
  - intros ->. simpl. intros a. by rewrite list_elem_of_filter, (comm and).
  - intros ->. simpl. intros a. by rewrite list_elem_of_filter, (comm and).
  - rewrite !not_elem_of_cons. intros (? & ? & ? & _).
    repeat case_decide; try done; apply sort_by_priority_desc.
Qed.
End Strategies.

Section Registry.
Context {W : Type}.

Lemma registry_keys (l : list (StateAdapter.t W)) (m : list (string * StateAdapter.t W)) :
  NoDup m.*1 → Forall (λ kv, kv.1 = StateAdapter.name kv.2) m →
  let m' := foldl (λ m a, JS.map_set (StateAdapter.name a) a m) m l in
  NoDup m'.*1 ∧ Forall (λ kv, kv.1 = StateAdapter.name kv.2) m' ∧
  (∀ a, a ∈ JS.map_values m' → a ∈ l ∨ a ∈ JS.map_values m).
Proof.
  revert m. induction l as [|a l IH]; intros m Hnd Hall; simpl.
  { split_and!; [done|done|]. intros a Ha. by right. }
  assert (Hset : NoDup (JS.map_set (StateAdapter.name a) a m).*1 ∧
                 Forall (λ kv, kv.1 = StateAdapter.name kv.2)
                   (JS.map_set (StateAdapter.name a) a m) ∧
                 ∀ b, b ∈ JS.map_values (JS.map_set (StateAdapter.name a) a m) →
                      b = a ∨ b ∈ JS.map_values m).
  { clear IH. induction m as [|[k v] m IHm]; simpl.
    - split_and!; [apply NoDup_singleton|by repeat constructor|].
      intros b ->%list_elem_of_singleton. by left.
    - apply NoDup_cons in Hnd as [Hk Hnd]. apply Forall_cons in Hall as [Hkv Hall].
      destruct (IHm Hnd Hall) as (IH1 & IH2 & IH3).
      case_decide as Heq; simpl.
      + subst k. split_and!.
        * by apply NoDup_cons.
        * by constructor.
        * intros b [->|Hb]%elem_of_cons; [by left|]. right. by right.
      + split_and!.
        * apply NoDup_cons. split; [|done].
          intros Hin. apply Hk.
          assert (Hkeys : ∀ k', k' ∈ (JS.map_set (StateAdapter.name a) a m).*1 →
                                k' = StateAdapter.name a ∨ k' ∈ m.*1).
          { intros k'. apply map_keys_set. }
          destruct (Hkeys k Hin) as [->|]; [done|done].
        * by constructor.
        * intros b [->|Hb]%elem_of_cons; [right; by left|].
          destruct (IH3 b Hb) as [->|?]; [by left|]. right. by right. }
  destruct Hset as (H1 & H2 & H3).
  destruct (IH _ H1 H2) as (IH1 & IH2 & IH3).
  split_and!; [done|done|].
  intros b Hb. destruct (IH3 b Hb) as [?|Hb'].
  - left. by right.
  - destruct (H3 b Hb') as [->|?]; [left; by left|by right].
Qed.

(** X12.  The constructor keeps one adapter per name, registered under its
    name, and only adapters of the configuration.  A [syncInterval] of [0]
    and a [retryAttempts] of [0] are replaced by the defaults [30000] and [3];
    the timer runs from the start unless [autoSync] is [false]. *)
Theorem constructor_registers_by_name (cfg : StateSync.StateSyncConfig W) :
  ∃ o,
    StateSync.constructor cfg = JS.Normal o ∧
    NoDup (JS.map_keys (StateSync.adapters o)) ∧
    Forall (λ kv, kv.1 = StateAdapter.name kv.2) (StateSync.adapters o) ∧
    (∀ a, a ∈ JS.map_values (StateSync.adapters o) → a ∈ StateSync.cfg_adapters cfg) ∧
    StateSync.pendingSyncs o = [] ∧
    SyncConfig.retryAttempts (StateSync.config o) ≠ 0 ∧
    StateSync.syncTimer o =
      (if default true (StateSync.cfg_autoSync cfg)
       then Some (JS.num_or (StateSync.cfg_syncInterval cfg) 30000)
       else None) ∧
    StateSync.syncTimer o ≠ Some 0.
Proof.
  unfold StateSync.constructor.
  destruct (registry_keys (StateSync.cfg_adapters cfg) []) as (Hnd & Hall & Hfrom);
    [constructor|constructor|].
  set (ads := foldl _ [] (StateSync.cfg_adapters cfg)) in *.
  assert (Hint : JS.num_or (StateSync.cfg_syncInterval cfg) 30000 ≠ 0).
  { unfold JS.num_or. destruct (StateSync.cfg_syncInterval cfg); [case_decide|]; done. }
  assert (Hretry : JS.num_or (StateSync.cfg_retryAttempts cfg) 3 ≠ 0).
  { unfold JS.num_or. destruct (StateSync.cfg_retryAttempts cfg); [case_decide|]; done. }
  eexists. split; [reflexivity|].
  simpl SyncConfig.autoSync. simpl SyncConfig.syncInterval.
  assert (JS.num_or (Some (JS.num_or (StateSync.cfg_syncInterval cfg) 30000)) 0 =
          JS.num_or (StateSync.cfg_syncInterval cfg) 30000) as ->.
  { unfold JS.num_or at 1. by rewrite decide_False. }
  rewrite (bool_decide_eq_true_2 (_ ≠ 0)) by done. rewrite andb_true_r.
  destruct (default true (StateSync.cfg_autoSync cfg)) eqn:Hauto.
  - unfold StateSync.startAutoSync_obj, StateSync.stopAutoSync_obj. simpl.
    rewrite decide_False by done. simpl.
    split_and!; try done.
    + intros a Ha. by destruct (Hfrom a Ha) as [?|?%elem_of_nil].
    + congruence.
  - simpl. split_and!; try done.
    intros a Ha. by destruct (Hfrom a Ha) as [?|?%elem_of_nil].
Qed.
End Registry.

Section Retries.
Context {W : Type} (now : W → Z) (delay : Z → W → W).
Implicit Types o : StateSync.t W.

Lemma saveToAdapter_loop_S n e rd (a : StateAdapter.t W) sid d tab ty o w :
  StateSync.saveToAdapter_loop now delay (S n) e rd a sid d tab ty (o, w) =
    let r := StateAdapter.saveState a sid d tab ty w in
    if SyncResult.success r.1 then (r.1, (o, r.2))
    else StateSync.saveToAdapter_loop now delay n (SyncResult.error r.1) rd a sid d tab ty
           (o, if n is O then r.2 else delay rd r.2).
Proof.
  simpl. unfold bind, StateSync.call. simpl.
  destruct (StateAdapter.saveState a sid d tab ty w) as [result w1]. simpl.
  destruct (SyncResult.success result); [done|]. by destruct n.
Qed.

Lemma saveToAdapter_loop_result n e rd (a : StateAdapter.t W) sid d tab ty o w :
  ∃ r, StateSync.saveToAdapter_loop now delay n e rd a sid d tab ty (o, w) = r ∧
  r.2.1 = o ∧
  (SyncResult.success r.1 = true →
   ∃ w', (StateAdapter.saveState a sid d tab ty w').1 = r.1) ∧
  (SyncResult.success r.1 = false →
   (n = 0%nat ∧ SyncResult.error r.1 = Some (JS.str_or e "Max retry attempts reached")) ∨
   ∃ w' r', (StateAdapter.saveState a sid d tab ty w') = r' ∧
            SyncResult.success r'.1 = false ∧
            SyncResult.error r.1 =
              Some (JS.str_or (SyncResult.error r'.1) "Max retry attempts reached")).
Proof.
  revert e w. induction n as [|n IH]; intros e w.
  { eexists. split; [reflexivity|]. simpl. split_and!; [done|done|]. intros _. by left. }
  rewrite saveToAdapter_loop_S. cbv zeta.
  destruct (SyncResult.success (StateAdapter.saveState a sid d tab ty w).1) eqn:Hs.
  { eexists. split; [reflexivity|]. simpl. split_and!; [done| |by rewrite Hs].
    intros _. by exists w. }
  destruct (IH (SyncResult.error (StateAdapter.saveState a sid d tab ty w).1)
              (if n is O then (StateAdapter.saveState a sid d tab ty w).2
               else delay rd (StateAdapter.saveState a sid d tab ty w).2))
    as (r & Hr & IH1 & IH2 & IH3).
  exists r. split; [done|]. split_and!; [done|done|].
  intros Hf. right. destruct (IH3 Hf) as [[-> He]|(w' & r' & Hr' & Hs' & He')].
  - by exists w, (StateAdapter.saveState a sid d tab ty w).
  - by exists w', r'.
Qed.

Lemma saveToAdapter_keeps_object (a : StateAdapter.t W) sid d tab ty o w :
  (StateSync.saveToAdapter now delay a sid d tab ty (o, w)).2.1 = o.
Proof.
  unfold StateSync.saveToAdapter, bind, StateSync.this. simpl.
  destruct (saveToAdapter_loop_result
              (Z.to_nat (SyncConfig.retryAttempts (StateSync.config o))) None
              (SyncConfig.retryDelay (StateSync.config o)) a sid d tab ty o w)
    as (r & Hr & H1 & _).
  by rewrite Hr.
Qed.

Lemma saveToAdapter_first_attempt (a : StateAdapter.t W) sid d tab ty o w :
  0 < SyncConfig.retryAttempts (StateSync.config o) →
  SyncResult.success (StateAdapter.saveState a sid d tab ty w).1 = true →
  StateSync.saveToAdapter now delay a sid d tab ty (o, w) =
    ((StateAdapter.saveState a sid d tab ty w).1,
     (o, (StateAdapter.saveState a sid d tab ty w).2)).
Proof.
  intros Hpos Hs. unfold StateSync.saveToAdapter, bind, StateSync.this. simpl.
  assert (∃ n', Z.to_nat (SyncConfig.retryAttempts (StateSync.config o)) = S n') as [n' ->]
    by (exists (Nat.pred (Z.to_nat (SyncConfig.retryAttempts (StateSync.config o)))); lia).
  rewrite saveToAdapter_loop_S. cbv zeta. by rewrite Hs.
Qed.

(** X13.  [saveToAdapter] leaves the orchestrator as it is.  A first attempt
    that succeeds is returned at once, without any delay.  A successful result
    is a result of the adapter; a failure carries the error of a failed
    attempt of the adapter (['Max retry attempts reached'] if that attempt
    gave none, or if [retryAttempts] allows no attempt). *)
Theorem saveToAdapter_retries (a : StateAdapter.t W) sid d tab ty o w :
  let r := StateSync.saveToAdapter now delay a sid d tab ty (o, w) in
  r.2.1 = o ∧
  (0 < SyncConfig.retryAttempts (StateSync.config o) →
   SyncResult.success (StateAdapter.saveState a sid d tab ty w).1 = true →
   r = ((StateAdapter.saveState a sid d tab ty w).1,
        (o, (StateAdapter.saveState a sid d tab ty w).2))) ∧
  (SyncConfig.retryAttempts (StateSync.config o) ≤ 0 →
   r = (SyncResult.mk false sid (JS.ValidDate (now w))
          (Some "Max retry attempts reached") None, (o, w))) ∧
  (SyncResult.success r.1 = true →
   ∃ w', (StateAdapter.saveState a sid d tab ty w').1 = r.1) ∧
  (SyncResult.success r.1 = false →
   0 < SyncConfig.retryAttempts (StateSync.config o) →
   ∃ w' r', StateAdapter.saveState a sid d tab ty w' = r' ∧
            SyncResult.success r'.1 = false ∧
            SyncResult.error r.1 =
              Some (JS.str_or (SyncResult.error r'.1) "Max retry attempts reached")).
Proof.
  intros r. subst r. unfold StateSync.saveToAdapter, bind, StateSync.this. simpl.
  set (n := Z.to_nat (SyncConfig.retryAttempts (StateSync.config o))).
  destruct (saveToAdapter_loop_result n None (SyncConfig.retryDelay (StateSync.config o))
              a sid d tab ty o w) as (r & Hr & H1 & H2 & H3).
  split_and!.
  - by rewrite Hr.
  - intros Hpos Hs. assert (∃ n', n = S n') as [n' ->] by (exists (Nat.pred n); lia).
    rewrite saveToAdapter_loop_S. cbv zeta. by rewrite Hs.
  - intros Hle. assert (n = 0%nat) as -> by lia. done.
  - by rewrite Hr.
  - rewrite Hr. intros Hf Hpos. destruct (H3 Hf) as [[Hn _]|Hcase]; [lia|done].
Qed.
End Retries.

Section Queue.
Context {W : Type} (now : W → Z) (delay : Z → W → W).
Implicit Types o : StateSync.t W.

Lemma map_get_delete {V} k (m : list (string * V)) : JS.map_get k (JS.map_delete k m) = None.
Proof.
  unfold JS.map_delete. induction m as [|[k' v] m IH]; [done|].
  rewrite filter_cons. simpl. case_decide as Hk; simpl; [|done].
  by rewrite decide_False.
Qed.

Lemma queueBackendSync_with_backend sid d tab ty o w b :
  JS.map_get "backend" (StateSync.adapters o) = Some b →
  let s' := (StateSync.queueBackendSync now sid d tab ty (o, w)).2 in
  StateSync.adapters s'.1 = StateSync.adapters o ∧
  StateSync.config s'.1 = StateSync.config o ∧
  StateSync.syncTimer s'.1 = StateSync.syncTimer o ∧
  s'.2 = (StateAdapter.saveState b sid d tab ty w).2 ∧
  if SyncResult.success (StateAdapter.saveState b sid d tab ty w).1
  then JS.map_get sid (StateSync.pendingSyncs s'.1) = None
  else ∃ p, JS.map_get sid (StateSync.pendingSyncs s'.1) = Some p ∧
            PersistedState.sessionId p = sid ∧
            PersistedState.dataState p = d ∧
            PersistedState.activeTab p = tab ∧
            PersistedState.updatedAt p = JS.ValidDate (now w) ∧
            SessionMetadata.syncStatus (PersistedState.metadata p) = Some Pending.
Proof.
  intros Hb s'. subst s'. unfold StateSync.queueBackendSync, bind, StateSync.this. simpl.
  rewrite Hb. unfold StateSync.new_Date_now, StateSync.set_pendingSyncs, modify,
    StateSync.call, ret. simpl.
  destruct (StateAdapter.saveState b sid d tab ty w) as [result w1]. simpl.
  destruct (SyncResult.success result); simpl.
  - split_and!; [done..|]. apply map_get_delete.
  - split_and!; [done..|]. eexists.
    split; [rewrite map_get_set; by rewrite decide_True|by split_and!].
Qed.

(** X14.  [queueBackendSync] with a registered backend: when the push
    fails, the queue afterwards holds the session with the payload and the
    tab of this call, marked [pending], in place of any earlier entry of the
    session; when the push succeeds, the queue holds no entry of the session.
    Without a registered backend nothing happens. *)
Theorem queueBackendSync_queues sid d tab ty o w :
  let s' := (StateSync.queueBackendSync now sid d tab ty (o, w)).2 in
  (JS.map_get "backend" (StateSync.adapters o) = None → s' = (o, w)) ∧
  (∀ b, JS.map_get "backend" (StateSync.adapters o) = Some b →
     s'.2 = (StateAdapter.saveState b sid d tab ty w).2 ∧
     if SyncResult.success (StateAdapter.saveState b sid d tab ty w).1
     then JS.map_get sid (StateSync.pendingSyncs s'.1) = None
     else ∃ p, JS.map_get sid (StateSync.pendingSyncs s'.1) = Some p ∧
               PersistedState.sessionId p = sid ∧
               PersistedState.dataState p = d ∧
               PersistedState.activeTab p = tab ∧
               PersistedState.updatedAt p = JS.ValidDate (now w) ∧
               SessionMetadata.syncStatus (PersistedState.metadata p) = Some Pending).
Proof.
  intros s'. subst s'. split.
  - unfold StateSync.queueBackendSync, bind, StateSync.this. simpl. by intros ->.
  - intros b Hb. by destruct (queueBackendSync_with_backend sid d tab ty o w b Hb) as (_ & _ & _ & ? & ?).
Qed.
End Queue.

(** ** What every operation keeps *)

Section Kept.
Context {W : Type} (now : W → Z) (delay : Z → W → W).
Context (I : StateSync.t W → Prop).

Hypothesis Hdelete : ∀ k, preserves I (StateSync.set_pendingSyncs (JS.map_delete k)).
Hypothesis Hqueue : ∀ k ds tab ty, preserves I (StateSync.queueBackendSync now k ds tab ty).
Hypothesis Hstop : preserves I StateSync.stopAutoSync.
Hypothesis Hstart : preserves I StateSync.startAutoSync.

Lemma kept_saveToAdapter a k ds tab ty :
  preserves I (StateSync.saveToAdapter now delay a k ds tab ty).
Proof.
  unfold StateSync.saveToAdapter. pres.
  generalize (@None string).
  induction (Z.to_nat _) as [|n IH]; intros e; simpl; pres. apply IH.
Qed.

Lemma kept_saveState k ds tab ty : preserves I (StateSync.saveState now delay k ds tab ty).
Proof.
  unfold StateSync.saveState. apply preserves_bind; [pres|intros o].
  apply preserves_bind; [|intros results; pres].
  generalize (@nil SyncResult.t).
  induction (StateSync.getAdaptersByStrategy o) as [|a todo IH]; intros results; simpl; [pres|].
  apply preserves_bind; [apply kept_saveToAdapter|intros r].
  pres; auto.
Qed.

Lemma kept_loadState k : preserves I (StateSync.loadState k).
Proof.
  unfold StateSync.loadState. apply preserves_bind; [pres|intros o].
  apply preserves_bind; [|intros states; pres].
  generalize (@nil (string * PersistedState.t)).
  induction (StateSync.getAdaptersByStrategy o) as [|a todo IH]; intros states; simpl; pres.
  apply IH.
Qed.

Lemma kept_deleteSession k : preserves I (StateSync.deleteSession now k).
Proof.
  unfold StateSync.deleteSession. apply preserves_bind; [pres|intros o].
  apply preserves_bind; [|intros results; pres].
  generalize (@nil SyncResult.t).
  induction (JS.map_values (StateSync.adapters o)) as [|a todo IH]; intros results; simpl; pres.
  apply IH.
Qed.

Lemma kept_listSessions : preserves I StateSync.listSessions.
Proof.
  unfold StateSync.listSessions. apply preserves_bind; [pres|intros o].
  apply preserves_bind; [|intros results; pres].
  generalize (@nil (string * SessionMetadata.t)).
  induction (JS.map_values (StateSync.adapters o)) as [|a todo IH]; intros results; simpl; pres.
  apply IH.
Qed.

Lemma kept_hasSession k : preserves I (StateSync.hasSession k).
Proof.
  unfold StateSync.hasSession. apply preserves_bind; [pres|intros o].
  induction (JS.map_values (StateSync.adapters o)) as [|a todo IH]; simpl; pres.
  apply IH.
Qed.

Lemma kept_for_each todo f : preserves I (StateSync.for_each todo f).
Proof. induction todo as [|a todo IH]; simpl; pres. apply IH. Qed.

Lemma kept_clearAll : preserves I (StateSync.clearAll now).
Proof.
  unfold StateSync.clearAll. apply preserves_bind; [pres|intros o].
  apply preserves_bind; [|intros results; pres].
  generalize (@nil SyncResult.t).
  induction (JS.map_values (StateSync.adapters o)) as [|a todo IH]; intros results; simpl; pres.
  apply IH.
Qed.

Lemma kept_collect_states todo k : preserves I (StateSync.collect_states todo k).
Proof. induction todo as [|a todo IH]; simpl; pres. apply IH. Qed.

Lemma kept_syncSession k : preserves I (StateSync.syncSession k).
Proof.
  unfold StateSync.syncSession. apply preserves_bind; [pres|intros o].
  apply preserves_bind; [apply kept_collect_states|intros collected].
  destruct (JS.reduce _ _) as [latest|]; [|pres].
  induction (JS.map_values (StateSync.adapters o)) as [|a todo IH]; simpl; pres; apply IH.
Qed.

Lemma kept_syncNow : preserves I StateSync.syncNow.
Proof.
  unfold StateSync.syncNow. apply preserves_bind; [apply kept_listSessions|intros sessions].
  induction sessions as [|x l IH]; simpl; pres; [apply kept_syncSession|apply IH].
Qed.

Lemma kept_getSyncStatus k : preserves I (StateSync.getSyncStatus k).
Proof.
  unfold StateSync.getSyncStatus. apply preserves_bind; [pres|intros o].
  apply preserves_bind; [apply kept_collect_states|intros collected]. pres.
Qed.

Lemma kept_healthCheck : preserves I StateSync.healthCheck.
Proof.
  unfold StateSync.healthCheck. apply preserves_bind; [pres|intros o].
  generalize (@nil (string * bool)).
  induction (StateSync.adapters o) as [|[n a] todo IH]; intros health; simpl; pres.
  apply IH.
Qed.

Lemma kept_syncPendingChanges : preserves I StateSync.syncPendingChanges.
Proof.
  unfold StateSync.syncPendingChanges. apply preserves_bind; [pres|intros o].
  destruct (JS.map_get _ _) as [b|]; [|pres].
  induction (StateSync.pendingSyncs o) as [|[k st] entries IH]; simpl; [pres|].
  pres; auto.
Qed.

Lemma kept_exec op : preserves I (StateSync.exec now delay op).
Proof.
  destruct op; simpl; pres;
    auto using kept_saveState, kept_loadState, kept_deleteSession,
      kept_listSessions, kept_hasSession, kept_for_each, kept_clearAll,
      kept_syncNow, kept_getSyncStatus, kept_healthCheck, kept_syncPendingChanges.
  - unfold StateSync.getActiveSessionId. pres.
  - unfold StateSync.setActiveSessionId. pres. apply kept_for_each.
  - unfold StateSync.clearActiveSessionId. pres. apply kept_for_each.
Qed.

Lemma kept_run ops s : I s.1 → I (StateSync.run now delay ops s).1.
Proof.
  revert s. induction ops as [|op ops IH]; intros s Hs; simpl; [done|].
  apply IH. by apply kept_exec.
Qed.
End Kept.

Section QueueInvariant.
Context {W : Type} (now : W → Z) (delay : Z → W → W).
Implicit Types o : StateSync.t W.

Lemma map_delete_keys_NoDup {V} k (m : list (string * V)) :
  NoDup m.*1 → NoDup (JS.map_delete k m).*1.
Proof.
  unfold JS.map_delete. induction m as [|[k' v] m IH]; [done|].
  rewrite fmap_cons, NoDup_cons. intros [Hk Hnd]. rewrite filter_cons.
  case_decide; [|by apply IH].
  rewrite fmap_cons. apply NoDup_cons. split; [|by apply IH].
  intros Hin. apply Hk. apply list_elem_of_fmap in Hin as ([k0 v0] & -> & Hin).
  apply list_elem_of_filter in Hin as [_ Hin].
  apply list_elem_of_fmap. by exists (k0, v0).
Qed.

Lemma map_set_keys_NoDup {V} k (v : V) (m : list (string * V)) :
  NoDup m.*1 → NoDup (JS.map_set k v m).*1.
Proof.
  induction m as [|[k' v'] m IH]; simpl.
  - intros _. apply NoDup_singleton.
  - rewrite NoDup_cons. intros [Hk Hnd]. case_decide as Heq; simpl.
    + subst. by apply NoDup_cons.
    + apply NoDup_cons. split; [|by apply IH].
      intros Hin. apply Hk.
      assert (k' = k ∨ k' ∈ JS.map_keys m) as [->|?]
        by (by apply (map_keys_set k v m k')); done.
Qed.

Lemma map_set_Forall {V} (P : string * V → Prop) k v m :
  P (k, v) → Forall P m → Forall P (JS.map_set k v m).
Proof.
  intros Hkv. induction 1 as [|[k' v'] m Hx Hm IH]; simpl; [by repeat constructor|].
  case_decide; by constructor.
Qed.

Lemma queue_ok_delete k :
  preserves queue_ok (StateSync.set_pendingSyncs (W:=W) (JS.map_delete k)).
Proof.
  intros [o w] [Hnd Hall]. split; simpl.
  - by apply map_delete_keys_NoDup.
  - unfold JS.map_delete. apply Forall_forall. intros x [_ Hx]%list_elem_of_filter.
    by apply (proj1 (Forall_forall _ _) Hall).
Qed.

Lemma queue_ok_queueBackendSync k ds tab ty :
  preserves queue_ok (StateSync.queueBackendSync now k ds tab ty).
Proof.
  unfold StateSync.queueBackendSync. apply preserves_bind; [pres|intros o].
  destruct (JS.map_get _ _) as [b|]; [|pres].
  apply preserves_bind; [pres|intros d].
  apply preserves_bind; [|intros _].
  - intros [o' w] [Hnd Hall]. split; simpl.
    + by apply map_set_keys_NoDup.
    + by apply map_set_Forall.
  - pres. apply queue_ok_delete.
Qed.

Lemma queue_ok_stop : preserves queue_ok (StateSync.stopAutoSync (W:=W)).
Proof.
  intros [o w] ?. unfold StateSync.stopAutoSync, modify, StateSync.stopAutoSync_obj. simpl.
  by destruct (StateSync.syncTimer o).
Qed.

Lemma queue_ok_start : preserves queue_ok (StateSync.startAutoSync (W:=W)).
Proof.
  intros [o w] ?.
  unfold StateSync.startAutoSync, modify, StateSync.startAutoSync_obj,
    StateSync.stopAutoSync_obj. simpl.
  destruct (StateSync.syncTimer o); simpl;
    destruct (SyncConfig.syncInterval _); simpl; try case_decide; done.
Qed.

Lemma queue_ok_constructor (cfg : StateSync.StateSyncConfig W) o :
  StateSync.constructor cfg = JS.Normal o → queue_ok o.
Proof.
  intros Ho.
  assert (StateSync.pendingSyncs o = []) as Hq.
  { unfold StateSync.constructor in Ho. injection Ho as <-.
    unfold StateSync.startAutoSync_obj, StateSync.stopAutoSync_obj. simpl.
    repeat (case_match; simpl); done. }
  unfold queue_ok. rewrite Hq. split; constructor.
Qed.

(** X15.  The pending queue stays well formed.  The constructor returns an
    orchestrator for every configuration, and after every run of operations
    on it (timer ticks included, in any world) the queue holds at most one
    entry per session, each one filed under the identifier of its record and
    marked [pending]. *)
Theorem pending_queue_stays_well_formed (cfg : StateSync.StateSyncConfig W)
    w (ops : list StateSync.Op) :
  ∃ o, StateSync.constructor cfg = JS.Normal o ∧
       queue_ok (StateSync.run now delay ops (o, w)).1.
Proof.
  eexists. split; [reflexivity|].
  apply (kept_run now delay queue_ok queue_ok_delete queue_ok_queueBackendSync
           queue_ok_stop queue_ok_start ops (_, w)).
  by eapply queue_ok_constructor.
Qed.
End QueueInvariant.

Section Draining.
Context {W : Type} (now : W → Z) (delay : Z → W → W).
Implicit Types o : StateSync.t W.

Lemma map_delete_absent {V} k (m : list (string * V)) :
  k ∉ m.*1 → JS.map_delete k m = m.
Proof.
  unfold JS.map_delete. induction m as [|[k' v] m IH]; [done|].
  rewrite fmap_cons, not_elem_of_cons. intros [Hne Hk]. rewrite filter_cons. simpl.
  rewrite decide_True by done. by rewrite IH.
Qed.

Lemma map_delete_middle {V} k (v : V) (pre rest : list (string * V)) :
  NoDup (pre ++ (k, v) :: rest).*1 → JS.map_delete k (pre ++ (k, v) :: rest) = pre ++ rest.
Proof.
  rewrite fmap_app, fmap_cons. intros Hnd.
  apply NoDup_app in Hnd as (Hpre & Hdisj & Hrest).
  apply NoDup_cons in Hrest as [Hk Hrest].
  unfold JS.map_delete. rewrite filter_app, filter_cons. simpl.
  rewrite decide_False by (by intros ?).
  fold (JS.map_delete k pre). fold (JS.map_delete k rest).
  rewrite !map_delete_absent; [done|done|].
  intros Hin. apply (Hdisj _ Hin). by left.
Qed.

Lemma syncPendingChanges_loop_cons (b : StateAdapter.t W) entry entries o w :
  StateSync.syncPendingChanges_loop b (entry :: entries) (o, w) =
    StateSync.syncPendingChanges_loop b entries
      (if SyncResult.success (push b entry w).1
       then with_pendingSyncs (JS.map_delete entry.1 (StateSync.pendingSyncs o)) o
       else o,
       (push b entry w).2).
Proof.
  destruct entry as [k st]. simpl. unfold bind, StateSync.call, push. simpl.
  destruct (StateAdapter.saveState b k _ _ SaveData w) as [result w1]. simpl.
  by destruct (SyncResult.success result).
Qed.

Lemma syncPendingChanges_loop_unsynced (b : StateAdapter.t W) entries pre o w :
  StateSync.pendingSyncs o = pre ++ entries →
  NoDup (pre ++ entries).*1 →
  StateSync.syncPendingChanges_loop b entries (o, w) =
    (tt, (with_pendingSyncs (pre ++ unsynced b entries w) o, pushed b entries w)).
Proof.
  revert pre o w. induction entries as [|[k st] entries IH]; intros pre o w Hq Hnd.
  { simpl. unfold ret, with_pendingSyncs. rewrite <-Hq. by destruct o. }
  rewrite syncPendingChanges_loop_cons.
  change (unsynced b ((k, st) :: entries) w)
    with (if SyncResult.success (push b (k, st) w).1
          then unsynced b entries (push b (k, st) w).2
          else (k, st) :: unsynced b entries (push b (k, st) w).2).
  change (pushed b ((k, st) :: entries) w) with (pushed b entries (push b (k, st) w).2).
  destruct (SyncResult.success (push b (k, st) w).1).
  - simpl fst. rewrite Hq, (map_delete_middle _ _ _ _ Hnd).
    rewrite (IH pre); [done|done|].
    rewrite fmap_app in *. rewrite fmap_cons in Hnd.
    apply NoDup_app in Hnd as (Hpre & Hdisj & Hrest).
    apply NoDup_cons in Hrest as [Hk Hrest].
    apply NoDup_app. split_and!; [done| |done].
    intros x Hx Hx'. apply (Hdisj x Hx). by right.
  - rewrite (IH (pre ++ [(k, st)])).
    + by rewrite <-app_assoc.
    + by rewrite Hq, <-app_assoc.
    + by rewrite <-app_assoc.
Qed.

Lemma syncPendingChanges_with_backend o w b :
  JS.map_get "backend" (StateSync.adapters o) = Some b →
  NoDup (JS.map_keys (StateSync.pendingSyncs o)) →
  StateSync.syncPendingChanges (o, w) =
    (tt, (with_pendingSyncs (unsynced b (StateSync.pendingSyncs o) w) o,
          pushed b (StateSync.pendingSyncs o) w)).
Proof.
  unfold StateSync.syncPendingChanges, bind, StateSync.this. simpl.
  intros -> Hnd. by apply (syncPendingChanges_loop_unsynced b _ []).
Qed.

(** X16.  [syncPendingChanges] removes from the queue exactly the entries
    whose push succeeded and keeps the others, in their order: with a
    registered backend and at most one entry per session, the queue
    afterwards is the list of the entries whose push failed, and the world is
    the one all the pushes left.  Without a registered backend nothing
    happens. *)
Theorem syncPendingChanges_keeps_failed o w :
  (JS.map_get "backend" (StateSync.adapters o) = None →
   StateSync.syncPendingChanges (o, w) = (tt, (o, w))) ∧
  (∀ b, JS.map_get "backend" (StateSync.adapters o) = Some b →
     NoDup (JS.map_keys (StateSync.pendingSyncs o)) →
     StateSync.syncPendingChanges (o, w) =
       (tt, (with_pendingSyncs (unsynced b (StateSync.pendingSyncs o) w) o,
             pushed b (StateSync.pendingSyncs o) w))).
Proof.
  split.
  - unfold StateSync.syncPendingChanges, bind, StateSync.this. simpl. by intros ->.
  - intros b Hb Hnd. by apply syncPendingChanges_with_backend.
Qed.

(** X17.  [deleteSession] and [clearAll] of the orchestrator leave the
    pending queue and the timer as they are: a session deleted while it is
    queued is pushed to the backend again by the next tick of the timer.  With
    the deleted session as the only entry of the queue, the world after
    the tick is the world after the deletion followed by that push. *)
Theorem deleted_session_is_pushed_again sid o w b p interval :
  JS.map_get "backend" (StateSync.adapters o) = Some b →
  StateSync.pendingSyncs o = [(sid, p)] →
  StateSync.syncTimer o = Some interval →
  let deleted := (StateSync.deleteSession now sid (o, w)).2 in
  StateSync.pendingSyncs deleted.1 = StateSync.pendingSyncs o ∧
  StateSync.syncTimer deleted.1 = StateSync.syncTimer o ∧
  StateSync.pendingSyncs (StateSync.clearAll now (o, w)).2.1 = StateSync.pendingSyncs o ∧
  (StateSync.exec now delay StateSync.OpTimerTick deleted).2.2 =
    (StateAdapter.saveState b sid (PersistedState.dataState p) (PersistedState.activeTab p)
       SaveData deleted.2).2.
Proof.
  intros Hb Hq Ht deleted.
  assert (Hdel : deleted = (o, deleted.2)).
  { subst deleted. by rewrite deleteSession_world. }
  split_and!.
  - by rewrite Hdel.
  - by rewrite Hdel.
  - unfold StateSync.clearAll, bind, StateSync.this, ret, StateSync.new_Date_now. simpl.
    generalize (@nil SyncResult.t). generalize w.
    induction (JS.map_values (StateSync.adapters o)) as [|a todo IH];
      intros w0 results; simpl; [done|].
    unfold bind at 1, StateSync.call. simpl.
    destruct (StateAdapter.clearAll a w0) as [r w1]. simpl. apply IH.
  - rewrite Hdel. simpl. unfold bind at 1, StateSync.this. simpl. rewrite Ht.
    rewrite (syncPendingChanges_with_backend o deleted.2 b Hb)
      by (rewrite Hq; apply NoDup_singleton).
    simpl. by rewrite Hq.
Qed.

Lemma clearAll_loop_results todo results0 (s : StateSync.t W * W) :
  ∃ new w',
    StateSync.clearAll_loop todo results0 s = (results0 ++ new, (s.1, w')) ∧
    length new = length todo ∧
    ∀ (i : nat) r, new !! i = Some r →
      ∃ a wi, todo !! i = Some a ∧ (StateAdapter.clearAll a wi).1 = r.
Proof.
  revert results0 s. induction todo as [|a todo IH]; intros results0 [o w]; simpl.
  { exists [], w. rewrite app_nil_r. split_and!; [done..|]. by intros i r. }
  unfold bind at 1, StateSync.call. simpl.
  destruct (StateAdapter.clearAll a w) as [result w1] eqn:Hres.
  destruct (IH (results0 ++ [result]) (o, w1)) as (new & w' & Hnew & Hlen & Hi).
  exists (result :: new), w'. split_and!.
  - rewrite Hnew. by rewrite <-app_assoc.
  - simpl; lia.
  - intros [|i] r; simpl.
    + intros [= <-]. exists a, w. by rewrite Hres.
    + apply Hi.
Qed.

(** X18.  [clearAll] of the orchestrator asks every registered adapter and
    reports success exactly when all of them succeeded (so also when no
    adapter is registered); the result never carries an error message, and
    its session identifier is ['all']. *)
Theorem clearAll_reports_all o w :
  let results := (StateSync.clearAll_loop (JS.map_values (StateSync.adapters o)) [] (o, w)).1 in
  let returned := (StateSync.clearAll now (o, w)).1 in
  length results = length (JS.map_values (StateSync.adapters o)) ∧
  (∀ (i : nat) r, results !! i = Some r →
     ∃ a wi, JS.map_values (StateSync.adapters o) !! i = Some a ∧
             (StateAdapter.clearAll a wi).1 = r) ∧
  (SyncResult.success returned = true ↔
     Forall (λ r, SyncResult.success r = true) results) ∧
  SyncResult.error returned = None ∧
  SyncResult.sessionId returned = "all".
Proof.
  intros results returned.
  destruct (clearAll_loop_results (JS.map_values (StateSync.adapters o)) [] (o, w))
    as (new & w' & Hnew & Hlen & Hi).
  assert (results = new) as <- by (subst results; by rewrite Hnew).
  assert (Hr : returned = SyncResult.mk (forallb SyncResult.success results) "all"
                            (JS.ValidDate (now w')) None None).
  { subst returned results.
    unfold StateSync.clearAll, bind, StateSync.this, ret, StateSync.new_Date_now. simpl.
    by rewrite Hnew. }
  rewrite Hr. simpl. split_and!; [done|done| |done|done].
  rewrite forallb_forall, Forall_forall. by setoid_rewrite list_elem_of_In.
Qed.
End Draining.

Section TwoAdapters.
Context {W : Type} (now : W → Z) (delay : Z → W → W).
Variables (l b : StateAdapter.t W).
Implicit Types o : StateSync.t W.

Hypothesis Hl : StateAdapter.name l = "localStorage".
Hypothesis Hb : StateAdapter.name b = "backend".
Hypothesis Hprio : StateAdapter.priority l < StateAdapter.priority b.

Lemma local_first_order o :
  JS.map_values (StateSync.adapters o) = [l; b] →
  SyncConfig.strategy (StateSync.config o) = "local-first" →
  StateSync.getAdaptersByStrategy o = [l; b].
Proof.
  intros Hads Hs. unfold StateSync.getAdaptersByStrategy. rewrite Hads, Hs. simpl.
  unfold StateSync.by_priority_asc, JS.sort_key. simpl.
  by rewrite bool_decide_eq_false_2 by lia.
Qed.

Lemma backend_first_order o :
  JS.map_values (StateSync.adapters o) = [l; b] →
  SyncConfig.strategy (StateSync.config o) = "backend-first" →
  StateSync.getAdaptersByStrategy o = [b; l].
Proof.
  intros Hads Hs. unfold StateSync.getAdaptersByStrategy. rewrite Hads, Hs. simpl.
  unfold StateSync.by_priority_desc, JS.sort_key. simpl.
  by rewrite bool_decide_eq_true_2 by lia.
Qed.

Lemma saveToAdapter_object (a : StateAdapter.t W) sid d tab ty o w :
  StateSync.saveToAdapter now delay a sid d tab ty (o, w) =
    ((StateSync.saveToAdapter now delay a sid d tab ty (o, w)).1,
     (o, (StateSync.saveToAdapter now delay a sid d tab ty (o, w)).2.2)).
Proof.
  pose proof (saveToAdapter_keeps_object now delay a sid d tab ty o w) as Ho.
  destruct (StateSync.saveToAdapter now delay a sid d tab ty (o, w)) as [r [o' w']].
  simpl in *. by subst.
Qed.

Lemma saveState_loop_cons (a : StateAdapter.t W) todo results sid d tab ty o w :
  StateSync.saveState_loop now delay (a :: todo) results sid d tab ty (o, w) =
    let t := StateSync.saveToAdapter now delay a sid d tab ty (o, w) in
    let strategy := SyncConfig.strategy (StateSync.config o) in
    if bool_decide (strategy = "backend-first")
       && bool_decide (StateAdapter.name a = "backend")
       && SyncResult.success t.1
    then (results ++ [t.1], (o, t.2.2))
    else
      StateSync.saveState_loop now delay todo (results ++ [t.1]) sid d tab ty
        ((if bool_decide (strategy = "local-first")
             && bool_decide (StateAdapter.name a = "localStorage")
             && SyncResult.success t.1
          then StateSync.queueBackendSync now sid d tab ty
          else ret tt) (o, t.2.2)).2.
Proof.
  cbv zeta. simpl. unfold bind at 1. rewrite (saveToAdapter_object a).
  unfold bind at 1, StateSync.this. simpl.
  destruct (_ && _ && _); [done|].
  unfold bind at 1.
  destruct (bool_decide (_ = "local-first") && _ && _).
  - by destruct (StateSync.queueBackendSync _ _ _ _ _ _) as [[] ?].
  - done.
Qed.

Lemma saveState_unfold sid d tab ty o w :
  StateSync.saveState now delay sid d tab ty (o, w) =
    let res := StateSync.saveState_loop now delay (StateSync.getAdaptersByStrategy o) []
                 sid d tab ty (o, w) in
    (StateSync.primaryResult res.1, res.2).
Proof.
  unfold StateSync.saveState, bind, StateSync.this, ret. simpl.
  by destruct (StateSync.saveState_loop _ _ _ _ _ _ _ _ _).
Qed.

(** X19.  A save under [backend-first] with the two adapters of the front
    end.  When the backend accepts the record at the first attempt, its result
    is returned and the on-device adapter is not called: the world is the one
    the backend left.  When every attempt on the backend fails and the device
    then accepts the record, the result of the device is returned. *)
Theorem backend_first_save sid d tab ty o w :
  JS.map_values (StateSync.adapters o) = [l; b] →
  SyncConfig.strategy (StateSync.config o) = "backend-first" →
  0 < SyncConfig.retryAttempts (StateSync.config o) →
  (SyncResult.success (StateAdapter.saveState b sid d tab ty w).1 = true →
   StateSync.saveState now delay sid d tab ty (o, w) =
     (Some (StateAdapter.saveState b sid d tab ty w).1,
      (o, (StateAdapter.saveState b sid d tab ty w).2))) ∧
  (let tried := StateSync.saveToAdapter now delay b sid d tab ty (o, w) in
   SyncResult.success tried.1 = false →
   SyncResult.success (StateAdapter.saveState l sid d tab ty tried.2.2).1 = true →
   StateSync.saveState now delay sid d tab ty (o, w) =
     (Some (StateAdapter.saveState l sid d tab ty tried.2.2).1,
      (o, (StateAdapter.saveState l sid d tab ty tried.2.2).2))).
Proof.
  intros Hads Hs Hn.
  pose proof (saveToAdapter_first_attempt now delay b sid d tab ty o w) as Hfirst.
  split.
  - intros Hok.
    assert (Hloop : StateSync.saveState_loop now delay [b; l] [] sid d tab ty (o, w) =
              ([(StateAdapter.saveState b sid d tab ty w).1],
               (o, (StateAdapter.saveState b sid d tab ty w).2))).
    { rewrite saveState_loop_cons. cbv zeta. rewrite (Hfirst Hn Hok), Hs, Hb. simpl.
      by rewrite Hok. }
    rewrite saveState_unfold, (backend_first_order o Hads Hs), Hloop. simpl.
    unfold StateSync.primaryResult. simpl. by rewrite Hok.
  - intros tried Hfail Hok.
    pose proof (saveToAdapter_first_attempt now delay l sid d tab ty o tried.2.2) as Hl1.
    assert (Hloop : StateSync.saveState_loop now delay [b; l] [] sid d tab ty (o, w) =
              ([tried.1; (StateAdapter.saveState l sid d tab ty tried.2.2).1],
               (o, (StateAdapter.saveState l sid d tab ty tried.2.2).2))).
    { rewrite saveState_loop_cons. cbv zeta. fold tried. rewrite Hfail, Hs, Hb. simpl andb.
      cbv iota. unfold ret at 1. simpl snd.
      rewrite saveState_loop_cons. cbv zeta. rewrite (Hl1 Hn Hok), Hs, Hl. simpl.
      done. }
    rewrite saveState_unfold, (backend_first_order o Hads Hs), Hloop. simpl.
    unfold StateSync.primaryResult. simpl. by rewrite Hfail, Hok.
Qed.

Lemma local_first_save_result sid d tab ty o w :
  JS.map_values (StateSync.adapters o) = [l; b] →
  JS.map_get "backend" (StateSync.adapters o) = Some b →
  SyncConfig.strategy (StateSync.config o) = "local-first" →
  0 < SyncConfig.retryAttempts (StateSync.config o) →
  SyncResult.success (StateAdapter.saveState l sid d tab ty w).1 = true →
  StateSync.saveState now delay sid d tab ty (o, w) =
    (Some (StateAdapter.saveState l sid d tab ty w).1,
     ((StateSync.queueBackendSync now sid d tab ty
         (o, (StateAdapter.saveState l sid d tab ty w).2)).2.1,
      (StateSync.saveToAdapter now delay b sid d tab ty
         (StateSync.queueBackendSync now sid d tab ty
            (o, (StateAdapter.saveState l sid d tab ty w).2)).2).2.2)).
Proof.
  intros Hads Hget Hs Hn Hok.
  pose proof (saveToAdapter_first_attempt now delay l sid d tab ty o w Hn Hok) as Hfirst.
  destruct (queueBackendSync_with_backend now sid d tab ty o
              (StateAdapter.saveState l sid d tab ty w).2 b Hget) as (_ & Hcfg & _).
  destruct (StateSync.queueBackendSync now sid d tab ty
              (o, (StateAdapter.saveState l sid d tab ty w).2)) as [u [oq wq]] eqn:Hqeq.
  simpl in Hcfg.
  assert (Hloop : StateSync.saveState_loop now delay [l; b] [] sid d tab ty (o, w) =
            ([(StateAdapter.saveState l sid d tab ty w).1;
              (StateSync.saveToAdapter now delay b sid d tab ty (oq, wq)).1],
             (oq, (StateSync.saveToAdapter now delay b sid d tab ty (oq, wq)).2.2))).
  { rewrite saveState_loop_cons. cbv zeta. rewrite Hfirst. simpl fst. simpl snd.
    rewrite Hs, Hl, Hok.
    rewrite (bool_decide_eq_false_2 (_ = "backend-first")) by discriminate.
    rewrite (bool_decide_eq_true_2 ("local-first" = "local-first")) by reflexivity.
    rewrite (bool_decide_eq_true_2 ("localStorage" = "localStorage")) by reflexivity.
    cbn [andb]. rewrite Hqeq. simpl snd.
    rewrite saveState_loop_cons. cbv zeta. rewrite Hcfg, Hs, Hb.
    rewrite (bool_decide_eq_false_2 (_ = "backend-first")) by discriminate.
    rewrite (bool_decide_eq_false_2 ("backend" = "localStorage")) by discriminate.
    cbn [andb]. unfold ret at 1. simpl snd. simpl.
    by rewrite (saveToAdapter_object b). }
  rewrite saveState_unfold, (local_first_order o Hads Hs), Hloop. simpl.
  unfold StateSync.primaryResult. simpl. by rewrite Hok.
Qed.

(** X20.  A save under [local-first] with the two adapters of the front end.
    When the device accepts the record at the first attempt, the caller gets
    the success of the device, whatever the backend answers.  When the push
    to the backend that follows fails, the session is afterwards in the
    pending queue with the payload and the tab of the call; when it succeeds,
    the queue holds no entry of the session. *)
Theorem local_first_save_queues sid d tab ty o w :
  JS.map_values (StateSync.adapters o) = [l; b] →
  JS.map_get "backend" (StateSync.adapters o) = Some b →
  SyncConfig.strategy (StateSync.config o) = "local-first" →
  0 < SyncConfig.retryAttempts (StateSync.config o) →
  let saved := StateAdapter.saveState l sid d tab ty w in
  SyncResult.success saved.1 = true →
  let r := StateSync.saveState now delay sid d tab ty (o, w) in
  r.1 = Some saved.1 ∧
  if SyncResult.success (StateAdapter.saveState b sid d tab ty saved.2).1
  then JS.map_get sid (StateSync.pendingSyncs r.2.1) = None
  else ∃ p, JS.map_get sid (StateSync.pendingSyncs r.2.1) = Some p ∧
            PersistedState.dataState p = d ∧ PersistedState.activeTab p = tab ∧
            SessionMetadata.syncStatus (PersistedState.metadata p) = Some Pending.
Proof.
  intros Hads Hget Hs Hn saved Hok r. subst r saved.
  rewrite (local_first_save_result sid d tab ty o w Hads Hget Hs Hn Hok).
  cbn [fst snd]. split; [done|].
  destruct (queueBackendSync_with_backend now sid d tab ty o
              (StateAdapter.saveState l sid d tab ty w).2 b Hget) as (_ & _ & _ & _ & Hp).
  destruct (SyncResult.success (StateAdapter.saveState b sid d tab ty _).1); [done|].
  destruct Hp as (p & Hp & _ & Hd & Htab & _ & Hst). by exists p.
Qed.
End TwoAdapters.

(** ** The merged list of sessions *)

Section Merged.
Context {W : Type}.
Implicit Types all : list (string * SessionMetadata.t).
Implicit Types seen : list SessionMetadata.t.

Lemma map_set_elem_of {V} k (v : V) (m : list (string * V)) x :
  x ∈ JS.map_set k v m → x = (k, v) ∨ x ∈ m.
Proof.
  induction m as [|[k' v'] m IH]; simpl.
  - intros ->%list_elem_of_singleton. by left.
  - case_decide; rewrite !elem_of_cons; [tauto|].
    intros [->|Hx]; [tauto|]. destruct (IH Hx); tauto.
Qed.

Lemma map_get_elem_of {V} k (v : V) (m : list (string * V)) :
  JS.map_get k m = Some v → (k, v) ∈ m.
Proof.
  induction m as [|[k' v'] m IH]; simpl; [done|].
  case_decide; subst.
  - intros [= ->]. apply list_elem_of_here.
  - intros ?. apply list_elem_of_further. auto.
Qed.

Lemma date_gt_irrefl d : JS.date_gt d d = false.
Proof. destruct d; simpl; [|done]. unfold JS.date_gt. simpl. case_bool_decide; [lia|done]. Qed.

Lemma date_gt_trans_false a b c :
  JS.date_gt a b = false → JS.date_gt c b = true → JS.date_gt a c = false.
Proof.
  destruct a, b, c; unfold JS.date_gt; simpl; try done.
  repeat case_bool_decide; try done; lia.
Qed.

Lemma merge_sessions_step seen all s :
  merged_of seen all →
  merged_of (seen ++ [s]) (StateSync.merge_sessions all [s]).
Proof.
  intros (Hnd & Hin & Hnew). unfold StateSync.merge_sessions. simpl.



  destruct (JS.map_get (SessionMetadata.sessionId s) all) as [e|] eqn:He.
  - destruct (JS.date_gt (SessionMetadata.lastModified s) (SessionMetadata.lastModified e))
      eqn:Hgt.
    + split_and!.
      * by apply map_set_keys_NoDup.
      * intros k m [Heq|Hm]%map_set_elem_of; [injection Heq as -> ->|].
        -- split; [done|]. apply elem_of_app. right. apply list_elem_of_here.
        -- destruct (Hin k m Hm). split; [done|]. apply elem_of_app. by left.
      * intros s' [Hs' | ->%list_elem_of_singleton]%elem_of_app.
        -- rewrite map_get_set. case_decide as Hk.
           ++ eexists. split; [done|]. destruct (Hnew s' Hs') as (m & Hm & Hle).
              rewrite <-Hk, He in Hm. injection Hm as <-.
              by eapply date_gt_trans_false.
           ++ by apply Hnew.
        -- rewrite map_get_set, decide_True by done. eexists. split; [done|].
           apply date_gt_irrefl.
    + split_and!; [done| |].
      * intros k m Hm. destruct (Hin k m Hm). split; [done|]. apply elem_of_app. by left.
      * intros s' [Hs' | ->%list_elem_of_singleton]%elem_of_app; [by apply Hnew|].
        by exists e.
  - split_and!.
    + by apply map_set_keys_NoDup.
    + intros k m [Heq|Hm]%map_set_elem_of; [injection Heq as -> ->|].
      * split; [done|]. apply elem_of_app. right. apply list_elem_of_here.
      * destruct (Hin k m Hm). split; [done|]. apply elem_of_app. by left.
    + intros s' [Hs' | ->%list_elem_of_singleton]%elem_of_app.
      * rewrite map_get_set. case_decide as Hk; [|by apply Hnew].
        destruct (Hnew s' Hs') as (m & Hm & _). rewrite <-Hk, He in Hm. done.
      * rewrite map_get_set, decide_True by done. eexists. split; [done|].
        apply date_gt_irrefl.
Qed.

Lemma merge_sessions_merged seen all sessions :
  merged_of seen all →
  merged_of (seen ++ sessions) (StateSync.merge_sessions all sessions).
Proof.
  revert seen all. induction sessions as [|s sessions IH]; intros seen all Hm.
  - by rewrite app_nil_r.
  - change (StateSync.merge_sessions all (s :: sessions))
      with (StateSync.merge_sessions (StateSync.merge_sessions all [s]) sessions).
    replace (seen ++ s :: sessions) with ((seen ++ [s]) ++ sessions)
      by (by rewrite <-(assoc_L (++))).
    apply IH. by apply merge_sessions_step.
Qed.

Lemma foldl_merge_sessions_merged seen all (answers : list (list SessionMetadata.t)) :
  merged_of seen all →
  merged_of (seen ++ concat answers) (foldl StateSync.merge_sessions all answers).
Proof.
  revert seen all. induction answers as [|sessions answers IH]; intros seen all Hm; simpl.
  - by rewrite app_nil_r.
  - rewrite (assoc_L (++)). apply IH. by apply merge_sessions_merged.
Qed.

(** X21.  The merged [listSessions] of the orchestrator has one entry per
    session.  Every entry is an entry some adapter answered, no two entries
    share a session identifier, and every session an adapter answered is
    listed with an entry that no answer for that session is later than. *)
Theorem merged_listSessions_one_entry_per_session (o : StateSync.t W) (w : W) :
  let sessions := (StateSync.listSessions (o, w)).1 in
  let answers := concat (listed (JS.map_values (StateSync.adapters o)) w) in
  NoDup (SessionMetadata.sessionId <$> sessions) ∧
  (∀ m, m ∈ sessions → m ∈ answers) ∧
  (∀ s, s ∈ answers →
     ∃ m, m ∈ sessions ∧
          SessionMetadata.sessionId m = SessionMetadata.sessionId s ∧
          JS.date_gt (SessionMetadata.lastModified s) (SessionMetadata.lastModified m) = false).
Proof.
  intros sessions answers. subst sessions. rewrite listSessions_unfold.
  destruct (foldl_merge_sessions_merged [] []
              (listed (JS.map_values (StateSync.adapters o)) w))
    as (Hnd & Hin & Hnew).
  { split_and!; [constructor|by intros ?? ?%elem_of_nil|by intros ? ?%elem_of_nil]. }
  simpl in Hin, Hnew. fold answers in Hin, Hnew.
  set (all := foldl StateSync.merge_sessions [] _) in *.
  split_and!.
  - rewrite sort_perm. unfold JS.map_values.
    assert (SessionMetadata.sessionId <$> all.*2 = all.*1) as ->; [|done].
    clear Hnd Hnew. induction all as [|[k m] all' IH]; [done|]. simpl. f_equal.
    + by destruct (Hin k m (list_elem_of_here _ _)).
    + apply IH. intros k' m' Hm'. apply Hin. by apply list_elem_of_further.
  - intros m. rewrite sort_perm. unfold JS.map_values.
    intros ([k m'] & -> & Hm)%list_elem_of_fmap. by destruct (Hin k m' Hm).
  - intros s Hs. destruct (Hnew s Hs) as (m & Hm & Hle).
    apply map_get_elem_of in Hm. exists m. split_and!; [|by destruct (Hin _ _ Hm)|done].
    rewrite sort_perm. unfold JS.map_values. apply list_elem_of_fmap. by eexists (_, m).
Qed.
End Merged.

(** ** The further properties on example inputs *)

Module Checks.
Import Examples Fixtures.

#[local] Existing Instance ISO8601.platform.
#[local] Existing Instance ReferenceBrowser.browser.
#[local] Existing Instance Service.network.

Lemma local_saveState_upsert_witness :
  LocalStorageAdapter.hasSession "s1" saved_once = true ∧
  (∃ sl', LocalStorageAdapter.getSessionList saved_once = JS.Normal sl' ∧
          LocalStorageAdapter.includes sl' "s1" = JS.Normal true) ∧
  (∀ sl, LocalStorageAdapter.getSessionList ∅ = JS.Normal sl →
         LocalStorageAdapter.includes sl "s1" = JS.Normal true →
         LocalStorageAdapter.getSessionList saved_once = JS.Normal sl) ∧
  (∀ sid', sid' ≠ "s1" →
     LocalStorageAdapter.loadState sid' saved_once = LocalStorageAdapter.loadState sid' ∅ ∧
     LocalStorageAdapter.hasSession sid' saved_once = LocalStorageAdapter.hasSession sid' ∅).
Proof.
  apply (local_saveState_upsert "s1" payload "labeling" SaveData t0 ∅).
  vm_compute. reflexivity.
Defined.

Lemma local_saveState_failure_keeps_record_witness :
  let r := LocalStorageAdapter.saveState "s1" payload "labeling" SaveData t0 broken_index in
  SyncResult.success r.1 = false ∧
  SyncResult.error r.1 = Some "SyntaxError: Unexpected token in JSON: not json" ∧
  LocalStorageAdapter.getItem (LocalStorageAdapter.getSessionKey "s1") r.2 =
    Some (LocalStorageAdapter.JSON_stringify_cell
            (PersistedState.to_value (written "s1" payload "labeling" t0 broken_index))) ∧
  LocalStorageAdapter.hasSession "s1" r.2 = true ∧
  LocalStorageAdapter.getActiveSessionId r.2 = LocalStorageAdapter.getActiveSessionId broken_index.
Proof.
  apply (local_saveState_failure_keeps_record "s1" payload "labeling" SaveData t0 broken_index);
    vm_compute; reflexivity.
Defined.

Lemma local_deleteSession_removes_witness :
  let st' := (LocalStorageAdapter.deleteSession "s1" t0 saved_once).2 in
  LocalStorageAdapter.loadState "s1" st' = None ∧
  LocalStorageAdapter.hasSession "s1" st' = false ∧
  (∃ items, LocalStorageAdapter.getSessionList st' = JS.Normal (JS.JArray items) ∧
            existsb (LocalStorageAdapter.is_id "s1") items = false) ∧
  LocalStorageAdapter.getActiveSessionId st' ≠ Some "s1" ∧
  (LocalStorageAdapter.getActiveSessionId saved_once ≠ Some "s1" →
   LocalStorageAdapter.getActiveSessionId st' = LocalStorageAdapter.getActiveSessionId saved_once) ∧
  (∀ sid', sid' ≠ "s1" →
     LocalStorageAdapter.loadState sid' st' = LocalStorageAdapter.loadState sid' saved_once ∧
     LocalStorageAdapter.hasSession sid' st' = LocalStorageAdapter.hasSession sid' saved_once).
Proof.
  apply (local_deleteSession_removes "s1" t0 saved_once). vm_compute. reflexivity.
Defined.

Lemma local_clearAll_clears_witness :
  (let r := LocalStorageAdapter.clearAll t0 saved_once in
   SyncResult.success r.1 = true ∧
   LocalStorageAdapter.listSessions r.2 = [] ∧
   LocalStorageAdapter.getActiveSessionId r.2 = None ∧
   LocalStorageAdapter.hasSession "s1" r.2 = false) ∧
  (∃ e, LocalStorageAdapter.clearAll t0 broken_index =
          (SyncResult.mk false "all" (JS.ValidDate t0) (Some e) None, broken_index)).
Proof.
  destruct (local_clearAll_clears t0 saved_once) as [Hok _].
  destruct (local_clearAll_clears t0 broken_index) as [_ Hbad].
  split.
  - destruct (Hok [JS.JString "s1"]) as (? & ? & ? & Hgone & _); [vm_compute; reflexivity|].
    split_and!; [done..|]. apply (Hgone (JS.JString "s1")). apply list_elem_of_here.
  - eexists. apply Hbad. vm_compute. reflexivity.
Defined.


Lemma local_saved_session_is_listed_witness :
  ∃ m,
    m ∈ LocalStorageAdapter.listSessions saved_once ∧
    JS.get_prop m "sessionId" = JS.Normal (JS.VString "s1") ∧
    JS.get_prop m "rowCount" = JS.Normal (JS.VNumber (DataState.rowCount payload)) ∧
    JS.get_prop m "labelCount" = JS.Normal (JS.VNumber (DataState.labelCount payload)) ∧
    JS.get_prop m "ruleCount" = JS.Normal (JS.VNumber (DataState.ruleCount payload)) ∧
    LocalStorageAdapter.lastModified_time m = Some t0.
Proof.
  apply (local_saved_session_is_listed "s1" payload "labeling" SaveData t0 ∅ []);
    vm_compute; reflexivity.
Defined.

Lemma backend_absent_is_not_offline_witness :
  BackendAdapter.loadState "s9" (World.remote fresh) =
    (None, (BackendAdapter.set_online true (World.remote fresh).1, (World.remote fresh).2)) ∧
  @BackendAdapter.loadState _ _ Service.offline "s9" remote_disconnected =
    (None, (BackendAdapter.set_online false remote_disconnected.1, tt)).
Proof.
  split.
  - destruct (backend_absent_is_not_offline (S:=Service.t) "s9" (World.remote fresh))
      as (Habsent & _).
    eapply Habsent; [vm_compute; reflexivity|lia..].
  - destruct (@backend_absent_is_not_offline _ _ Service.offline "s9" remote_disconnected)
      as (_ & Hfailed & _).
    eapply Hfailed; [vm_compute; reflexivity|done].
Defined.

Lemma strategy_chooses_adapters_witness :
  let chosen := StateSync.getAdaptersByStrategy (sync "local-first") in
  chosen ≡ₚ JS.map_values (StateSync.adapters (sync "local-first")) ∧
  StronglySorted (λ a b, StateAdapter.priority a ≤ StateAdapter.priority b) chosen.
Proof.
  destruct (strategy_chooses_adapters (sync "local-first")) as (Hlocal & _).
  apply Hlocal. reflexivity.
Defined.

Lemma saveToAdapter_retries_witness :
  StateSync.saveToAdapter World.now World.delay device "s1" payload "labeling" SaveData
    (sync "local-first", fresh) =
  ((StateAdapter.saveState device "s1" payload "labeling" SaveData fresh).1,
   (sync "local-first", (StateAdapter.saveState device "s1" payload "labeling" SaveData fresh).2)).
Proof.
  destruct (saveToAdapter_retries World.now World.delay device "s1" payload "labeling" SaveData
              (sync "local-first") fresh) as (_ & Hfirst & _).
  apply Hfirst; vm_compute; reflexivity.
Defined.

Lemma queueBackendSync_queues_witness :
  let s' := (StateSync.queueBackendSync World.now "s1" payload "labeling" SaveData
               (sync "local-first", unreachable_fresh)).2 in
  ∃ p, JS.map_get "s1" (StateSync.pendingSyncs s'.1) = Some p ∧
       PersistedState.sessionId p = "s1" ∧
       PersistedState.dataState p = payload ∧
       PersistedState.activeTab p = "labeling" ∧
       PersistedState.updatedAt p = JS.ValidDate (World.now unreachable_fresh) ∧
       SessionMetadata.syncStatus (PersistedState.metadata p) = Some Pending.
Proof.
  destruct (queueBackendSync_queues World.now "s1" payload "labeling" SaveData
              (sync "local-first") unreachable_fresh) as [_ Hq].
  destruct (Hq backend eq_refl) as [_ Hp]. exact Hp.
Defined.

Lemma syncPendingChanges_keeps_failed_witness :
  StateSync.pendingSyncs (StateSync.syncPendingChanges (with_two_queued, fresh)).2.1 = [] ∧
  StateSync.pendingSyncs (StateSync.syncPendingChanges (with_two_queued, unreachable_fresh)).2.1 =
    StateSync.pendingSyncs with_two_queued.
Proof.
  destruct (syncPendingChanges_keeps_failed with_two_queued fresh) as [_ Hup].
  destruct (syncPendingChanges_keeps_failed with_two_queued unreachable_fresh) as [_ Hdown].
  rewrite (Hup backend eq_refl), (Hdown backend eq_refl) by (apply (bool_decide_unpack (NoDup _)); vm_compute; exact I).
  split; vm_compute; reflexivity.
Defined.

Lemma deleted_session_is_pushed_again_witness :
  let deleted := (StateSync.deleteSession World.now "s2" (with_s2_queued, fresh)).2 in
  StateSync.pendingSyncs deleted.1 = StateSync.pendingSyncs with_s2_queued ∧
  StateSync.syncTimer deleted.1 = StateSync.syncTimer with_s2_queued ∧
  StateSync.pendingSyncs (StateSync.clearAll World.now (with_s2_queued, fresh)).2.1 =
    StateSync.pendingSyncs with_s2_queued ∧
  (StateSync.exec World.now World.delay StateSync.OpTimerTick deleted).2.2 =
    (StateAdapter.saveState backend "s2" (PersistedState.dataState newer_record)
       (PersistedState.activeTab newer_record) SaveData deleted.2).2.
Proof.
  apply (deleted_session_is_pushed_again World.now World.delay "s2" with_s2_queued fresh
           backend newer_record 30000); reflexivity.
Defined.

Lemma backend_first_save_witness :
  StateSync.saveState World.now World.delay "s1" payload "labeling" SaveData
    (sync "backend-first", fresh) =
    (Some (StateAdapter.saveState backend "s1" payload "labeling" SaveData fresh).1,
     (sync "backend-first",
      (StateAdapter.saveState backend "s1" payload "labeling" SaveData fresh).2)) ∧
  (let tried := StateSync.saveToAdapter World.now World.delay backend "s1" payload "labeling"
                  SaveData (sync "backend-first", unreachable_fresh) in
   StateSync.saveState World.now World.delay "s1" payload "labeling" SaveData
     (sync "backend-first", unreachable_fresh) =
     (Some (StateAdapter.saveState device "s1" payload "labeling" SaveData tried.2.2).1,
      (sync "backend-first",
       (StateAdapter.saveState device "s1" payload "labeling" SaveData tried.2.2).2))).
Proof.
  assert (Hprio : StateAdapter.priority device < StateAdapter.priority backend)
    by (vm_compute; reflexivity).
  split.
  - destruct (backend_first_save World.now World.delay device backend eq_refl eq_refl Hprio
                "s1" payload "labeling" SaveData (sync "backend-first") fresh)
      as [Hfirst _]; [reflexivity|reflexivity|vm_compute; reflexivity|].
    apply Hfirst. vm_compute. reflexivity.
  - destruct (backend_first_save World.now World.delay device backend eq_refl eq_refl Hprio
                "s1" payload "labeling" SaveData (sync "backend-first") unreachable_fresh)
      as [_ Hsecond]; [reflexivity|reflexivity|vm_compute; reflexivity|].
    apply Hsecond; vm_compute; reflexivity.
Defined.

Lemma local_first_save_queues_witness :
  let saved := StateAdapter.saveState device "s1" payload "labeling" SaveData unreachable_fresh in
  let r := StateSync.saveState World.now World.delay "s1" payload "labeling" SaveData
             (sync "local-first", unreachable_fresh) in
  r.1 = Some saved.1 ∧
  ∃ p, JS.map_get "s1" (StateSync.pendingSyncs r.2.1) = Some p ∧
       PersistedState.dataState p = payload ∧ PersistedState.activeTab p = "labeling" ∧
       SessionMetadata.syncStatus (PersistedState.metadata p) = Some Pending.
Proof.
  assert (Hprio : StateAdapter.priority device < StateAdapter.priority backend)
    by (vm_compute; reflexivity).
  intros saved r.
  destruct (local_first_save_queues World.now World.delay device backend eq_refl eq_refl Hprio
              "s1" payload "labeling" SaveData (sync "local-first") unreachable_fresh)
    as [Hr Hq];
    [reflexivity|reflexivity|reflexivity|vm_compute; reflexivity|vm_compute; reflexivity|].
  split; [exact Hr|].
  assert (Hpush : SyncResult.success
            (StateAdapter.saveState backend "s1" payload "labeling" SaveData saved.2).1 = false)
    by (vm_compute; reflexivity).
  subst saved. rewrite Hpush in Hq. exact Hq.
Defined.
End Checks.

(** ** Synchronising one session *)

Section SyncSession.
Context {W : Type}.
Implicit Types o : StateSync.t W.

Lemma collect_states_object todo sid o (w : W) :
  (StateSync.collect_states todo sid (o, w)).2.1 = o.
Proof.
  revert w. induction todo as [|a todo IH]; intros w; simpl; [done|].
  unfold bind at 1, StateSync.call. simpl.
  destruct (StateAdapter.loadState a sid w) as [st w1]. simpl.
  unfold bind, ret. specialize (IH w1).
  by destruct (StateSync.collect_states todo sid (o, w1)) as [rest [o' w']].
Qed.

Lemma syncSession_push_world todo latest sid o (w : W) :
  StateSync.syncSession_push todo latest sid (o, w) = (tt, (o, written_to sid latest todo w)).
Proof.
  unfold written_to. revert w. induction todo as [|a todo IH]; intros w; [done|]. simpl.
  rewrite filter_cons. unfold bind at 1. case_bool_decide as Hn.
  - rewrite decide_True by done. unfold bind at 1, StateSync.call, ret. simpl.
    destruct (StateAdapter.saveState a sid _ _ _ w) as [r w1]. simpl. apply IH.
  - rewrite decide_False by (intros Hne; by apply Hne). unfold ret. simpl. apply IH.
Qed.

Lemma foldl_later_latest {A} (updatedAt : A → JS.Date) acc l :
  let r := foldl (StateSync.later updatedAt) acc l in
  r ∈ acc :: l ∧
  (∀ s, JS.date_gt (updatedAt s) (updatedAt acc) = false →
        JS.date_gt (updatedAt s) (updatedAt r) = false) ∧
  ∀ s, s ∈ l → JS.date_gt (updatedAt s) (updatedAt r) = false.
Proof.
  revert acc. induction l as [|x l IH]; intros acc; simpl.
  { split_and!; [apply list_elem_of_here|done|by intros s ?%elem_of_nil]. }
  destruct (IH (StateSync.later updatedAt acc x)) as (Hin & Hmono & Hall).
  assert (Hacc : ∀ s, JS.date_gt (updatedAt s) (updatedAt acc) = false →
            JS.date_gt (updatedAt s) (updatedAt (StateSync.later updatedAt acc x)) = false).
  { intros s Hs. unfold StateSync.later.
    destruct (JS.date_gt (updatedAt x) (updatedAt acc)) eqn:Hgt; [|done].
    by eapply date_gt_trans_false. }
  split_and!.
  - apply elem_of_cons in Hin as [->|Hin].
    + unfold StateSync.later. destruct (JS.date_gt _ _).
      * apply list_elem_of_further, list_elem_of_here.
      * apply list_elem_of_here.
    + by do 2 apply list_elem_of_further.
  - intros s Hs. by apply Hmono, Hacc.
  - intros s Hs. apply elem_of_cons in Hs as [Heq|Hs]; [subst s|by apply Hall].
    apply Hmono. unfold StateSync.later.
    destruct (JS.date_gt (updatedAt x) (updatedAt acc)) eqn:Hgt; [apply date_gt_irrefl|done].
Qed.

(** X22.  [syncSession] writes the newest record to the other adapters.  When
    no adapter holds the session it only reads.  Otherwise one of the records
    found, which none of them is later than, is saved as ['data'] through
    every registered adapter but the one that holds it, once each and in the
    order of registration, whether or not that adapter is behind; the
    orchestrator itself is left as it was. *)
Theorem syncSession_pushes_newest sid o (w : W) :
  let collected := StateSync.collect_states (JS.map_values (StateSync.adapters o)) sid (o, w) in
  let found := StateSync.found_states collected.1 in
  (found = [] → StateSync.syncSession sid (o, w) = (tt, (o, collected.2.2))) ∧
  (found ≠ [] →
   ∃ latest,
     latest ∈ found ∧
     (∀ s, s ∈ found →
        JS.date_gt (PersistedState.updatedAt s.2) (PersistedState.updatedAt latest.2) = false) ∧
     StateSync.syncSession sid (o, w) =
       (tt, (o, written_to sid latest (JS.map_values (StateSync.adapters o)) collected.2.2))).
Proof.
  intros collected found.
  pose proof (collect_states_object (JS.map_values (StateSync.adapters o)) sid o w) as Ho.
  fold collected in Ho.
  assert (Hsync : StateSync.syncSession sid (o, w) =
            match JS.reduce (StateSync.later (λ s, PersistedState.updatedAt s.2)) found with
            | None => (tt, (o, collected.2.2))
            | Some latest =>
                (tt, (o, written_to sid latest (JS.map_values (StateSync.adapters o))
                           collected.2.2))
            end).
  { unfold StateSync.syncSession, bind at 1, StateSync.this. simpl. unfold bind at 1.
    subst found. fold collected. destruct collected as [c [o' w']]. simpl in *. subst o'.
    destruct (JS.reduce _ _) as [latest|]; [|done]. apply syncSession_push_world. }
  split.
  - intros Hnone. by rewrite Hsync, Hnone.
  - intros Hsome. destruct found as [|x l] eqn:Hfound; [done|]. simpl in Hsync.
    destruct (foldl_later_latest (λ s : StateAdapter.t W * PersistedState.t,
                PersistedState.updatedAt s.2) x l) as (Hin & Hmono & Hall).
    eexists. split_and!; [exact Hin| |exact Hsync].
    intros s Hs. apply elem_of_cons in Hs as [Heq|Hs]; [subst s|by apply Hall].
    apply Hmono, date_gt_irrefl.
Qed.
End SyncSession.

(** ** Conflicts between the records of a session *)

Section Policies.
Context {W : Type}.
Implicit Types o : StateSync.t W.

Lemma find_named name (states : list (string * PersistedState.t)) pre st post :
  states = pre ++ (name, st) :: post → name ∉ pre.*1 →
  find (λ s, bool_decide (s.1 = name)) states = Some (name, st).
Proof.
  intros -> Hpre. induction pre as [|[n x] pre IH]; simpl.
  - by rewrite bool_decide_eq_true_2.
  - apply not_elem_of_cons in Hpre as [Hn Hpre]. simpl in Hn.
    rewrite bool_decide_eq_false_2 by done. by apply IH.
Qed.

Lemma find_unnamed name (states : list (string * PersistedState.t)) :
  name ∉ states.*1 → find (λ s, bool_decide (s.1 = name)) states = None.
Proof.
  induction states as [|[n x] states IH]; simpl; [done|].
  intros [Hn Hpre]%not_elem_of_cons. rewrite bool_decide_eq_false_2 by done. by apply IH.
Qed.

(** X23.  [loadState] under the policies other than [latest-wins], in terms
    of the records the queried adapters returned, in the order of the
    strategy.  No record: [null].  One record: that record, whatever the
    policy.  Several records: [backend-wins] returns the record of the
    adapter named [backend] and [local-wins] the one of [localStorage],
    however old it is, and the first record when that adapter returned none;
    [merge] returns the first record. *)
Theorem loadState_follows_policy sid o (w : W) :
  let states :=
    (StateSync.loadState_loop (StateSync.getAdaptersByStrategy o) [] sid (o, w)).1 in
  let policy := SyncConfig.conflictResolution (StateSync.config o) in
  let loaded := (StateSync.loadState sid (o, w)).1 in
  (states = [] → loaded = None) ∧
  (∀ s, states = [s] → loaded = Some s.2) ∧
  (∀ name, (policy = "backend-wins" ∧ name = "backend") ∨
           (policy = "local-wins" ∧ name = "localStorage") →
     (∀ pre st post, states = pre ++ (name, st) :: post → name ∉ pre.*1 → loaded = Some st) ∧
     (name ∉ states.*1 → loaded = snd <$> head states)) ∧
  (policy = "merge" → loaded = snd <$> head states).
Proof.
  intros states policy loaded.
  assert (Hload : loaded =
            match states with
            | [] => None
            | [s] => Some s.2
            | _ => StateSync.resolveConflict o states
            end).
  { subst loaded states. unfold StateSync.loadState, bind, StateSync.this. simpl.
    destruct (StateSync.loadState_loop _ _ _ _) as [sts s']. simpl.
    by destruct sts as [|s1 [|s2 sts]]. }
  split_and!.
  - intros Hs. by rewrite Hload, Hs.
  - intros s Hs. by rewrite Hload, Hs.
  - intros name Hpol.
    assert (Hres : StateSync.resolveConflict o states =
              match find (λ s, bool_decide (s.1 = name)) states with
              | Some s => Some s.2
              | None => snd <$> head states
              end).
    { unfold StateSync.resolveConflict. fold policy.
      destruct Hpol as [[-> ->]|[-> ->]]; [by rewrite decide_True|].
      rewrite decide_False by done. by rewrite decide_True. }
    split.
    + intros pre st post Hs Hpre. rewrite Hload.
      pose proof (find_named name states pre st post Hs Hpre) as Hfind.
      destruct states as [|s1 [|s2 sts]] eqn:Hst.
      * by destruct pre.
      * destruct pre as [|? [|]]; simplify_eq/=. done.
      * by rewrite Hres, Hfind.
    + intros Hno. rewrite Hload.
      pose proof (find_unnamed name states Hno) as Hfind.
      destruct states as [|s1 [|s2 sts]] eqn:Hst; [done..|].
      by rewrite Hres, Hfind.
  - intros Hpol. rewrite Hload.
    destruct states as [|s1 [|s2 sts]] eqn:Hst; [done..|].
    unfold StateSync.resolveConflict. fold policy. rewrite Hpol.
    repeat (rewrite decide_False by done). by rewrite decide_True.
Qed.
End Policies.

(** ** What the strategy does not reach *)

Section Reads.
Context {W : Type} (now : W → Z) (delay : Z → W → W).
Implicit Types o : StateSync.t W.

Lemma reads_ret {A} (a : A) : reads_adapters_only (W:=W) (ret a).
Proof. by intros o o' w _. Qed.

Lemma reads_call {A} (f : W → A * W) : reads_adapters_only (StateSync.call f).
Proof. intros o o' w _. unfold StateSync.call. simpl. by destruct (f w). Qed.

Lemma reads_now : reads_adapters_only (StateSync.new_Date_now now).
Proof. by intros o o' w _. Qed.

Lemma reads_bind {A B} (m : M (StateSync.t W * W) A) (k : A → M (StateSync.t W * W) B) :
  reads_adapters_only m → (∀ a, reads_adapters_only (k a)) → reads_adapters_only (bind m k).
Proof.
  intros Hm Hk o o' w Heq. unfold bind.
  rewrite (Hm o o' w Heq). pose proof (Hm o o w eq_refl) as Hself.
  destruct (m (o, w)) as [a [o1 w1]]. simpl in *. injection Hself as ->.
  by apply Hk.
Qed.

Lemma reads_this_bind {A} (body : StateSync.t W → M (StateSync.t W * W) A) :
  (∀ o o', StateSync.adapters o' = StateSync.adapters o → body o' = body o) →
  (∀ o, reads_adapters_only (body o)) →
  reads_adapters_only (bind StateSync.this body).
Proof.
  intros Hext Hbody o o' w Heq. unfold bind, StateSync.this. simpl.
  rewrite (Hext o o' Heq). by apply Hbody.
Qed.

Lemma reads_deleteSession_loop todo results sid :
  reads_adapters_only (W:=W) (StateSync.deleteSession_loop todo results sid).
Proof.
  revert results. induction todo as [|a todo IH]; intros results; simpl.
  - apply reads_ret.
  - apply reads_bind; [apply reads_call|]. intros r. apply IH.
Qed.

Lemma reads_listSessions_loop todo all :
  reads_adapters_only (W:=W) (StateSync.listSessions_loop todo all).
Proof.
  revert all. induction todo as [|a todo IH]; intros all; simpl.
  - apply reads_ret.
  - apply reads_bind; [apply reads_call|]. intros r. apply IH.
Qed.

Lemma reads_hasSession_loop todo sid :
  reads_adapters_only (W:=W) (StateSync.hasSession_loop todo sid).
Proof.
  induction todo as [|a todo IH]; simpl.
  - apply reads_ret.
  - apply reads_bind; [apply reads_call|]. intros []; [apply reads_ret|apply IH].
Qed.

Lemma reads_for_each todo (f : StateAdapter.t W → W → unit * W) :
  reads_adapters_only (StateSync.for_each todo f).
Proof.
  induction todo as [|a todo IH]; simpl.
  - apply reads_ret.
  - apply reads_bind; [apply reads_call|]. intros _. apply IH.
Qed.

Lemma reads_clearAll_loop todo results :
  reads_adapters_only (W:=W) (StateSync.clearAll_loop todo results).
Proof.
  revert results. induction todo as [|a todo IH]; intros results; simpl.
  - apply reads_ret.
  - apply reads_bind; [apply reads_call|]. intros r. apply IH.
Qed.

Lemma reads_collect_states todo sid :
  reads_adapters_only (W:=W) (StateSync.collect_states todo sid).
Proof.
  induction todo as [|a todo IH]; simpl.
  - apply reads_ret.
  - apply reads_bind; [apply reads_call|]. intros r.
    apply reads_bind; [apply IH|]. intros rest. apply reads_ret.
Qed.

Lemma reads_syncSession_push todo latest sid :
  reads_adapters_only (W:=W) (StateSync.syncSession_push todo latest sid).
Proof.
  induction todo as [|a todo IH]; simpl.
  - apply reads_ret.
  - apply reads_bind; [|intros _; apply IH].
    case_bool_decide; [|apply reads_ret].
    apply reads_bind; [apply reads_call|]. intros _. apply reads_ret.
Qed.

Lemma reads_healthCheck_loop todo health :
  reads_adapters_only (W:=W) (StateSync.healthCheck_loop todo health).
Proof.
  revert health. induction todo as [|[n a] todo IH]; intros health; simpl.
  - apply reads_ret.
  - apply reads_bind; [apply reads_call|]. intros r. apply IH.
Qed.

Lemma reads_listSessions : reads_adapters_only (W:=W) StateSync.listSessions.
Proof.
  apply reads_this_bind; [by intros o o' ->|]. intros o.
  apply reads_bind; [apply reads_listSessions_loop|]. intros all. apply reads_ret.
Qed.

Lemma reads_syncSession sid : reads_adapters_only (W:=W) (StateSync.syncSession sid).
Proof.
  apply reads_this_bind; [by intros o o' ->|]. intros o.
  apply reads_bind; [apply reads_collect_states|]. intros collected.
  destruct (JS.reduce _ _) as [latest|]; [apply reads_syncSession_push|apply reads_ret].
Qed.

Lemma reads_syncNow_loop sessions : reads_adapters_only (W:=W) (StateSync.syncNow_loop sessions).
Proof.
  induction sessions as [|s sessions IH]; simpl.
  - apply reads_ret.
  - apply reads_bind; [apply reads_syncSession|]. intros _. apply IH.
Qed.

(** X24.  [deleteSession], [listSessions], [hasSession],
    [setActiveSessionId], [clearActiveSessionId], [clearAll], [syncNow],
    [getSyncStatus] and [healthCheck] read nothing of the orchestrator but the
    registered adapters: the strategy, the conflict policy, the timer and the
    queue have no part in them, so that under [local-only] they call the
    backend, and under [backend-only] the device, as under every other
    strategy; and they leave the orchestrator as it is. *)
Theorem strategy_is_not_read_outside_save_and_load (sid : string) :
  reads_adapters_only (W:=W) (StateSync.deleteSession now sid) ∧
  reads_adapters_only (W:=W) StateSync.listSessions ∧
  reads_adapters_only (W:=W) (StateSync.hasSession sid) ∧
  reads_adapters_only (W:=W) (StateSync.setActiveSessionId sid) ∧
  reads_adapters_only (W:=W) StateSync.clearActiveSessionId ∧
  reads_adapters_only (W:=W) (StateSync.clearAll now) ∧
  reads_adapters_only (W:=W) StateSync.syncNow ∧
  reads_adapters_only (W:=W) (StateSync.getSyncStatus sid) ∧
  reads_adapters_only (W:=W) StateSync.healthCheck.
Proof.
  split_and!.
  - apply reads_this_bind; [by intros o o' ->|]. intros o.
    apply reads_bind; [apply reads_deleteSession_loop|]. intros results.
    apply reads_bind; [apply reads_now|]. intros d. apply reads_ret.
  - apply reads_listSessions.
  - apply reads_this_bind; [by intros o o' ->|]. intros o. apply reads_hasSession_loop.
  - apply reads_this_bind; [by intros o o' ->|]. intros o. apply reads_for_each.
  - apply reads_this_bind; [by intros o o' ->|]. intros o. apply reads_for_each.
  - apply reads_this_bind; [by intros o o' ->|]. intros o.
    apply reads_bind; [apply reads_clearAll_loop|]. intros results.
    apply reads_bind; [apply reads_now|]. intros d. apply reads_ret.
  - apply reads_bind; [apply reads_listSessions|]. apply reads_syncNow_loop.
  - apply reads_this_bind; [by intros o o' ->|]. intros o.
    apply reads_bind; [apply reads_collect_states|]. intros collected. apply reads_ret.
  - apply reads_this_bind; [by intros o o' ->|]. intros o. apply reads_healthCheck_loop.
Qed.
End Reads.

(** * Further properties of the synchronous wrapper *)

Section Wrapper.
Context `{JS.Platform} `{LocalStorageAdapter.Browser} {W : Type}.
Implicit Types st : gmap string LocalStorageAdapter.cell.
Implicit Types o : StateSync.t W.

Lemma revive_inv parsed state :
  LocalStorageAdapter.revive parsed = JS.Normal state →
  ∃ props dataState,
    parsed = JS.VObject props ∧
    LocalStorageAdapter.revive_dataState (default JS.VUndefined (JS.map_get "dataState" props))
      = JS.Normal dataState ∧
    JS.get_prop state "dataState" = JS.Normal dataState ∧
    JS.get_prop state "activeTab" =
      JS.Normal (default JS.VUndefined (JS.map_get "activeTab" props)).
Proof.
  unfold LocalStorageAdapter.revive, LocalStorageAdapter.revive_dates.
  destruct parsed as [| | | | | | | |props| |]; try discriminate.
  simpl. destruct (LocalStorageAdapter.revive_metadata _) as [m'|]; [|discriminate]. simpl.
  destruct (LocalStorageAdapter.revive_dataState _) as [ds'|] eqn:Hds; [|discriminate]. simpl.
  intros [= <-]. exists props, ds'. split_and!; [done..| |].
  - unfold JS.with_props. simpl. by rewrite map_get_set, decide_True.
  - unfold JS.with_props. simpl. rewrite !map_get_set. by rewrite !decide_False.
Qed.

Lemma wrapper_reads_record o sid st state :
  is_Some (JS.map_get "localStorage" (StateSync.adapters o)) →
  LocalStorageAdapter.loadState sid st = Some state →
  ∃ dataState activeTab,
    JS.get_prop state "dataState" = JS.Normal dataState ∧
    JS.get_prop state "activeTab" = JS.Normal activeTab ∧
    StatePersistenceV2.loadStateFromStorage o sid st =
      Some (JS.VObject [("dataState", dataState); ("activeTab", activeTab)]).
Proof.
  intros [a Ha]. unfold LocalStorageAdapter.loadState, StatePersistenceV2.loadStateFromStorage.
  rewrite Ha.
  change ("data-labeler:session:" +:+ sid) with (LocalStorageAdapter.getSessionKey sid).
  destruct (LocalStorageAdapter.getItem _ st) as [c|]; [|done].
  destruct (LocalStorageAdapter.no_data _); [done|].
  destruct (LocalStorageAdapter.JSON_parse c) as [j|]; [|done]. simpl.
  destruct (LocalStorageAdapter.revive (JS.of_json j)) as [state'|] eqn:Hr; [|done].
  intros [= ->]. apply revive_inv in Hr as (props & ds & Hp & Hds & Hgd & Hga).
  exists ds, (default JS.VUndefined (JS.map_get "activeTab" props)).
  split_and!; [done..|]. rewrite Hp. simpl. by rewrite Hds.
Qed.

(** X25.  The synchronous [loadStateFromStorage] of the wrapper reads the
    records of the on-device adapter.  With the on-device adapter registered,
    whenever [loadState] of the adapter returns a record the wrapper returns
    the [dataState] and the [activeTab] of that record; after a successful
    [saveState] of a payload [loadState] rebuilds, the wrapper returns the
    payload and the tab that were saved. *)
Theorem wrapper_load_agrees_with_adapter o sid st :
  is_Some (JS.map_get "localStorage" (StateSync.adapters o)) →
  (∀ state, LocalStorageAdapter.loadState sid st = Some state →
     ∃ dataState activeTab,
       JS.get_prop state "dataState" = JS.Normal dataState ∧
       JS.get_prop state "activeTab" = JS.Normal activeTab ∧
       StatePersistenceV2.loadStateFromStorage o sid st =
         Some (JS.VObject [("dataState", dataState); ("activeTab", activeTab)])) ∧
  (∀ d tab ty now,
     LocalStorageAdapter.revivable d = true →
     SyncResult.success (LocalStorageAdapter.saveState sid d tab ty now st).1 = true →
     StatePersistenceV2.loadStateFromStorage o sid
       (LocalStorageAdapter.saveState sid d tab ty now st).2 =
       Some (JS.VObject [("dataState", DataState.to_value d); ("activeTab", JS.VString tab)])).
Proof.
  intros Hlocal. split.
  - intros state. by apply wrapper_reads_record.
  - intros d tab ty now Hd Hok.
    destruct (loadState_written sid d tab ty now st Hd Hok) as (m' & _ & Hload).
    destruct (wrapper_reads_record o sid _ _ Hlocal Hload) as (ds & at' & Hds & Hat & ->).
    simpl in Hds, Hat. by simplify_eq.
Qed.
End Wrapper.

(** * Properties of the first persistence layer *)

Section Collections.

Lemma same_value_zero_sym a b : StatePersistence.same_value_zero a b = StatePersistence.same_value_zero b a.
Proof.
  destruct a, b; simpl; try done; apply bool_decide_ext; split; intros ->; reflexivity.
Qed.

Lemma foldl_set_add acc items :
  forallb (λ x, negb (existsb (StatePersistence.same_value_zero x) acc)) items = true →
  distinct items = true →
  foldl StatePersistence.set_add acc items = acc ++ items.
Proof.
  revert acc. induction items as [|x items IH]; intros acc Hacc Hd; simpl.
  - by rewrite app_nil_r.
  - simpl in Hacc, Hd. apply andb_prop in Hacc as [Hx Hacc]. apply andb_prop in Hd as [Hxd Hd].
    unfold StatePersistence.set_add at 2. apply negb_true_iff in Hx. rewrite Hx.
    rewrite IH; [by rewrite <-app_assoc| |done].
    apply forallb_forall. intros y Hy.
    rewrite existsb_app, negb_orb. apply andb_true_intro. split.
    + by apply (proj1 (forallb_forall _ _) Hacc).
    + simpl. rewrite orb_false_r. apply negb_true_iff.
      apply negb_true_iff in Hxd.
      rewrite same_value_zero_sym.
      destruct (StatePersistence.same_value_zero x y) eqn:Hxy; [|done].
      assert (existsb (StatePersistence.same_value_zero x) items = true); [|congruence].
      apply existsb_exists. by exists y.
Qed.

Lemma new_Set_distinct items : distinct items = true → foldl StatePersistence.set_add [] items = items.
Proof.
  intros Hd. rewrite foldl_set_add; [done| |done].
  clear Hd. by induction items.
Qed.

Lemma map_put_fresh entries k v :
  existsb (StatePersistence.same_value_zero k) entries.*1 = false →
  StatePersistence.map_put entries k v = entries ++ [(k, v)].
Proof.
  induction entries as [|[k' v'] entries IH]; simpl; [done|].
  intros [Hk Hrest]%orb_false_elim. rewrite Hk. by rewrite IH.
Qed.

Lemma foldl_map_put acc entries :
  forallb (λ x, negb (existsb (StatePersistence.same_value_zero x) acc.*1)) entries.*1 = true →
  distinct entries.*1 = true →
  foldl (λ acc kv, StatePersistence.map_put acc kv.1 kv.2) acc entries = acc ++ entries.
Proof.
  revert acc. induction entries as [|[k v] entries IH]; intros acc Hacc Hd; simpl.
  - by rewrite app_nil_r.
  - rewrite fmap_cons in Hacc, Hd. cbn [forallb distinct fst] in Hacc, Hd.
    apply andb_prop in Hacc as [Hx Hacc]. apply andb_prop in Hd as [Hxd Hd].
    apply negb_true_iff in Hx. cbn [fst snd]. rewrite map_put_fresh by done.
    rewrite IH; [by rewrite <-app_assoc| |done].
    apply forallb_forall. intros y Hy.
    rewrite fmap_app, existsb_app, negb_orb. apply andb_true_intro. split.
    + by apply (proj1 (forallb_forall _ _) Hacc).
    + simpl. rewrite orb_false_r. apply negb_true_iff.
      apply negb_true_iff in Hxd.
      rewrite same_value_zero_sym.
      destruct (StatePersistence.same_value_zero k y) eqn:Hxy; [|done].
      assert (existsb (StatePersistence.same_value_zero k) entries.*1 = true); [|congruence].
      apply existsb_exists. by exists y.
Qed.

Lemma new_Map_distinct (entries : list (JS.value * JS.value)) :
  distinct entries.*1 = true →
  foldl (λ acc kv, StatePersistence.map_put acc kv.1 kv.2) [] entries = entries.
Proof.
  intros Hd. rewrite foldl_map_put; [done| |done].
  clear Hd. by induction entries.
Qed.

Lemma cmapM_entry_of (entries : list (JS.value * JS.value)) :
  JS.cmapM StatePersistence.entry_of ((λ kv, JS.VArray [kv.1; kv.2]) <$> entries) = JS.Normal entries.
Proof.
  induction entries as [|[k v] entries IH]; [done|].
  rewrite fmap_cons, cmapM_cons, IH. done.
Qed.

Lemma map_set_fresh {V} k (v : V) (m : list (string * V)) :
  k ∉ m.*1 → JS.map_set k v m = m ++ [(k, v)].
Proof.
  induction m as [|[k' v'] m IH]; simpl; [done|].
  intros [Hk Hm]%not_elem_of_cons. rewrite decide_False by done. by rewrite IH.
Qed.

Lemma assign_each_fmap (f : JS.value → JS.Completion JS.value) (g : JS.value → JS.value)
    props target :
  Forall (λ kv, f kv.2 = JS.Normal (g kv.2)) props →
  NoDup (target.*1 ++ props.*1) → "__proto__" ∉ props.*1 →
  StatePersistence.assign_each f props target = JS.Normal (target ++ (prod_map id g <$> props)).
Proof.
  intros Hall. revert target. induction Hall as [|[k x] props Hx _ IH]; intros target Hnd Hp.
  - simpl. by rewrite app_nil_r.
  - simpl in *. rewrite Hx. simpl.
    apply not_elem_of_cons in Hp as [Hk Hp].
    unfold StatePersistence.assign. rewrite decide_False by done.
    apply NoDup_app in Hnd as (Hnd1 & Hdisj & Hnd2).
    apply NoDup_cons in Hnd2 as [Hkp Hnd2].
    rewrite map_set_fresh.
    2:{ intros Hin. apply (Hdisj k Hin). apply list_elem_of_here. }
    rewrite IH; [by rewrite <-app_assoc| |done].
    rewrite fmap_app. simpl. rewrite <-app_assoc. simpl.
    apply NoDup_app. split_and!; [done| |by apply NoDup_cons].
    intros y Hy. apply Hdisj, Hy.
Qed.

Lemma map_each_fmap (f : JS.value → JS.Completion JS.value) (g : JS.value → JS.value) items :
  Forall (λ x, f x = JS.Normal (g x)) items →
  StatePersistence.map_each f items = JS.Normal (g <$> items).
Proof.
  induction 1 as [|x items Hx _ IH]; simpl; [done|]. by rewrite Hx, IH.
Qed.
End Collections.

Section Tagging.
Context `{JS.Platform}.

Lemma serializeState_array items :
  StatePersistence.serializeState (JS.VArray items) =
    (serialized <-? StatePersistence.map_each StatePersistence.serializeState items ;;
     JS.Normal (JS.VArray serialized)).
Proof. done. Qed.

Lemma serializeState_object props :
  StatePersistence.serializeState (JS.VObject props) =
    (serialized <-? StatePersistence.assign_each StatePersistence.serializeState props [] ;;
     JS.Normal (JS.VObject serialized)).
Proof. done. Qed.

Lemma deserializeState_array items :
  StatePersistence.deserializeState (JS.VArray items) =
    (deserialized <-? StatePersistence.map_each StatePersistence.deserializeState items ;;
     JS.Normal (JS.VArray deserialized)).
Proof. done. Qed.

Lemma deserializeState_untagged props :
  JS.falsy (default JS.VUndefined (JS.map_get "__type" props)) = true →
  StatePersistence.deserializeState (JS.VObject props) =
    (deserialized <-? StatePersistence.assign_each StatePersistence.deserializeState props [] ;;
     JS.Normal (JS.VObject deserialized)).
Proof. intros Hf. simpl. by rewrite Hf. Qed.

Lemma deserializeState_Set x :
  StatePersistence.deserializeState (JS.VObject [("__type", JS.VString "Set"); ("values", x)]) =
    StatePersistence.new_Set x.
Proof. reflexivity. Qed.

Lemma deserializeState_Map x :
  StatePersistence.deserializeState (JS.VObject [("__type", JS.VString "Map"); ("values", x)]) =
    StatePersistence.new_Map x.
Proof. reflexivity. Qed.

Lemma deserializeState_Date x :
  StatePersistence.deserializeState (JS.VObject [("__type", JS.VString "Date"); ("value", x)]) =
    JS.Normal (JS.VDate (JS.new_Date x)).
Proof. reflexivity. Qed.

Lemma taggable_falsy v :
  taggable v = true → JS.falsy v = true →
  StatePersistence.serializeState v = JS.Normal v ∧ reparsed v = v.
Proof. by destruct v as [| |[]|n| |s| | | | |]. Qed.

Lemma plain_pairs (entries : list (JS.value * JS.value)) :
  forallb (λ kv, JS.plain kv.1 && JS.plain kv.2) entries = true →
  JS.plain (JS.VArray ((λ kv, JS.VArray [kv.1; kv.2]) <$> entries)) = true.
Proof.
  change (JS.plain (JS.VArray ?l)) with (forallb JS.plain l).
  induction entries as [|[k v] entries IH]; [done|].
  rewrite fmap_cons. cbn [forallb fst snd].
  intros [[Hk Hv]%andb_prop Hall]%andb_prop.
  rewrite IH by done. simpl. by rewrite Hk, Hv.
Qed.

Lemma serialize_taggable v :
  taggable v = true →
  ∃ s, StatePersistence.serializeState v = JS.Normal s ∧
       is_Some (JS.JSON_stringify s) ∧
       StatePersistence.deserializeState (reparsed s) = JS.Normal v.
Proof.
  induction v as [| | | | | |d|items IH|props IH|items _|entries _]
    using value_nested_ind; try done; try (eexists; split_and!; [done|by eexists|done]).
  - (* a date *)
    destruct d as [ms|]; [|done]. simpl. intros Hs%bool_decide_eq_true.
    eexists. split_and!; [done|by eexists|].
    rewrite reparsed_object by (repeat constructor; by eexists).
    cbn [fmap list_fmap prod_map fst snd id].
    rewrite !reparsed_plain by done.
    rewrite deserializeState_Date. simpl. by rewrite Hs.
  - (* an array *)
    intros Hall. simpl in Hall.
    pose (ser := λ x, match StatePersistence.serializeState x with JS.Normal s => s | JS.Throw _ => x end).
    assert (Hitems : Forall (λ x, StatePersistence.serializeState x = JS.Normal (ser x) ∧
                                  is_Some (JS.JSON_stringify (ser x)) ∧
                                  StatePersistence.deserializeState (reparsed (ser x)) = JS.Normal x) items).
    { clear -IH Hall. induction IH as [|x items Hx _ IHl]; [constructor|].
      simpl in Hall. apply andb_prop in Hall as [Hx1 Hall]. constructor; [|by apply IHl].
      destruct (Hx Hx1) as (s & Hs & Hj & Hd). unfold ser. by rewrite Hs. }
    exists (JS.VArray (ser <$> items)). split_and!.
    + rewrite serializeState_array, (map_each_fmap _ ser); [done|].
      eapply Forall_impl; [exact Hitems|]. by intros x (? & _).
    + by eexists.
    + rewrite reparsed_array, deserializeState_array, <-list_fmap_compose.
      pose (des := λ y, match StatePersistence.deserializeState y with JS.Normal x => x | JS.Throw _ => y end).
      rewrite (map_each_fmap _ des).
      2:{ apply Forall_fmap. eapply Forall_impl; [exact Hitems|].
          intros x (_ & _ & Hd). simpl. unfold des. by rewrite Hd. }
      simpl. do 2 f_equal. rewrite <-list_fmap_compose.
      clear -Hitems. induction Hitems as [|x items (_ & _ & Hd) _ IHl]; [done|].
      rewrite fmap_cons, IHl. simpl. unfold des. by rewrite Hd.
  - (* an object *)
    intros Hall. simpl in Hall.
    apply andb_prop in Hall as [[[Hnd Hproto]%andb_prop Htype]%andb_prop Hall].
    apply bool_decide_eq_true in Hnd. apply bool_decide_eq_true in Hproto.
    pose (ser := λ x, match StatePersistence.serializeState x with JS.Normal s => s | JS.Throw _ => x end).
    assert (Hprops : Forall (λ kv, StatePersistence.serializeState kv.2 = JS.Normal (ser kv.2) ∧
                                   is_Some (JS.JSON_stringify (ser kv.2)) ∧
                                   StatePersistence.deserializeState (reparsed (ser kv.2)) = JS.Normal kv.2)
                       props).
    { clear -IH Hall. induction IH as [|[k x] props Hx _ IHl]; [constructor|].
      simpl in Hall. apply andb_prop in Hall as [Hx1 Hall]. constructor; [|by apply IHl].
      simpl in Hx. destruct (Hx Hx1) as (s & Hs & Hj & Hd). simpl. unfold ser. by rewrite Hs. }
    exists (JS.VObject (prod_map id ser <$> props)). split_and!.
    + rewrite serializeState_object, (assign_each_fmap _ ser); [done| |done|done].
      eapply Forall_impl; [exact Hprops|]. by intros x (? & _).
    + by eexists.
    + rewrite reparsed_object.
      2:{ apply Forall_fmap. eapply Forall_impl; [exact Hprops|]. by intros [k x] (_ & ? & _). }
      rewrite <-list_fmap_compose.
      assert (Hkeys : ∀ (g : JS.value → JS.value) (l : list (string * JS.value)),
                ((prod_map id g) <$> l).*1 = l.*1).
      { intros g l. rewrite <-list_fmap_compose. by apply list_fmap_ext; intros ? []. }
      rewrite deserializeState_untagged.
      2:{ change (prod_map id reparsed ∘ prod_map id ser)
            with (prod_map (A:=string) id (reparsed ∘ ser)).
          rewrite map_get_fmap.
          destruct (JS.map_get "__type" props) as [t|] eqn:Ht; [|done]. simpl.
          apply map_get_Some_elem in Ht.
          assert (taggable t = true) as Htag.
          { apply (proj1 (forallb_forall _ _) Hall (_, t) (proj1 (list_elem_of_In _ _) Ht)). }
          destruct (taggable_falsy t Htag Htype) as [Hs Hr].
          unfold ser. by rewrite Hs, Hr. }
      pose (des := λ y, match StatePersistence.deserializeState y with JS.Normal x => x | JS.Throw _ => y end).
      rewrite (assign_each_fmap _ des).
      * simpl. do 2 f_equal. rewrite <-list_fmap_compose.
        clear -Hprops. induction Hprops as [|[k x] props (_ & _ & Hd) _ IHl]; [done|].
        rewrite fmap_cons, IHl. simpl in *. unfold prod_map. simpl. unfold des. by rewrite Hd.
      * apply Forall_fmap. eapply Forall_impl; [exact Hprops|].
        intros [k x] (_ & _ & Hd). simpl in *. unfold des. by rewrite Hd.
      * simpl. change (prod_map id reparsed ∘ prod_map id ser)
          with (prod_map (A:=string) id (reparsed ∘ ser)). by rewrite Hkeys.
      * change (prod_map id reparsed ∘ prod_map id ser)
          with (prod_map (A:=string) id (reparsed ∘ ser)). by rewrite Hkeys.
  - (* a set *)
    intros [Hplain Hd]%andb_prop.
    eexists. split_and!; [done|by eexists|].
    rewrite reparsed_object by (repeat constructor; by eexists).
    cbn [fmap list_fmap prod_map fst snd id].
    rewrite (reparsed_plain (JS.VArray items)), (reparsed_plain (JS.VString "Set")) by done.
    rewrite deserializeState_Set. simpl. by rewrite new_Set_distinct.
  - (* a map *)
    intros [Hplain Hd]%andb_prop.
    eexists. split_and!; [done|by eexists|].
    rewrite reparsed_object by (repeat constructor; by eexists).
    cbn [fmap list_fmap prod_map fst snd id].
    rewrite (reparsed_plain (JS.VArray _)) by (by apply plain_pairs).
    rewrite (reparsed_plain (JS.VString "Map")) by done.
    rewrite deserializeState_Map. cbn [StatePersistence.new_Map].
    unfold StatePersistence.map_of_items. rewrite cmapM_entry_of. simpl.
    by rewrite new_Map_distinct.
Qed.
End Tagging.

(** X26.  The tagging serialiser carries a value through JSON and back:
    [deserializeState] applied to what [JSON.parse] reads from the text of
    [serializeState] gives the value back, whenever the value is built from
    JSON data, time stamps, and sets and maps of plain JSON data.  The
    elements of a set are not tagged: a date inside a set comes back as its
    ISO string. *)
Theorem tagged_values_survive_json `{JS.Platform} v :
  taggable v = true →
  (∃ s j, StatePersistence.serializeState v = JS.Normal s ∧
          JS.JSON_stringify s = Some j ∧
          StatePersistence.deserializeState (JS.of_json j) = JS.Normal v) ∧
  (∀ ms, ∃ s j,
     StatePersistence.serializeState (JS.VSet [JS.VDate (JS.ValidDate ms)]) = JS.Normal s ∧
     JS.JSON_stringify s = Some j ∧
     StatePersistence.deserializeState (JS.of_json j) =
       JS.Normal (JS.VSet [JS.VString (JS.toISOString ms)])).
Proof.
  intros Hv. split.
  - destruct (serialize_taggable v Hv) as (s & Hs & [j Hj] & Hd).
    exists s, j. split_and!; [done..|]. unfold reparsed in Hd. by rewrite Hj in Hd.
  - intros ms. by do 2 eexists.
Qed.

Section Records.
Context `{JS.Platform} `{LocalStorageAdapter.Browser} `{StatePersistence.Numbers}.
Implicit Types st : gmap string LocalStorageAdapter.cell.

Lemma legacy_key_inj sid sid' :
  StatePersistence.getSessionStorageKey sid = StatePersistence.getSessionStorageKey sid' → sid = sid'.
Proof. by intros [=]. Qed.

Lemma legacy_key_ne_active sid : StatePersistence.getSessionStorageKey sid ≠ StatePersistence.ACTIVE_SESSION_KEY.
Proof. by intros [=]. Qed.

Lemma legacy_key_ne_marker sid : StatePersistence.getSessionStorageKey sid ≠ StatePersistence.HAS_DATA_KEY.
Proof. by intros [=]. Qed.

Lemma given_Some sid : sid ≠ EmptyString → StatePersistence.given (Some sid) = Some sid.
Proof. intros Hs. unfold StatePersistence.given. by rewrite decide_False. Qed.

Lemma clearStoredState_session sid st :
  sid ≠ EmptyString →
  let st' := StatePersistence.clearStoredState (Some sid) st in
  LocalStorageAdapter.getItem (StatePersistence.getSessionStorageKey sid) st' = None ∧
  StatePersistence.getActiveSessionId st' ≠ Some sid ∧
  ∀ sid', sid' ≠ sid →
    LocalStorageAdapter.getItem (StatePersistence.getSessionStorageKey sid') st' =
    LocalStorageAdapter.getItem (StatePersistence.getSessionStorageKey sid') st.
Proof.
  intros Hs. unfold StatePersistence.clearStoredState. rewrite given_Some by done. cbv zeta.
  unfold StatePersistence.getActiveSessionId, LocalStorageAdapter.getItem, LocalStorageAdapter.removeItem.
  case_bool_decide as Hact.
  - split_and!.
    + rewrite !lookup_delete_ne
        by (apply not_eq_sym; first [apply legacy_key_ne_marker|apply legacy_key_ne_active]).
      apply lookup_delete_eq.
    + rewrite lookup_delete_ne by done. by rewrite lookup_delete_eq.
    + intros sid' Hne.
      rewrite !lookup_delete_ne
        by (apply not_eq_sym; first [apply legacy_key_ne_marker|apply legacy_key_ne_active]).
      apply lookup_delete_ne. intros Heq. by apply legacy_key_inj in Heq.
  - split_and!.
    + apply lookup_delete_eq.
    + done.
    + intros sid' Hne. apply lookup_delete_ne. intros Heq. by apply legacy_key_inj in Heq.
Qed.

(** X27.  [loadStateFromStorage] of the first persistence layer removes the
    record it cannot use.  When a session identifier is given and the record
    is there, a [null] answer (text that is not JSON, another version, a
    record older than seven days, a [selectedRows] that is no set, anything
    that throws) leaves the store without that record and without an active
    session pointer to it; an answer with a state leaves the store as it was;
    the records of the other sessions are never touched. *)
Theorem legacy_load_removes_unusable_record sid now st :
  sid ≠ EmptyString →
  let key := StatePersistence.getSessionStorageKey sid in
  let r := StatePersistence.loadStateFromStorage (Some sid) now st in
  (is_Some r.1 → r.2 = st) ∧
  (LocalStorageAdapter.no_data (LocalStorageAdapter.getItem key st) = true → r = (None, st)) ∧
  (r.1 = None →
   LocalStorageAdapter.no_data (LocalStorageAdapter.getItem key st) = false →
   LocalStorageAdapter.getItem key r.2 = None ∧
   StatePersistence.hasStoredData (Some sid) r.2 = false ∧
   StatePersistence.getActiveSessionId r.2 ≠ Some sid) ∧
  (∀ sid', sid' ≠ sid →
     LocalStorageAdapter.getItem (StatePersistence.getSessionStorageKey sid') r.2 =
     LocalStorageAdapter.getItem (StatePersistence.getSessionStorageKey sid') st).
Proof.
  intros Hs key r.
  destruct (clearStoredState_session sid st Hs) as (Hgone & Hact & Hothers).
  assert (Hr : r = (None, st) ∧
               LocalStorageAdapter.no_data (LocalStorageAdapter.getItem key st) = true
             ∨ (∃ loaded, r = (Some loaded, st)) ∧
               LocalStorageAdapter.no_data (LocalStorageAdapter.getItem key st) = false
             ∨ r = (None, StatePersistence.clearStoredState (Some sid) st) ∧
               LocalStorageAdapter.no_data (LocalStorageAdapter.getItem key st) = false).
  { subst r. unfold StatePersistence.loadStateFromStorage. rewrite given_Some by done. fold key.
    destruct (LocalStorageAdapter.getItem key st) as [c|] eqn:Hc; [|by left].
    destruct (LocalStorageAdapter.no_data (Some c)) eqn:Hn; [by left|].
    right. destruct (_ <-? LocalStorageAdapter.JSON_parse c ;; _) as [[loaded|]|e].
    - left. split; [by exists loaded|done].
    - by right.
    - by right. }
  destruct Hr as [[-> Hn]|[[[loaded ->] Hn]|[-> Hn]]]; cbn [fst snd].
  - split_and!; [done|done|congruence|done].
  - split_and!; [done|congruence|done|done].
  - split_and!; [by intros [? ?]|congruence| |done].
    intros _ _. split_and!; [done| |done].
    unfold StatePersistence.hasStoredData. rewrite given_Some by done. rewrite Hgone.
    by apply bool_decide_eq_false_2; intros [? ?].
Qed.

Lemma saveStateToStorage_record sid d s tab view now st :
  StatePersistence.serializeState d = JS.Normal s →
  LocalStorageAdapter.quota_ok
    (<[StatePersistence.getSessionStorageKey sid :=
         LocalStorageAdapter.JSON_stringify_cell (StatePersistence.stateToSave s tab view now)]> st) = true →
  LocalStorageAdapter.getItem (StatePersistence.getSessionStorageKey sid)
    (StatePersistence.saveStateToStorage sid d tab view now st) =
    Some (LocalStorageAdapter.JSON_stringify_cell (StatePersistence.stateToSave s tab view now)).
Proof.
  intros Hs Hq. unfold StatePersistence.saveStateToStorage. rewrite Hs.
  unfold LocalStorageAdapter.setItem at 1. rewrite Hq.
  set (st1 := <[_ := _]> st).
  assert (Hrec1 : LocalStorageAdapter.getItem (StatePersistence.getSessionStorageKey sid) st1 =
            Some (LocalStorageAdapter.JSON_stringify_cell (StatePersistence.stateToSave s tab view now)))
    by apply lookup_insert_eq.
  destruct (JS.get_prop d "data") as [data|]; [|done].
  destruct (JS.falsy data); [done|].
  destruct (LocalStorageAdapter.setItem StatePersistence.ACTIVE_SESSION_KEY _ st1) as [st2|] eqn:Hset2; [|done].
  apply setItem_Normal in Hset2 as ->.
  assert (Hrec2 : LocalStorageAdapter.getItem (StatePersistence.getSessionStorageKey sid)
            (<[StatePersistence.ACTIVE_SESSION_KEY := LocalStorageAdapter.Text sid]> st1) =
            Some (LocalStorageAdapter.JSON_stringify_cell (StatePersistence.stateToSave s tab view now))).
  { unfold LocalStorageAdapter.getItem. rewrite lookup_insert_ne; [done|].
    apply not_eq_sym, legacy_key_ne_active. }
  destruct (JS.get_prop d "fileName") as [fileName|]; [|done]. simpl.
  destruct (StatePersistence.length_of data) as [dataLength|]; [|done]. simpl.
  destruct (LocalStorageAdapter.setItem StatePersistence.HAS_DATA_KEY _ _) as [st3|] eqn:Hset3; [|done].
  apply setItem_Normal in Hset3 as ->.
  unfold LocalStorageAdapter.getItem. rewrite lookup_insert_ne; [done|].
  apply not_eq_sym, legacy_key_ne_marker.
Qed.

(** X28.  A state saved by [saveStateToStorage] is the state
    [loadStateFromStorage] returns within seven days: for a session
    identifier that is not empty, a payload the serialiser carries through
    JSON whose [selectedRows] is a set (or a map, or falsy), and a record that
    fits the store, loading at [now'] with [now' - now] at most seven days
    returns the payload, the tab and the view that were saved, and leaves the
    store as it is. *)
Theorem legacy_save_then_load sid d tab view now now' st selectedRows :
  sid ≠ EmptyString →
  taggable d = true →
  JS.get_prop d "selectedRows" = JS.Normal selectedRows →
  JS.falsy selectedRows || StatePersistence.has_method selectedRows = true →
  now' - now ≤ 7 * 24 * 60 * 60 * 1000 →
  ∃ s,
    StatePersistence.serializeState d = JS.Normal s ∧
    (LocalStorageAdapter.quota_ok
       (<[StatePersistence.getSessionStorageKey sid :=
            LocalStorageAdapter.JSON_stringify_cell (StatePersistence.stateToSave s tab view now)]> st)
     = true →
     let st' := StatePersistence.saveStateToStorage sid d tab view now st in
     StatePersistence.loadStateFromStorage (Some sid) now' st' =
       (Some (JS.VObject
                [("dataState", d);
                 ("activeTab", JS.VString tab);
                 ("similarRows", JS.VUndefined);
                 ("currentView", JS.VString view)]), st')).
Proof.
  intros Hsid Hd Hsel Hok Hage.
  destruct (serialize_taggable d Hd) as (s & Hs & [j Hj] & Hback).
  exists s. split; [done|]. intros Hq st'.
  pose proof (saveStateToStorage_record sid d s tab view now st Hs Hq) as Hrec.
  fold st' in Hrec.
  unfold StatePersistence.loadStateFromStorage. rewrite given_Some by done. rewrite Hrec.
  unfold LocalStorageAdapter.JSON_stringify_cell.
  assert (Hjson : JS.JSON_stringify (StatePersistence.stateToSave s tab view now) =
            Some (JS.JObject
                    [("version", JS.JString StatePersistence.STORAGE_VERSION);
                     ("dataState", j);
                     ("activeTab", JS.JString tab);
                     ("currentView", JS.JString view);
                     ("timestamp", JS.JNumber now)])).
  { unfold StatePersistence.stateToSave. rewrite stringify_object. simpl. by rewrite Hj. }
  rewrite Hjson. simpl LocalStorageAdapter.no_data. cbv iota.
  simpl LocalStorageAdapter.JSON_parse. rewrite cbind_Normal.
  unfold reparsed in Hback. rewrite Hj in Hback. simpl in Hback.
  unfold StatePersistence.restore. simpl JS.of_json.
  change (JS.get_prop (JS.VObject _) "version") with (JS.Normal (JS.VString StatePersistence.STORAGE_VERSION)).
  rewrite cbind_Normal.
  change (StatePersistence.is_string StatePersistence.STORAGE_VERSION (JS.VString StatePersistence.STORAGE_VERSION)) with true.
  cbn [negb].
  change (JS.get_prop (JS.VObject _) "timestamp") with (JS.Normal (JS.VNumber now)).
  rewrite cbind_Normal, StatePersistence.ToNumber_number, cbind_Normal. simpl JS.num_sub.
  cbv beta iota. rewrite bool_decide_eq_false_2 by lia.
  change (JS.get_prop (JS.VObject _) "dataState") with (JS.Normal (JS.of_json j)).
  rewrite cbind_Normal, Hback, cbind_Normal, Hsel, cbind_Normal.
  apply orb_true_iff in Hok.
  assert (negb (JS.falsy selectedRows) && negb (StatePersistence.has_method selectedRows) = false) as ->.
  { destruct Hok as [-> | ->]; [done|]. apply andb_false_r. }
  reflexivity.
Qed.
End Records.

(** * The front end as the factory sets it up *)

Section FrontEnd.
Context `{JS.Platform} `{LocalStorageAdapter.Browser} {S : Type} `{ApiClient.Network S}.
Implicit Types w : World.t S.

Lemma backend_saveState_storage sid d tab ty w :
  World.storage (StateAdapter.saveState World.backendAdapter sid d tab ty w).2 = World.storage w.
Proof.
  simpl. unfold World.on_remote.
  by destruct (BackendAdapter.saveState sid d tab ty (World.clock w) (World.remote w)).
Qed.

Lemma backend_saveToAdapter_loop_storage n e rd sid d tab ty (o : StateSync.t (World.t S)) w :
  World.storage
    (StateSync.saveToAdapter_loop World.now World.delay n e rd World.backendAdapter
       sid d tab ty (o, w)).2.2 = World.storage w.
Proof.
  revert e w. induction n as [|n IH]; intros e w; [done|].
  rewrite saveToAdapter_loop_S. cbv zeta.
  destruct (SyncResult.success _).
  - apply backend_saveState_storage.
  - rewrite IH. destruct n; [|unfold World.delay; simpl]; apply backend_saveState_storage.
Qed.

(** X29.  The front end the factory sets up by default saves without the
    network.  [createStateSync] without a strategy returns an orchestrator
    for which, whatever the network and the remote service do, a [saveState]
    whose record the on-device adapter accepts returns the success of the
    on-device adapter, and leaves the on-device store exactly as that adapter
    wrote it. *)
Theorem default_front_end_saves_offline conflictResolution autoSync syncInterval
    sid d tab ty w :
  let saved :=
    LocalStorageAdapter.saveState sid d tab ty (World.clock w) (World.storage w) in
  SyncResult.success saved.1 = true →
  ∃ o,
    World.createStateSync None conflictResolution autoSync syncInterval = JS.Normal o ∧
    (StateSync.saveState World.now World.delay sid d tab ty (o, w)).1 = Some saved.1 ∧
    World.storage (StateSync.saveState World.now World.delay sid d tab ty (o, w)).2.2 = saved.2.
Proof.
  intros saved Hok.
  assert (Ho : ∃ o,
            World.createStateSync None conflictResolution autoSync syncInterval = JS.Normal o ∧
            JS.map_values (StateSync.adapters o) = [World.localAdapter; World.backendAdapter] ∧
            JS.map_get "backend" (StateSync.adapters o) = Some World.backendAdapter ∧
            SyncConfig.strategy (StateSync.config o) = "local-first" ∧
            SyncConfig.retryAttempts (StateSync.config o) = 3).
  { unfold World.createStateSync, StateSync.constructor, StateSync.startAutoSync_obj,
      StateSync.stopAutoSync_obj. simpl.
    repeat case_match; eexists; split_and!; reflexivity. }
  destruct Ho as (o & Hc & Hads & Hget & Hs & Hn). exists o. split; [done|].
  assert (Hsaved : StateAdapter.saveState World.localAdapter sid d tab ty w =
            (saved.1, World.mk saved.2 (World.remote w) (World.clock w))).
  { simpl. unfold World.on_storage. fold saved. by destruct saved. }
  assert (Hprio : StateAdapter.priority (World.localAdapter (S:=S)) <
                  StateAdapter.priority (World.backendAdapter (S:=S)))
    by (simpl; unfold LocalStorageAdapter.priority, BackendAdapter.priority; lia).
  rewrite (local_first_save_result World.now World.delay World.localAdapter
             World.backendAdapter eq_refl eq_refl Hprio sid d tab ty o w Hads Hget Hs)
    by (first [lia|by rewrite Hsaved]).
  rewrite Hsaved. cbn [fst snd]. split; [done|].
  destruct (queueBackendSync_with_backend World.now sid d tab ty o
              (World.mk saved.2 (World.remote w) (World.clock w)) World.backendAdapter Hget)
    as (_ & _ & _ & Hw & _).
  destruct (StateSync.queueBackendSync World.now sid d tab ty _) as [u [oq wq]].
  cbn [fst snd] in *. unfold StateSync.saveToAdapter, bind, StateSync.this. cbn [fst snd].
  rewrite backend_saveToAdapter_loop_storage, Hw.
  by rewrite backend_saveState_storage.
Qed.
End FrontEnd.

(** ** The further properties on more example inputs *)

Module MoreChecks.
Import Examples Fixtures LegacyFixtures.

#[local] Existing Instance ISO8601.platform.
#[local] Existing Instance ReferenceBrowser.browser.
#[local] Existing Instance ReferenceNumbers.numbers.
#[local] Existing Instance Service.network.

Lemma syncSession_pushes_newest_witness :
  let o := sync "local-first" in
  let collected :=
    StateSync.collect_states (JS.map_values (StateSync.adapters o)) "s2" (o, diverged) in
  let found := StateSync.found_states collected.1 in
  ∃ latest,
    latest ∈ found ∧
    (∀ s, s ∈ found →
       JS.date_gt (PersistedState.updatedAt s.2) (PersistedState.updatedAt latest.2) = false) ∧
    StateSync.syncSession "s2" (o, diverged) =
      (tt, (o, written_to "s2" latest (JS.map_values (StateSync.adapters o)) collected.2.2)).
Proof.
  intros o collected found.
  destruct (syncSession_pushes_newest "s2" o diverged) as [_ Hfound].
  apply Hfound. intros Hnone. apply (f_equal length) in Hnone.
  vm_compute in Hnone. discriminate.
Defined.

Lemma wrapper_load_agrees_with_adapter_witness :
  StatePersistenceV2.loadStateFromStorage (sync "local-first") "s1" saved_once =
    Some (JS.VObject [("dataState", DataState.to_value payload);
                      ("activeTab", JS.VString "labeling")]).
Proof.
  destruct (wrapper_load_agrees_with_adapter (sync "local-first") "s1" ∅) as [_ Hsaved].
  - by eexists.
  - apply (Hsaved payload "labeling" SaveData t0); vm_compute; reflexivity.
Defined.

Lemma tagged_values_survive_json_witness :
  ∃ s j, StatePersistence.serializeState state = JS.Normal s ∧
         JS.JSON_stringify s = Some j ∧
         StatePersistence.deserializeState (JS.of_json j) = JS.Normal state.
Proof.
  apply (tagged_values_survive_json state). vm_compute. reflexivity.
Defined.

Lemma legacy_load_removes_unusable_record_witness :
  let r := StatePersistence.loadStateFromStorage (Some "s1") t0 unreadable in
  r.1 = None ∧
  LocalStorageAdapter.getItem (StatePersistence.getSessionStorageKey "s1") r.2 = None ∧
  StatePersistence.hasStoredData (Some "s1") r.2 = false ∧
  StatePersistence.getActiveSessionId r.2 ≠ Some "s1".
Proof.
  intros r.
  destruct (legacy_load_removes_unusable_record "s1" t0 unreadable) as (_ & _ & Hnone & _);
    [done|].
  split; [vm_compute; reflexivity|]. apply Hnone; vm_compute; reflexivity.
Defined.

Lemma legacy_save_then_load_witness :
  let st' := StatePersistence.saveStateToStorage "s1" state "labeling" "data" t0 ∅ in
  StatePersistence.loadStateFromStorage (Some "s1") (t0 + 1000) st' =
    (Some (JS.VObject
             [("dataState", state);
              ("activeTab", JS.VString "labeling");
              ("similarRows", JS.VUndefined);
              ("currentView", JS.VString "data")]), st').
Proof.
  destruct (legacy_save_then_load "s1" state "labeling" "data" t0 (t0 + 1000) ∅
              (JS.VSet [JS.VString "row-1"])) as (s & Hs & Hload);
    [done|vm_compute; reflexivity|reflexivity|reflexivity|vm_compute; discriminate|].
  apply Hload. vm_compute in Hs. injection Hs as <-. vm_compute. reflexivity.
Defined.
Lemma default_front_end_saves_offline_witness :
  let saved :=
    LocalStorageAdapter.saveState "s1" payload "labeling" SaveData
      (World.clock unreachable_fresh) (World.storage unreachable_fresh) in
  ∃ o,
    World.createStateSync None None None None = JS.Normal o ∧
    (StateSync.saveState World.now World.delay "s1" payload "labeling" SaveData
       (o, unreachable_fresh)).1 = Some saved.1 ∧
    World.storage
      (StateSync.saveState World.now World.delay "s1" payload "labeling" SaveData
         (o, unreachable_fresh)).2.2 = saved.2.
Proof.
  apply (default_front_end_saves_offline None None None "s1" payload "labeling" SaveData
           unreachable_fresh).
  vm_compute. reflexivity.
Defined.
End MoreChecks.
